(** * Hand tracker: the frame-tracking pass and the movement statistics

    A shallow embedding of [mediapipe-handtrackingv2.py]: the per-frame
    tracking loop that fills [csv_data], the function
    [calculate_movement_stats], and the CSV writer that serialises the
    records.

    Numbers.  Frame numbers and lengths are Python integers ([Z], [nat]).
    Coordinates, distances, speeds and the frame rate are Python floats.
    The statistics code is written once over an interface [Number] of the
    float operations it uses, and instantiated twice: with the kernel's
    binary64 floats ([PrimFloat], what the interpreter computes with) and
    with the real numbers (the same program without rounding).

    Errors.  A Python exception is a value [inl e] of the [result] type;
    the exceptions the statistics code can raise on its own
    ([ZeroDivisionError] by [/], [IndexError] by a subscript, [ValueError]
    by [max]/[min] of an empty sequence, [TypeError] by an object of the
    wrong kind) are modelled.  [dx**2] is the product [dx * dx] and
    [math.sqrt] is the IEEE square root (its argument is a sum of
    squares).

    The file has two parts: the definitions (the embedding of the script,
    the closed forms and predicates the statements use, the scenarios),
    then the proofs. *)

From Stdlib Require Import ZArith List Bool Lia Lra Reals.
From Stdlib Require Import Floats.PrimFloat.
From Stdlib Require Uint63 FloatAxioms.
From Stdlib Require Import Ascii.
From Stdlib Require DecimalString DecimalZ DecimalPos.
From stdpp Require Import base option list sorting gmap sets strings.

Set Warnings "-inexact-float".

(** ** Exceptions *)

Inductive exn : Set :=
  | ZeroDivisionError
  | IndexError
  | ValueError
  | TypeError.

Definition result (A : Type) : Type := (exn + A)%type.

Definition ret {A} (a : A) : result A := inr a.
Definition raise {A} (e : exn) : result A := inl e.

Definition bind {A B} (m : result A) (k : A → result B) : result B :=
  match m with
  | inl e => inl e
  | inr a => k a
  end.

Notation "'do' x <- m ; k" := (bind m (λ x, k))
  (at level 10, x pattern, m at level 100, k at level 200,
   format "'[v' 'do'  x  <-  m ; '/' k ']'").

(** [for x in l: acc = f(acc, x)], stopping at the first exception. *)
Fixpoint foldM {A B} (f : B → A → result B) (l : list A) (b : B) : result B :=
  match l with
  | [] => ret b
  | x :: l' => do b' <- f b x; foldM f l' b'
  end.

(** ** The float operations the script uses *)

Class Number (F : Type) : Type := {
  zero : F;
  add : F → F → F;
  sub : F → F → F;
  mul : F → F → F;
  fdiv : F → F → F;
  fsqrt : F → F;
  ltb : F → F → bool;
  eqb : F → F → bool;
  of_int : Z → F;
}.

(** binary64.  [of_int] is exact below [2^53] in absolute value, which
    covers frame numbers and list lengths. *)
Definition float_of_int (z : Z) : float :=
  if (z <? 0)%Z then PrimFloat.opp (PrimFloat.of_uint63 (Uint63.of_Z (- z)))
  else PrimFloat.of_uint63 (Uint63.of_Z z).

#[export] Instance float_Number : Number float := {|
  zero := PrimFloat.zero;
  add := PrimFloat.add;
  sub := PrimFloat.sub;
  mul := PrimFloat.mul;
  fdiv := PrimFloat.div;
  fsqrt := PrimFloat.sqrt;
  ltb := PrimFloat.ltb;
  eqb := PrimFloat.eqb;
  of_int := float_of_int;
|}.

(** The reals: the same operations without rounding. *)
#[export] Instance Rlt_decision (x y : R) : Decision (x < y)%R := Rlt_dec x y.
#[export] Instance Req_decision : EqDecision R := Req_dec_T.

#[export] Instance R_Number : Number R := {|
  zero := 0%R;
  add := Rplus;
  sub := Rminus;
  mul := Rmult;
  fdiv := Rdiv;
  fsqrt := R_sqrt.sqrt;
  ltb x y := bool_decide (x < y)%R;
  eqb x y := bool_decide (x = y);
  of_int := IZR;
|}.

Section Engine.
Context {F : Type} `{Number F}.

(** *** Python's arithmetic and built-ins *)

(** [x / y] with a float divisor. *)
Definition py_div (x y : F) : result F :=
  if eqb y zero then raise ZeroDivisionError else ret (fdiv x y).

(** [x / n] with an integer divisor: the interpreter raises exactly when
    the integer is [0]. *)
Definition py_div_int (x : F) (n : Z) : result F :=
  if (n =? 0)%Z then raise ZeroDivisionError else ret (fdiv x (of_int n)).

(** [sum(l)]: left to right from the integer [0]. *)
Definition py_sum (l : list F) : F := fold_left add l zero.

(** [max(l)]: the first maximal element ([item > max_item] replaces). *)
Definition max_from (x : F) (l : list F) : F :=
  fold_left (λ m y, if ltb m y then y else m) l x.

Definition py_max (l : list F) : result F :=
  match l with
  | [] => raise ValueError
  | x :: l' => ret (max_from x l')
  end.

(** [min(l)]: the first minimal element ([item < min_item] replaces). *)
Definition min_from (x : F) (l : list F) : F :=
  fold_left (λ m y, if ltb y m then y else m) l x.

Definition py_min (l : list F) : result F :=
  match l with
  | [] => raise ValueError
  | x :: l' => ret (min_from x l')
  end.

(** [max] over integers. *)
Definition max_int_from (x : Z) (l : list Z) : Z :=
  fold_left (λ m y, if (m <? y)%Z then y else m) l x.

Definition py_max_int (l : list Z) : result Z :=
  match l with
  | [] => raise ValueError
  | x :: l' => ret (max_int_from x l')
  end.

(** [l[i]] for [0 <= i]. *)
Definition py_index {A} (l : list A) (i : nat) : result A :=
  match l !! i with
  | Some x => ret x
  | None => raise IndexError
  end.

(** [np.std(l)]: the population standard deviation,
    [sqrt(mean(abs(l - mean(l))**2))], the sums taken from left to right. *)
Definition np_std (l : list F) : result F :=
  let n := Z.of_nat (length l) in
  do m <- py_div_int (py_sum l) n;
  do v <- py_div_int (py_sum ((λ x, mul (sub x m) (sub x m)) <$> l)) n;
  ret (fsqrt v).

(** *** Detection records: the dictionaries appended to [csv_data] *)

Record detection : Type := Detection {
  frame : Z;
  hand : string;
  wrist_x : F;
  wrist_y : F;
  wrist_z : F;
  num_landmarks : Z;
}.

(** [hand_data.sort(key=lambda x: x['frame'])]: a stable sort. *)
Fixpoint insert_by_frame (d : detection) (l : list detection) : list detection :=
  match l with
  | [] => [d]
  | e :: l' =>
      if (frame d <=? frame e)%Z then d :: e :: l'
      else e :: insert_by_frame d l'
  end.

Definition sort_by_frame (l : list detection) : list detection :=
  foldr insert_by_frame [] l.

(** *** The statistics dictionaries *)

Record position_ranges : Type := PositionRanges {
  x_range : F;
  y_range : F;
  z_range : F;
}.

Record center_of_mass : Type := CenterOfMass {
  com_x : F;
  com_y : F;
  com_z : F;
}.

(** [stats['left']] or [stats['right']] once filled. *)
Record hand_stats : Type := HandStats {
  total_detections : nat;
  frames_active : nat;
  total_distance : F;
  avg_distance_per_frame : F;
  max_distance_per_frame : F;
  min_distance_per_frame : F;
  avg_speed : F;
  max_speed : F;
  min_speed : F;
  speed_std : F;
  ranges : position_ranges;
  center : center_of_mass;
}.

(** [stats['combined']] once filled. *)
Record combined_stats : Type := CombinedStats {
  combined_total_detections : nat;
  unique_frames : nat;
  detection_rate : F;
}.

(** The dictionary [stats]: a sub-dictionary is [None] while it is [{}]. *)
Record stats : Type := Stats {
  left : option hand_stats;
  right : option hand_stats;
  combined : option combined_stats;
}.

(** *** [calculate_movement_stats] *)

(** The 3-D distance between two consecutive detections. *)
Definition distance3 (prev curr : detection) : F :=
  let dx := sub (wrist_x curr) (wrist_x prev) in
  let dy := sub (wrist_y curr) (wrist_y prev) in
  let dz := sub (wrist_z curr) (wrist_z prev) in
  fsqrt (add (add (mul dx dx) (mul dy dy)) (mul dz dz)).

(** The body of [for i in range(1, len(hand_data))] once [prev] and
    [curr] are read, on the pair of lists [(distances, speeds)]. *)
Definition pair_step (fps : F) (acc : list F * list F)
    (prev curr : detection) : result (list F * list F) :=
  let '(distances, speeds) := acc in
  let distance := distance3 prev curr in
  let distances := distances ++ [distance] in
  let frame_diff := (frame curr - frame prev)%Z in
  if (0 <? frame_diff)%Z && ltb zero fps then
    do time_diff <- py_div (of_int frame_diff) fps;
    do speed <- py_div distance time_diff;
    ret (distances, speeds ++ [speed])
  else ret (distances, speeds).

(** One iteration: [prev = hand_data[i-1]], [curr = hand_data[i]]. *)
Definition movement_step (hand_data : list detection) (fps : F)
    (acc : list F * list F) (i : nat) : result (list F * list F) :=
  do prev <- py_index hand_data (i - 1);
  do curr <- py_index hand_data i;
  pair_step fps acc prev curr.

Definition movement_loop (hand_data : list detection) (fps : F)
    : result (list F * list F) :=
  foldM (movement_step hand_data fps) (seq 1 (length hand_data - 1)) ([], []).

(** [max(p) - min(p) if p else 0] *)
Definition range_of (positions : list F) : result F :=
  match positions with
  | [] => ret zero
  | _ => do hi <- py_max positions; do lo <- py_min positions; ret (sub hi lo)
  end.

(** [sum(p) / len(p) if p else 0] *)
Definition mean_of (positions : list F) : result F :=
  match positions with
  | [] => ret zero
  | _ => py_div_int (py_sum positions) (Z.of_nat (length positions))
  end.

(** "Store distance statistics": total, average, maximum, minimum. *)
Definition distance_statistics (distances : list F) : result (F * F * F * F) :=
  match distances with
  | [] => ret (zero, zero, zero, zero)
  | _ =>
    let total := py_sum distances in
    do avg <- py_div_int (py_sum distances) (Z.of_nat (length distances));
    do hi <- py_max distances;
    do lo <- py_min distances;
    ret (total, avg, hi, lo)
  end.

(** "Store speed statistics": average, maximum, minimum, deviation. *)
Definition speed_statistics (speeds : list F) : result (F * F * F * F) :=
  match speeds with
  | [] => ret (zero, zero, zero, zero)
  | _ =>
    do avg <- py_div_int (py_sum speeds) (Z.of_nat (length speeds));
    do hi <- py_max speeds;
    do lo <- py_min speeds;
    do sd <- (if decide (1 < length speeds) then np_std speeds else ret zero);
    ret (avg, hi, lo, sd)
  end.

(** "Position statistics": the ranges and the centre of mass. *)
Definition position_statistics (hand_data : list detection)
    : result (position_ranges * center_of_mass) :=
  let x_positions := wrist_x <$> hand_data in
  let y_positions := wrist_y <$> hand_data in
  let z_positions := wrist_z <$> hand_data in
  do xr <- range_of x_positions;
  do yr <- range_of y_positions;
  do zr <- range_of z_positions;
  do cx <- mean_of x_positions;
  do cy <- mean_of y_positions;
  do cz <- mean_of z_positions;
  ret ({| x_range := xr; y_range := yr; z_range := zr |},
       {| com_x := cx; com_y := cy; com_z := cz |}).

(** The body of [for hand_type in ['Left', 'Right']] below the sort:
    what is stored under [stats[hand_key]], from the sorted [hand_data]. *)
Definition hand_body (hand_data : list detection) (fps : F)
    : result (option hand_stats) :=
  let n_total := length hand_data in
  let n_active := size (list_to_set (frame <$> hand_data) : gset Z) in
  do (distances, speeds) <- movement_loop hand_data fps;
  do (total, avg_d, max_d, min_d) <- distance_statistics distances;
  do (avg_s, max_s, min_s, std_s) <- speed_statistics speeds;
  do (rg, cm) <- position_statistics hand_data;
  ret (Some {|
    total_detections := n_total;
    frames_active := n_active;
    total_distance := total;
    avg_distance_per_frame := avg_d;
    max_distance_per_frame := max_d;
    min_distance_per_frame := min_d;
    avg_speed := avg_s;
    max_speed := max_s;
    min_speed := min_s;
    speed_std := std_s;
    ranges := rg;
    center := cm;
  |}).

(** The whole body: the list comprehension, [continue] when it is empty,
    the sort, and the rest. *)
Definition hand_statistics (csv_data : list detection) (fps : F)
    (hand_type : string) : result (option hand_stats) :=
  let hand_data := filter (λ d, hand d = hand_type) csv_data in
  match hand_data with
  | [] => ret None
  | _ => hand_body (sort_by_frame hand_data) fps
  end.

(** The "Combined statistics" block. *)
Definition combined_statistics (all_data : list detection)
    : result (option combined_stats) :=
  match all_data with
  | [] => ret None
  | _ =>
    let n_unique := size (list_to_set (frame <$> all_data) : gset Z) in
    do max_frame <- py_max_int (frame <$> all_data);
    do rate <-
      (if (0 <? max_frame)%Z then
         do q <- py_div_int (of_int (Z.of_nat n_unique)) max_frame;
         ret (mul q (of_int 100))
       else ret zero);
    ret (Some {|
      combined_total_detections := length all_data;
      unique_frames := n_unique;
      detection_rate := rate;
    |})
  end.

(** The whole function; [None] is the empty dictionary [{}] returned
    for an empty [csv_data]. *)
Definition calculate_movement_stats (csv_data : list detection) (fps : F)
    : result (option stats) :=
  match csv_data with
  | [] => ret None
  | _ =>
    do l <- hand_statistics csv_data fps "Left";
    do r <- hand_statistics csv_data fps "Right";
    do c <- combined_statistics csv_data;
    ret (Some {| left := l; right := r; combined := c |})
  end.

End Engine.

Arguments detection F : clear implicits.
Arguments position_ranges F : clear implicits.
Arguments center_of_mass F : clear implicits.
Arguments hand_stats F : clear implicits.
Arguments combined_stats F : clear implicits.
Arguments stats F : clear implicits.

(** ** What the statistics are specified to be *)

Section Specification.
Context {F : Type} `{Number F}.

(** The hand's subset and its order by frame number. *)
Definition hand_subset (csv_data : list (detection F)) (hand_type : string)
    : list (detection F) :=
  filter (λ d, hand d = hand_type) csv_data.

Definition frame_le (d e : detection F) : Prop := (frame d ≤ frame e)%Z.

(** The distances between consecutive records of a sequence. *)
Definition consecutive_distances (l : list (detection F)) : list F :=
  zip_with distance3 l (tail l).

(** The entry of a hand in the result. *)
Definition hand_entry (st : stats F) (hand_type : string) : option (hand_stats F) :=
  if decide (hand_type = "Left") then left st
  else if decide (hand_type = "Right") then right st
  else None.

(** The speeds of the steps that have one: a positive frame gap and a
    positive frame rate. *)
Fixpoint consecutive_speeds (fps : F) (l : list (detection F)) : list F :=
  match l with
  | prev :: (curr :: _) as l' =>
      let gap := (frame curr - frame prev)%Z in
      if (0 <? gap)%Z && ltb zero fps
      then fdiv (distance3 prev curr) (fdiv (of_int gap) fps)
             :: consecutive_speeds fps l'
      else consecutive_speeds fps l'
  | _ => []
  end.

End Specification.

(** ** The aggregate as a function of the records and the frame rate

    Closed forms of what the blocks of [calculate_movement_stats] store,
    used to state and prove what the function returns. *)

Section Summaries.
Context {F : Type} `{Number F}.
Implicit Types (x : F) (ds ss xs : list F) (hd : list (detection F)).
Implicit Types (d p c : detection F) (l pre rest : list (detection F)).
Implicit Types (csv_data : list (detection F)) (fps : F).
Implicit Types (acc : list F * list F).

(** The loop as a walk along the list: [prev] is the record just left. *)
Fixpoint walk fps p rest acc : result (list F * list F) :=
  match rest with
  | [] => ret acc
  | c :: rest' => do acc' <- pair_step fps acc p c; walk fps c rest' acc'
  end.

Definition mean (xs : list F) : F :=
  fdiv (py_sum xs) (of_int (Z.of_nat (length xs))).

Definition deviation (xs : list F) : F :=
  fsqrt (fdiv (py_sum ((λ x, mul (sub x (mean xs)) (sub x (mean xs))) <$> xs))
              (of_int (Z.of_nat (length xs)))).

Definition distance_summary ds : F * F * F * F :=
  match ds with
  | [] => (zero, zero, zero, zero)
  | d :: ds' => (py_sum ds, mean ds, max_from d ds', min_from d ds')
  end.

Definition speed_summary ss : F * F * F * F :=
  match ss with
  | [] => (zero, zero, zero, zero)
  | s :: ss' =>
      (mean ss, max_from s ss', min_from s ss',
       if decide (1 < length ss) then deviation ss else zero)
  end.

Definition range_summary xs : F :=
  match xs with
  | [] => zero
  | x :: xs' => sub (max_from x xs') (min_from x xs')
  end.

Definition mean_summary xs : F :=
  match xs with
  | [] => zero
  | _ => mean xs
  end.

Definition position_summary hd : position_ranges F * center_of_mass F :=
  ({| x_range := range_summary (wrist_x <$> hd);
      y_range := range_summary (wrist_y <$> hd);
      z_range := range_summary (wrist_z <$> hd) |},
   {| com_x := mean_summary (wrist_x <$> hd);
      com_y := mean_summary (wrist_y <$> hd);
      com_z := mean_summary (wrist_z <$> hd) |}).

(** The dictionary of one hand, from its sorted records and the two
    series of the movement loop. *)
Definition hand_summary hd ds ss : hand_stats F :=
  let '(total, avg_d, max_d, min_d) := distance_summary ds in
  let '(avg_s, max_s, min_s, std_s) := speed_summary ss in
  let '(rg, cm) := position_summary hd in
  {| total_detections := length hd;
     frames_active := size (list_to_set (frame <$> hd) : gset Z);
     total_distance := total;
     avg_distance_per_frame := avg_d;
     max_distance_per_frame := max_d;
     min_distance_per_frame := min_d;
     avg_speed := avg_s;
     max_speed := max_s;
     min_speed := min_s;
     speed_std := std_s;
     ranges := rg;
     center := cm |}.

(** The combined block. *)
Definition combined_summary (all_data : list (detection F)) : option (combined_stats F) :=
  match all_data with
  | [] => None
  | d :: l =>
    let n_unique := size (list_to_set (frame <$> all_data) : gset Z) in
    let max_frame := max_int_from (frame d) (frame <$> l) in
    Some {| combined_total_detections := length all_data;
            unique_frames := n_unique;
            detection_rate :=
              if (0 <? max_frame)%Z
              then mul (fdiv (of_int (Z.of_nat n_unique)) (of_int max_frame))
                       (of_int 100)
              else zero |}
  end.

Definition sorted_subset csv_data (hand_type : string) : list (detection F) :=
  sort_by_frame (hand_subset csv_data hand_type).

Definition hand_aggregate csv_data fps (hand_type : string)
    : option (hand_stats F) :=
  match hand_subset csv_data hand_type with
  | [] => None
  | _ =>
    let hd := sorted_subset csv_data hand_type in
    Some (hand_summary hd (consecutive_distances hd) (consecutive_speeds fps hd))
  end.

Definition aggregate csv_data fps : option (stats F) :=
  match csv_data with
  | [] => None
  | _ => Some {| left := hand_aggregate csv_data fps "Left";
                 right := hand_aggregate csv_data fps "Right";
                 combined := combined_summary csv_data |}
  end.

(** The numeric fields a dictionary carries, counts included. *)
Definition hand_fields (o : option (hand_stats F)) : list F :=
  match o with
  | None => []
  | Some hs =>
      [ of_int (Z.of_nat (total_detections hs));
        of_int (Z.of_nat (frames_active hs));
        total_distance hs; avg_distance_per_frame hs;
        max_distance_per_frame hs; min_distance_per_frame hs;
        avg_speed hs; max_speed hs; min_speed hs; speed_std hs;
        x_range (ranges hs); y_range (ranges hs); z_range (ranges hs);
        com_x (center hs); com_y (center hs); com_z (center hs) ]
  end.

Definition combined_fields (o : option (combined_stats F)) : list F :=
  match o with
  | None => []
  | Some c =>
      [ of_int (Z.of_nat (combined_total_detections c));
        of_int (Z.of_nat (unique_frames c));
        detection_rate c ]
  end.

Definition numeric_fields (r : option (stats F)) : list F :=
  match r with
  | None => []
  | Some st =>
      hand_fields (left st) ++ hand_fields (right st) ++ combined_fields (combined st)
  end.

Definition speed_fields_zero (hs : hand_stats F) : Prop :=
  avg_speed hs = zero ∧ max_speed hs = zero
  ∧ min_speed hs = zero ∧ speed_std hs = zero.

(** What a run with a frame rate that is not positive does: it returns,
    the speed series of each hand stays empty, and the speed fields of
    each entry are [0]. *)
Definition no_speed_run (csv_data : list (detection F)) (fps : F) : Prop :=
  (∃ r, calculate_movement_stats csv_data fps = inr r
        ∧ ∀ st hand_type hs,
            r = Some st → hand_entry st hand_type = Some hs →
            speed_fields_zero hs)
  ∧ ∀ hand_type,
      movement_loop (sort_by_frame (hand_subset csv_data hand_type)) fps
      = inr (consecutive_distances (sort_by_frame (hand_subset csv_data hand_type)), []).

End Summaries.

(** The claim read to the letter: the reported rate is the quotient of
    the number of distinct frames by the largest frame number. *)
Definition rate_is_plain_quotient {F : Type} `{Number F}
    (csv_data : list (detection F)) (fps : F) : Prop :=
  ∀ (st : stats F) (c : combined_stats F) (m : Z),
    calculate_movement_stats csv_data fps = inr (Some st) →
    combined st = Some c →
    m ∈ frame <$> csv_data → (∀ f, f ∈ frame <$> csv_data → (f ≤ m)%Z) →
    detection_rate c = fdiv (of_int (Z.of_nat (unique_frames c))) (of_int m).

(** The order the claim states, on the floats the script computes with. *)
Definition float_fields_ordered (hs : hand_stats float) : Prop :=
  PrimFloat.leb 0 (min_distance_per_frame hs) = true
  ∧ PrimFloat.leb (min_distance_per_frame hs) (avg_distance_per_frame hs) = true
  ∧ PrimFloat.leb (avg_distance_per_frame hs) (max_distance_per_frame hs) = true
  ∧ PrimFloat.leb (max_distance_per_frame hs) (total_distance hs) = true
  ∧ PrimFloat.leb 0 (min_speed hs) = true
  ∧ PrimFloat.leb (min_speed hs) (avg_speed hs) = true
  ∧ PrimFloat.leb (avg_speed hs) (max_speed hs) = true.

Definition float_statistics_ordered (csv_data : list (detection float))
    (fps : float) : Prop :=
  ∀ (st : stats float) (hand_type : string) (hs : hand_stats float),
    calculate_movement_stats csv_data fps = inr (Some st) →
    hand_entry st hand_type = Some hs →
    float_fields_ordered hs.

(** The same order over the reals. *)
Definition real_fields_ordered (hs : hand_stats R) : Prop :=
  (0 <= min_distance_per_frame hs
   ∧ min_distance_per_frame hs <= avg_distance_per_frame hs
   ∧ avg_distance_per_frame hs <= max_distance_per_frame hs
   ∧ max_distance_per_frame hs <= total_distance hs
   ∧ 0 <= min_speed hs
   ∧ min_speed hs <= avg_speed hs
   ∧ avg_speed hs <= max_speed hs)%R.

(** * The tracking pass

    [cap] is the list of what the successive calls of [cap.read()]
    return: a frame together with what [hands.process] finds in it (the
    detector tracks hands from frame to frame, so its answer belongs to
    the run, not to the frame alone), or a failure [(False, None)].  Past
    the end of the list every read fails. *)

Section Tracker.
Context {F : Type}.

(** A landmark of a hand: normalised [x], [y] and relative depth [z]. *)
Record landmark : Type := Landmark {
  lm_x : F;
  lm_y : F;
  lm_z : F;
}.

(** One entry of [results.multi_hand_landmarks] with its label in
    [results.multi_handedness]; [landmark[0]] is the wrist. *)
Record hand_landmarks : Type := HandLandmarks {
  handedness : string;
  wrist : landmark;
  other_landmarks : list landmark;
}.

Inductive read_result : Type :=
  | ReadFailed
  | ReadFrame (multi_hand_landmarks : list hand_landmarks).

(** The variables of the loop: the counter, the records, and the number
    of frames written to [out]. *)
Record tracker : Type := Tracker {
  frame_idx : Z;
  csv_data : list (detection F);
  frames_written : nat;
}.

Definition tracker_start : tracker :=
  {| frame_idx := 0; csv_data := []; frames_written := 0 |}.

(** The dictionary appended for one hand. *)
Definition record_of (idx : Z) (h : hand_landmarks) : detection F :=
  {| frame := idx;
     hand := handedness h;
     wrist_x := lm_x (wrist h);
     wrist_y := lm_y (wrist h);
     wrist_z := lm_z (wrist h);
     num_landmarks := Z.of_nat (S (length (other_landmarks h))) |}.

(** The body of the loop after a successful read. *)
Definition track_frame (st : tracker) (hands : list hand_landmarks) : tracker :=
  let idx := (frame_idx st + 1)%Z in
  {| frame_idx := idx;
     csv_data := fold_left (λ acc h, acc ++ [record_of idx h]) hands (csv_data st);
     frames_written := S (frames_written st) |}.

(** [while cap.isOpened(): ret, frame = cap.read(); if not ret: break; ...] *)
Fixpoint tracking_loop (reads : list read_result) (st : tracker) : tracker :=
  match reads with
  | [] => st
  | ReadFailed :: _ => st
  | ReadFrame hands :: rest => tracking_loop rest (track_frame st hands)
  end.

Definition tracking_pass (is_opened : bool) (reads : list read_result) : tracker :=
  if is_opened then tracking_loop reads tracker_start else tracker_start.

(** One iteration of the loop, as a transition between the reads still
    to come and the variables. *)
Inductive tracking_step :
    list read_result * tracker → list read_result * tracker → Prop :=
  | tracking_step_frame hands rest st :
      tracking_step (ReadFrame hands :: rest, st) (rest, track_frame st hands).

(** The loop as the claim words it: a failed read is skipped, the
    counter still advances, and the pass goes on. *)
Fixpoint skipping_loop (reads : list read_result) (st : tracker) : tracker :=
  match reads with
  | [] => st
  | ReadFailed :: rest =>
      skipping_loop rest {| frame_idx := frame_idx st + 1;
                            csv_data := csv_data st;
                            frames_written := frames_written st |}
  | ReadFrame hands :: rest => skipping_loop rest (track_frame st hands)
  end.

(** The records of the frames [k+1], [k+2], ... of a list of frames. *)
Fixpoint records_from (k : Z) (frames : list (list hand_landmarks))
    : list (detection F) :=
  match frames with
  | [] => []
  | hands :: frames' =>
      (record_of (k + 1) <$> hands) ++ records_from (k + 1) frames'
  end.

(** The configured [max_num_hands]. *)
Definition max_num_hands : nat := 4.

Definition within_max_hands (r : read_result) : Prop :=
  match r with
  | ReadFailed => True
  | ReadFrame hands => length hands ≤ max_num_hands
  end.

End Tracker.

Arguments landmark F : clear implicits.
Arguments hand_landmarks F : clear implicits.
Arguments read_result F : clear implicits.
Arguments tracker F : clear implicits.

(** The claim read to the letter: the pass treats a failed read as the
    skipping loop does. *)
Definition failed_read_is_skipped {F : Type} (reads : list (read_result F)) : Prop :=
  tracking_loop reads tracker_start = skipping_loop reads tracker_start.

(** * The statistics on the interpreter's store

    [csv_data] is a list object whose items are references to the
    dictionaries appended by the tracking pass.  The list comprehension
    of [calculate_movement_stats] builds a new list object that refers to
    the same dictionaries, and [hand_data.sort] reorders that new object
    in place.  The lists [distances] and [speeds] and the dictionaries of
    the result are new objects that nothing else refers to: they are kept
    as values. *)

Section Store.
Context {F : Type} `{Number F}.

Inductive object : Type :=
  | ListObj (items : list positive)
  | DictObj (d : detection F).

(** A computation on the store that may raise. *)
Definition storeM (A : Type) : Type :=
  gmap positive object → result (A * gmap positive object).

Definition store_ret {A} (a : A) : storeM A := λ h, inr (a, h).

Definition store_bind {A B} (m : storeM A) (k : A → storeM B) : storeM B :=
  λ h, match m h with
       | inl e => inl e
       | inr (a, h') => k a h'
       end.

(** A computation that does not touch the store. *)
Definition store_lift {A} (p : result A) : storeM A :=
  λ h, match p with
       | inl e => inl e
       | inr a => inr (a, h)
       end.

Definition get_list (l : positive) : storeM (list positive) :=
  λ h, match h !! l with
       | Some (ListObj items) => inr (items, h)
       | _ => inl TypeError
       end.

Definition get_dict (l : positive) : storeM (detection F) :=
  λ h, match h !! l with
       | Some (DictObj d) => inr (d, h)
       | _ => inl TypeError
       end.

(** A new list object, at an address not in use. *)
Definition new_list (items : list positive) : storeM positive :=
  λ h, let l := fresh (dom h) in inr (l, <[l := ListObj items]> h).

(** The items of an existing list object are replaced. *)
Definition set_list (l : positive) (items : list positive) : storeM unit :=
  λ h, inr ((), <[l := ListObj items]> h).

Fixpoint store_map {A B} (f : A → storeM B) (l : list A) : storeM (list B) :=
  match l with
  | [] => store_ret []
  | x :: l' =>
      store_bind (f x) (λ y,
      store_bind (store_map f l') (λ ys, store_ret (y :: ys)))
  end.

Fixpoint store_filter {A} (p : A → storeM bool) (l : list A) : storeM (list A) :=
  match l with
  | [] => store_ret []
  | x :: l' =>
      store_bind (p x) (λ b,
      store_bind (store_filter p l') (λ ys,
      store_ret (if b then x :: ys else ys)))
  end.

(** [[d for d in csv_data if d['hand'] == hand_type]] *)
Definition comprehension (csv_data : positive) (hand_type : string)
    : storeM positive :=
  store_bind (get_list csv_data) (λ items,
  store_bind (store_filter
                (λ i, store_bind (get_dict i) (λ d,
                      store_ret (bool_decide (hand d = hand_type))))
                items) (λ kept,
  new_list kept)).

(** The sort on keys computed once per item. *)
Fixpoint insert_keyed (k : Z) (i : positive) (l : list (Z * positive))
    : list (Z * positive) :=
  match l with
  | [] => [(k, i)]
  | (k', i') :: l' =>
      if (k <=? k')%Z then (k, i) :: (k', i') :: l'
      else (k', i') :: insert_keyed k i l'
  end.

Definition sort_keyed (l : list (Z * positive)) : list (Z * positive) :=
  foldr (λ ki, insert_keyed ki.1 ki.2) [] l.

(** [hand_data.sort(key=lambda x: x['frame'])], in place. *)
Definition sort_in_place (hand_data : positive) : storeM unit :=
  store_bind (get_list hand_data) (λ items,
  store_bind (store_map
                (λ i, store_bind (get_dict i) (λ d, store_ret (frame d, i)))
                items) (λ keyed,
  set_list hand_data ((sort_keyed keyed).*2))).

(** The dictionaries a list object refers to, in order. *)
Definition read_records (l : positive) : storeM (list (detection F)) :=
  store_bind (get_list l) (λ items, store_map get_dict items).

Definition hand_statistics_store (csv_data : positive) (fps : F)
    (hand_type : string) : storeM (option (hand_stats F)) :=
  store_bind (comprehension csv_data hand_type) (λ hand_data,
  store_bind (get_list hand_data) (λ items,
  match items with
  | [] => store_ret None
  | _ =>
    store_bind (sort_in_place hand_data) (λ _,
    store_bind (read_records hand_data) (λ records,
    store_lift (hand_body records fps)))
  end)).

Definition calculate_movement_stats_store (csv_data : positive) (fps : F)
    : storeM (option (stats F)) :=
  store_bind (get_list csv_data) (λ items,
  match items with
  | [] => store_ret None
  | _ =>
    store_bind (hand_statistics_store csv_data fps "Left") (λ l,
    store_bind (hand_statistics_store csv_data fps "Right") (λ r,
    store_bind (read_records csv_data) (λ all_data,
    store_bind (store_lift (combined_statistics all_data)) (λ c,
    store_ret (Some {| left := l; right := r; combined := c |})))))
  end).

(** The store holds the sequence [records] at [csv_data]. *)
Definition refers_to (h : gmap positive object) (i : positive)
    (d : detection F) : Prop :=
  h !! i = Some (DictObj d).

Definition holds_records (h : gmap positive object) (csv_data : positive)
    (records : list (detection F)) : Prop :=
  ∃ items, h !! csv_data = Some (ListObj items)
           ∧ Forall2 (refers_to h) items records.

(** A store computation does what a pure one does and leaves every
    object of the store it starts from as it is. *)
Definition preserves {A} (m : storeM A) (h : gmap positive object)
    (p : result A) : Prop :=
  match p with
  | inl e => m h = inl e
  | inr a => ∃ h', m h = inr (a, h') ∧ h ⊆ h'
  end.

(** The keys of the sort are the frame numbers of the records. *)
Definition keyed_refers_to (h : gmap positive object) (ki : Z * positive)
    (d : detection F) : Prop :=
  ki.1 = frame d ∧ refers_to h ki.2 d.

End Store.

Arguments object F : clear implicits.
Arguments storeM F A : clear implicits.

(** * The tabular file

    [csv.DictWriter(f, fieldnames=csv_columns)] with the default dialect:
    fields separated by a comma, rows ended by carriage return and line
    feed, a field quoted only when it contains a comma, a quote or a line
    break ([QUOTE_MINIMAL]), quotes inside doubled.  Integers are written
    by [str] and floats by [repr]. *)

Definition comma : ascii := ","%char.
Definition double_quote : ascii := Ascii.ascii_of_nat 34.
Definition carriage_return : ascii := Ascii.ascii_of_nat 13.
Definition line_feed : ascii := Ascii.ascii_of_nat 10.

Definition is_special (c : ascii) : bool :=
  Ascii.eqb c comma || Ascii.eqb c double_quote
  || Ascii.eqb c carriage_return || Ascii.eqb c line_feed.

(** No character of the field calls for quoting. *)
Fixpoint plain (s : string) : bool :=
  match s with
  | EmptyString => true
  | String c s' => negb (is_special c) && plain s'
  end.

Fixpoint double_quotes (s : string) : string :=
  match s with
  | EmptyString => EmptyString
  | String c s' =>
      if Ascii.eqb c double_quote
      then String double_quote (String double_quote (double_quotes s'))
      else String c (double_quotes s')
  end.

Definition csv_field (s : string) : string :=
  if plain s then s
  else String double_quote (double_quotes s +:+ String double_quote EmptyString).

Fixpoint join_fields (fields : list string) : string :=
  match fields with
  | [] => EmptyString
  | [f] => f
  | f :: fs => f +:+ String comma (join_fields fs)
  end.

Definition line_end : string :=
  String carriage_return (String line_feed EmptyString).

(** [writer.writerow(fields)] *)
Definition csv_row (fields : list string) : string :=
  join_fields (csv_field <$> fields) +:+ line_end.

Definition csv_columns : list string :=
  ["frame"; "hand"; "wrist_x"; "wrist_y"; "wrist_z"; "num_landmarks"].

(** [str(n)] for an integer. *)
Definition py_str_int (z : Z) : string :=
  DecimalString.NilZero.string_of_int (Z.to_int z).

(** Modelled from the spec: the reader of an integer column, [int(s)]
    on what [str] writes. *)
Definition py_int (s : string) : option Z :=
  Z.of_int <$> DecimalString.NilZero.int_of_string s.

Fixpoint concat_strings (l : list string) : string :=
  match l with
  | [] => EmptyString
  | s :: l' => s +:+ concat_strings l'
  end.

(** Modelled from the spec: the reader's split of a row into its
    columns, at every comma. *)
Fixpoint split_fields (s : string) : list string :=
  match s with
  | EmptyString => [EmptyString]
  | String c s' =>
      if Ascii.eqb c comma then EmptyString :: split_fields s'
      else match split_fields s' with
           | f :: fs => String c f :: fs
           | [] => [String c EmptyString]
           end
  end.

(** Modelled from the spec: the reader's split of the file into rows,
    at every carriage return followed by a line feed. *)
Fixpoint split_rows (s : string) : list string :=
  match s with
  | EmptyString => [EmptyString]
  | String c s' =>
      match s' with
      | String c' s'' =>
          if Ascii.eqb c carriage_return && Ascii.eqb c' line_feed
          then EmptyString :: split_rows s''
          else match split_rows s' with
               | r :: rs => String c r :: rs
               | [] => [String c EmptyString]
               end
      | EmptyString => [String c EmptyString]
      end
  end.

(** The text has no carriage return. *)
Definition no_break (s : string) : bool :=
  (fix go s := match s with
               | EmptyString => true
               | String c s' => negb (Ascii.eqb c carriage_return) && go s'
               end) s.

Section Csv.
Context {F : Type}.
(** [repr(x)] and [float(s)] for a float. *)
Variable float_repr : F → string.
Variable float_of_string : string → option F.

(** [[rowdict[key] for key in fieldnames]], each cell as the writer
    converts it. *)
Definition row_of (d : detection F) : list string :=
  [ py_str_int (frame d); hand d;
    float_repr (wrist_x d); float_repr (wrist_y d); float_repr (wrist_z d);
    py_str_int (num_landmarks d) ].

(** [writer.writeheader(); writer.writerows(csv_data)] *)
Definition write_csv (csv_data : list (detection F)) : string :=
  csv_row csv_columns +:+ concat_strings (csv_row ∘ row_of <$> csv_data).

(** Modelled from the spec: the re-reading of the tabular file, which
    the script never does.  The file is a header row naming the six
    columns in their fixed order, then one row per record: frame (an
    integer), hand ([Left] or [Right]), x, y, z (floats), landmark count
    (an integer); every row is ended by a line break.  This is the reader
    of the hand column. *)
Definition read_hand (s : string) : option string :=
  if decide (s = "Left" ∨ s = "Right") then Some s else None.

(** Modelled from the spec: the reader of one row, six columns in the
    fixed order. *)
Definition read_row (fields : list string) : option (detection F) :=
  match fields with
  | [c_frame; c_hand; c_x; c_y; c_z; c_n] =>
      n_frame ← py_int c_frame;
      h ← read_hand c_hand;
      x ← float_of_string c_x;
      y ← float_of_string c_y;
      z ← float_of_string c_z;
      n ← py_int c_n;
      Some {| frame := n_frame; hand := h; wrist_x := x; wrist_y := y;
              wrist_z := z; num_landmarks := n |}
  | _ => None
  end.

(** Modelled from the spec: the reader of the rows below the header;
    the last piece, after the final line break, is empty. *)
Fixpoint read_rows (rows : list string) : option (list (detection F)) :=
  match rows with
  | [] => None
  | [last] => if decide (last = EmptyString) then Some [] else None
  | r :: rows' =>
      d ← read_row (split_fields r);
      ds ← read_rows rows';
      Some (d :: ds)
  end.

(** Modelled from the spec: the reader of the file, header row first. *)
Definition read_csv (text : string) : option (list (detection F)) :=
  match split_rows text with
  | header :: rows =>
      if decide (split_fields header = csv_columns) then read_rows rows else None
  | [] => None
  end.

(** A record the detector can produce: its label is one of the two
    hands. *)
Definition valid_record (d : detection F) : Prop :=
  hand d = "Left" ∨ hand d = "Right".

End Csv.

(** ** A float codec with the guarantee of [repr] and [float]

    Floats written as the decimal numeral of a code of their binary
    representation: not the digits [repr] prints, but a writer and a
    reader of binary64 floats with the same guarantee. *)

#[local] Instance spec_float_eq_dec : EqDecision SpecFloat.spec_float.
Proof. solve_decision. Defined.

Definition spec_float_to_sum (x : SpecFloat.spec_float)
    : bool + bool + unit + bool * positive * Z :=
  match x with
  | SpecFloat.S754_zero s => inl (inl (inl s))
  | SpecFloat.S754_infinity s => inl (inl (inr s))
  | SpecFloat.S754_nan => inl (inr ())
  | SpecFloat.S754_finite s m e => inr (s, m, e)
  end.

Definition spec_float_of_sum (x : bool + bool + unit + bool * positive * Z)
    : SpecFloat.spec_float :=
  match x with
  | inl (inl (inl s)) => SpecFloat.S754_zero s
  | inl (inl (inr s)) => SpecFloat.S754_infinity s
  | inl (inr _) => SpecFloat.S754_nan
  | inr (s, m, e) => SpecFloat.S754_finite s m e
  end.

#[local] Instance spec_float_countable : Countable SpecFloat.spec_float :=
  inj_countable' spec_float_to_sum spec_float_of_sum
    (λ x, match x with
          | SpecFloat.S754_zero _ | SpecFloat.S754_infinity _
          | SpecFloat.S754_nan | SpecFloat.S754_finite _ _ _ => eq_refl
          end).

Definition coded_repr (x : float) : string :=
  py_str_int (Z.pos (encode (FloatOps.Prim2SF x))).

Definition coded_float (s : string) : option float :=
  z ← py_int s;
  match z with
  | Z.pos p => FloatOps.SF2Prim <$> decode p
  | _ => None
  end.

(** ** Scenarios *)

(** Three detections of the left hand along a 3-4-5 triangle. *)
Definition scenario_345 : list (detection float) :=
  [ Detection 1 "Left" 0 0 0 21;
    Detection 2 "Left" 0.3 0.4 0 21;
    Detection 3 "Left" 0.3 0.4 0 21 ]%float.

Definition scenario_345_result : result (option (stats float)) :=
  Eval vm_compute in calculate_movement_stats scenario_345 30%float.

(** Both hands once, in frame 1. *)
Definition scenario_two_hands : list (detection float) :=
  [ Detection 1 "Left" 0.25 0.5 0 21;
    Detection 1 "Right" 0.75 0.5 0 21 ]%float.

(** The zig-zag: the left wrist moves 0.1 to the right, back, and to the
    right again. *)
Definition scenario_zigzag : list (detection float) :=
  [ Detection 1 "Left" 0 0.5 0 21;
    Detection 2 "Left" 0.1 0.5 0 21;
    Detection 3 "Left" 0 0.5 0 21;
    Detection 4 "Left" 0.1 0.5 0 21 ]%float.

Definition scenario_real : list (detection R) :=
  [ Detection 1 "Left" 0 0 0 21; Detection 2 "Left" 3 4 0 21 ]%R.

(** A hand at the centre of the frame, and a short video. *)
Definition sample_hand (label : string) : hand_landmarks float :=
  {| handedness := label;
     wrist := {| lm_x := 0.5; lm_y := 0.5; lm_z := 0 |}%float;
     other_landmarks := [] |}.

Definition sample_reads : list (read_result float) :=
  [ ReadFrame [sample_hand "Left"]; ReadFailed; ReadFrame [sample_hand "Right"] ].

(** A store with two detections of the left hand, the later one first. *)
Definition sample_records : list (detection float) :=
  [ Detection 2 "Left" 0.3 0.4 0 21; Detection 1 "Left" 0 0 0 21 ]%float.

Definition sample_store : gmap positive (object float) :=
  {[ 1%positive := ListObj [2%positive; 3%positive];
     2%positive := DictObj (Detection 2 "Left" 0.3 0.4 0 21)%float;
     3%positive := DictObj (Detection 1 "Left" 0 0 0 21)%float ]}.

(** * Around the statistics: what the tracking pass hands over *)

(** The frames the pass reads: those before the first failed read. *)
Fixpoint frames_read {F : Type} (reads : list (read_result F))
    : list (list (hand_landmarks F)) :=
  match reads with
  | ReadFrame hands :: rest => hands :: frames_read rest
  | _ => []
  end.

(** * The menu: the numbered list of videos *)

(** [l[i]] for any integer [i]: a negative index counts from the end. *)
Definition py_getitem {A} (l : list A) (i : Z) : result A :=
  let n := Z.of_nat (length l) in
  if (0 <=? i)%Z then py_index l (Z.to_nat i)
  else if (- n <=? i)%Z then py_index l (Z.to_nat (n + i))
  else raise IndexError.

(** [enumerate(existing_videos, 1)]: the rows of the table, each video
    beside its number. *)
Definition menu_rows (existing_videos : list string) : list (Z * string) :=
  imap (λ i v, (Z.of_nat i + 1, v)%Z) existing_videos.

(** The command [delete n], with [n] the integer
    [int(choice.split()[1])]: the video [existing_videos[n - 1]] is the
    one removed; an exception is answered by "Invalid delete command". *)
Definition vid_to_delete (n : Z) (existing_videos : list string) : result string :=
  py_getitem existing_videos (n - 1).

(** The choice of a video by its number, [n] being [int(choice)] for a
    choice made of digits:
    [1 <= int(choice) <= len(existing_videos)] guards the subscript;
    [None] when the guard fails and the next branch is tried. *)
Definition video_by_number (n : Z) (existing_videos : list string)
    : option (result string) :=
  if (1 <=? n)%Z && (n <=? Z.of_nat (length existing_videos))%Z
  then Some (py_getitem existing_videos (n - 1))
  else None.

(** * The playback windows, side by side *)

Definition screen_width : Z := 1920.

Record windows : Set := Windows {
  left_x : Z;
  left_y : Z;
  right_x : Z;
  right_y : Z;
}.

Definition window_positions (width : Z) : windows :=
  let total_width := (width * 2)%Z in
  let start_x := Z.max 0 ((screen_width - total_width) / 2) in
  {| left_x := start_x;
     left_y := 100;
     right_x := start_x + width;
     right_y := 100 |}.

(** * The old files of a video

    [os.listdir(folder)] is the list of the names in the folder;
    [os.remove] of a name deletes it from the folder or raises, which
    the [try] around it absorbs: whether it succeeds is [removable]. *)

(** [s.startswith(p)] and [s.endswith(p)] *)
Definition startswith (s p : string) : bool := String.prefix p s.

Definition endswith (s p : string) : bool :=
  (String.length p <=? String.length s)%nat
  && String.eqb
       (String.substring (String.length s - String.length p) (String.length p) s)
       p.

Section Cleaning.
Variable removable : string → bool.

(** [for file in found: try: os.remove(file); deleted_count += 1
    except Exception: ...] on the names of the folder. *)
Fixpoint remove_files (found : list string) (folder : list string)
    (deleted_count : nat) : nat * list string :=
  match found with
  | [] => (deleted_count, folder)
  | file :: found' =>
      if bool_decide (file ∈ folder) && removable file
      then remove_files found' (filter (λ f, f ≠ file) folder) (S deleted_count)
      else remove_files found' folder deleted_count
  end.

(** The result is [deleted_count] and what is left of [csv_folder]. *)
Definition clean_old_csv_files (base_name : string) (csv_folder : list string)
    : nat * list string :=
  let csv_files_found :=
    filter (λ f, startswith f base_name && endswith f "_hand_data.csv")
           csv_folder in
  remove_files csv_files_found csv_folder 0.

Definition report_patterns (base_name : string) : list string :=
  [ base_name +:+ "_3d_trajectory.html";
    base_name +:+ "_tracking_report.txt" ].

Definition clean_old_report_files (base_name : string)
    (reports_folder : list string) : nat * list string :=
  let report_files_found :=
    filter (λ f, f ∈ report_patterns base_name) reports_folder in
  remove_files report_files_found reports_folder 0.

End Cleaning.

(** The file the tracking pass writes for a video. *)
Definition csv_file (base_name : string) : string :=
  base_name +:+ "_hand_data.csv".

(** * The 3-D trajectory: what is handed to the plot *)

Section Trajectory.
Context {F : Type}.

(** The path of one hand: the coordinates and the frames of its
    records, sorted by frame. *)
Record hand_path : Type := HandPath {
  path_x : list F;
  path_y : list F;
  path_z : list F;
  path_frames : list Z;
}.

(** The diamond at the start of a path. *)
Record start_marker : Type := StartMarker {
  marker_x : F;
  marker_y : F;
  marker_z : F;
  marker_text : Z;
}.

Record figure : Type := Figure {
  left_path : option hand_path;
  right_path : option hand_path;
  left_start : option start_marker;
  right_start : option start_marker;
  left_count : nat;
  right_count : nat;
  total_frames : Z;
}.

(** [if hand_data: hand_data.sort(...); x = [...]; ...] *)
Definition path_of (hand_data : list (detection F)) : option hand_path :=
  match hand_data with
  | [] => None
  | _ =>
    let hand_data := sort_by_frame hand_data in
    Some {| path_x := wrist_x <$> hand_data;
            path_y := wrist_y <$> hand_data;
            path_z := wrist_z <$> hand_data;
            path_frames := frame <$> hand_data |}
  end.

(** [if hand_data: ... x=[x[0]], y=[y[0]], z=[z[0]], text=[frames[0]]] *)
Definition start_of (path : option hand_path) : result (option start_marker) :=
  match path with
  | None => ret None
  | Some p =>
    do x <- py_index (path_x p) 0;
    do y <- py_index (path_y p) 0;
    do z <- py_index (path_z p) 0;
    do t <- py_index (path_frames p) 0;
    ret (Some {| marker_x := x; marker_y := y; marker_z := z; marker_text := t |})
  end.

(** [None] is the early return on an empty [csv_data]. *)
Definition create_3d_trajectory (csv_data : list (detection F))
    : result (option figure) :=
  match csv_data with
  | [] => ret None
  | _ =>
    let left_data := filter (λ d, hand d = "Left") csv_data in
    let right_data := filter (λ d, hand d = "Right") csv_data in
    let left_path := path_of left_data in
    let right_path := path_of right_data in
    do left_start <- start_of left_path;
    do right_start <- start_of right_path;
    do total_frames <- py_max_int (frame <$> csv_data);
    ret (Some {| left_path := left_path;
                 right_path := right_path;
                 left_start := left_start;
                 right_start := right_start;
                 left_count := length left_data;
                 right_count := length right_data;
                 total_frames := total_frames |})
  end.

End Trajectory.

Arguments hand_path F : clear implicits.
Arguments start_marker F : clear implicits.
Arguments figure F : clear implicits.

(** The record a path starts from: none of the hand's records has a
    smaller frame number, and it is the first with its frame number. *)
Definition earliest_record {F : Type} (d : detection F)
    (hand_data : list (detection F)) : Prop :=
  (∀ e, e ∈ hand_data → (frame d ≤ frame e)%Z)
  ∧ head (filter (λ e, frame e = frame d) hand_data) = Some d.

Definition marks {F : Type} (m : start_marker F) (d : detection F) : Prop :=
  marker_x m = wrist_x d ∧ marker_y m = wrist_y d ∧ marker_z m = wrist_z d
  ∧ marker_text m = frame d.

(** The start marker of a hand, and its path, are those of its records. *)
Definition starts_at_earliest {F : Type} (start : option (start_marker F))
    (hand_data : list (detection F)) : Prop :=
  (start = None ↔ hand_data = [])
  ∧ ∀ m, start = Some m → ∃ d, earliest_record d hand_data ∧ marks m d.

(** The path plotted for a hand and the hand's entry in the statistics
    are there together, and the entry counts the points and the frames
    of the path. *)
Definition path_matches {F : Type} (path : option (hand_path F))
    (entry : option (hand_stats F)) : Prop :=
  match path, entry with
  | None, None => True
  | Some p, Some hs =>
      length (path_x p) = total_detections hs
      ∧ length (path_y p) = total_detections hs
      ∧ length (path_z p) = total_detections hs
      ∧ length (path_frames p) = total_detections hs
      ∧ size (list_to_set (path_frames p) : gset Z) = frames_active hs
      ∧ Sorted Z.le (path_frames p)
  | _, _ => False
  end.

(** * The report and the heat map

    Both convert floats to integers with [int], which truncates towards
    zero and raises [ValueError] for a NaN and [OverflowError] for an
    infinity: the exceptions of these two functions are those of the
    statistics and [OverflowError]. *)

Inductive exception : Set :=
  | Exn (e : exn)
  | OverflowError.

Definition outcome : Type → Type := sum exception.

#[export] Instance outcome_ret : MRet outcome := λ A a, inr a.
#[export] Instance outcome_bind : MBind outcome := λ A B k m,
  match m with
  | inl e => inl e
  | inr a => k a
  end.

(** A computation of the statistics, run inside these functions. *)
Definition lift {A} (r : result A) : outcome A :=
  match r with
  | inl e => inl (Exn e)
  | inr a => inr a
  end.

Fixpoint for_each {A B} (f : A → outcome B) (l : list A) : outcome (list B) :=
  match l with
  | [] => mret []
  | x :: l' => y ← f x; ys ← for_each f l'; mret (y :: ys)
  end.

(** [int(x)] for a float [x]. *)
Class Truncation (F : Type) : Type := {
  py_int_of_float : F → outcome Z;
}.

(** binary64: a finite float is [m * 2^e] with its sign. *)
Definition float_trunc (x : float) : outcome Z :=
  match FloatOps.Prim2SF x with
  | SpecFloat.S754_zero _ => inr 0%Z
  | SpecFloat.S754_infinity _ => inl OverflowError
  | SpecFloat.S754_nan => inl (Exn ValueError)
  | SpecFloat.S754_finite s m e =>
      let a := if (0 <=? e)%Z then (Z.pos m * 2 ^ e)%Z
               else (Z.pos m / 2 ^ (- e))%Z in
      inr (if s then (- a)%Z else a)
  end.

#[export] Instance float_Truncation : Truncation float := {|
  py_int_of_float := float_trunc;
|}.

(** The reals: towards zero, and nothing to raise. *)
Definition R_trunc (x : R) : Z :=
  if Rle_dec 0 x then Int_part x else (- Int_part (- x))%Z.

#[export] Instance R_Truncation : Truncation R := {|
  py_int_of_float x := inr (R_trunc x);
|}.

(** ** [generate_tracking_report]: the detection summary

    The numbers of the report: the frame total of the video section,
    the rows of the detection table shown on the console, and the lines
    of the detection summary written to the file.  The rest of the
    function formats values that are already computed. *)

Section Report.
Context {F : Type} `{Number F} `{Truncation F}.

Record detection_row : Type := DetectionRow {
  row_hand : string;
  row_detections : nat;
  row_active_frames : nat;
  row_rate : F;
}.

Record report : Type := Report {
  shown_total_frames : Z;
  detection_table : list detection_row;
  written_total_frames : Z;
  written_summary : list detection_row;
}.

(** [for hand in ['left', 'right']: if hand in stats and
    'total_detections' in stats[hand]], with [hand.title()]. *)
Definition present_hands (r : option (stats F)) : list (string * hand_stats F) :=
  match r with
  | None => []
  | Some st =>
      match left st with Some hs => [("Left", hs)] | None => [] end
      ++ match right st with Some hs => [("Right", hs)] | None => [] end
  end.

(** [active_frames / total_frames * 100], two integers divided. *)
Definition percentage (active_frames : nat) (total_frames : Z) : result F :=
  do q <- py_div_int (of_int (Z.of_nat active_frames)) total_frames;
  ret (mul q (of_int 100)).

(** The console table guards the division. *)
Definition table_row (total_frames : Z) (h : string * hand_stats F)
    : outcome detection_row :=
  detection_rate ← lift (if (0 <? total_frames)%Z
                         then percentage (frames_active h.2) total_frames
                         else ret zero);
  mret {| row_hand := h.1;
          row_detections := total_detections h.2;
          row_active_frames := frames_active h.2;
          row_rate := detection_rate |}.

(** The file does not. *)
Definition written_row (total_frames : Z) (h : string * hand_stats F)
    : outcome detection_row :=
  detection_rate ← lift (percentage (frames_active h.2) total_frames);
  mret {| row_hand := h.1;
          row_detections := total_detections h.2;
          row_active_frames := frames_active h.2;
          row_rate := detection_rate |}.

(** [None] is the early return on an empty [csv_data]. *)
Definition generate_tracking_report (csv_data : list (detection F))
    (fps duration_sec : F) : outcome (option report) :=
  match csv_data with
  | [] => mret None
  | _ =>
    stats ← lift (calculate_movement_stats csv_data fps);
    shown ← py_int_of_float (mul duration_sec fps);
    total_frames ← py_int_of_float (mul duration_sec fps);
    table ← for_each (table_row total_frames) (present_hands stats);
    written ← py_int_of_float (mul duration_sec fps);
    summary ← for_each (written_row total_frames) (present_hands stats);
    mret (Some {| shown_total_frames := shown;
                  detection_table := table;
                  written_total_frames := written;
                  written_summary := summary |})
  end.

(** The row of a hand with a given rate, and the percentage of a frame
    total that the hand's active frames make. *)
Definition row_with (rate : hand_stats F → F) (h : string * hand_stats F)
    : detection_row :=
  {| row_hand := h.1;
     row_detections := total_detections h.2;
     row_active_frames := frames_active h.2;
     row_rate := rate h.2 |}.

Definition rate_of (total_frames : Z) (hs : hand_stats F) : F :=
  mul (fdiv (of_int (Z.of_nat (frames_active hs))) (of_int total_frames))
      (of_int 100).

End Report.

Arguments detection_row F : clear implicits.
Arguments report F : clear implicits.

(** [duration_sec = total_frames / fps] of the main script, an integer
    divided by a float. *)
Definition main_duration_sec {F : Type} `{Number F} (total_frames : Z) (fps : F)
    : result F :=
  py_div (of_int total_frames) fps.

(** [duration_sec = frame_count / fps if fps else 0] of
    [get_video_info]. *)
Definition info_duration_sec {F : Type} `{Number F} (frame_count fps : F) : F :=
  if eqb fps zero then zero else fdiv frame_count fps.

(** ** [create_ascii_heatmap]

    The grid is a [numpy] array of [grid_height] rows of [grid_width]
    floats.  A subscript of an array counts from the end when it is
    negative and raises [IndexError] outside the array. *)

Definition grid_width : Z := 80.
Definition grid_height : Z := 25.

(** The six symbols, by code point, and their colours. *)
Definition chars : list N := [32; 183; 9617; 9618; 9619; 9608]%N.
Definition colors : list string :=
  ["black"; "dim blue"; "blue"; "cyan"; "yellow"; "red"].

Definition np_subscript (n : nat) (i : Z) : result nat :=
  if (0 <=? i)%Z && (i <? Z.of_nat n)%Z then ret (Z.to_nat i)
  else if (- Z.of_nat n <=? i)%Z && (i <? 0)%Z then ret (Z.to_nat (Z.of_nat n + i))
  else raise IndexError.

Section Heatmap.
Context {F : Type} `{Number F} `{Truncation F}.

(** [np.zeros((rows, cols))] *)
Definition np_zeros (rows cols : Z) : list (list F) :=
  replicate (Z.to_nat rows) (replicate (Z.to_nat cols) zero).

(** [a[i][j] += w] *)
Definition np_add_at (a : list (list F)) (i j : Z) (w : F)
    : result (list (list F)) :=
  do i' <- np_subscript (length a) i;
  do row <- py_index a i';
  do j' <- np_subscript (length row) j;
  do x <- py_index row j';
  ret (<[i' := <[j' := add x w]> row]> a).

(** [1.5 if entry['hand'] == 'Right' else 1.0]; three halves are a
    binary64 number. *)
Definition weight_of (entry : detection F) : F :=
  if decide (hand entry = "Right") then fdiv (of_int 3) (of_int 2)
  else of_int 1.

(** The body of [for entry in csv_data]. *)
Definition heatmap_step (heatmap : list (list F)) (entry : detection F)
    : outcome (list (list F)) :=
  grid_x ← py_int_of_float (mul (wrist_x entry) (of_int (grid_width - 1)));
  grid_y ← py_int_of_float (mul (wrist_y entry) (of_int (grid_height - 1)));
  let grid_x := Z.max 0 (Z.min (grid_width - 1) grid_x) in
  let grid_y := Z.max 0 (Z.min (grid_height - 1) grid_y) in
  lift (np_add_at heatmap grid_y grid_x (weight_of entry)).

Fixpoint heatmap_loop (csv_data : list (detection F)) (heatmap : list (list F))
    : outcome (list (list F)) :=
  match csv_data with
  | [] => mret heatmap
  | entry :: csv_data' =>
      heatmap' ← heatmap_step heatmap entry; heatmap_loop csv_data' heatmap'
  end.

(** [if heatmap.max() > 0: heatmap = heatmap / heatmap.max()] *)
Definition normalize (heatmap : list (list F)) : result (list (list F)) :=
  do m <- py_max (concat heatmap);
  if ltb zero m then ret ((λ row : list F, (λ x, fdiv x m) <$> row) <$> heatmap)
  else ret heatmap.

(** The symbol and the colour of a cell. *)
Definition cell_style (val : F) : outcome (N * string) :=
  char_idx ← py_int_of_float (mul val (of_int (Z.of_nat (length chars) - 1)));
  char ← lift (py_getitem chars char_idx);
  color ← lift (py_getitem colors char_idx);
  mret (char, color).

(** [np.count_nonzero(heatmap)] *)
Definition count_nonzero (heatmap : list (list F)) : nat :=
  length (filter (λ x, eqb x zero = false) (concat heatmap)).

(** [f"{n} ({n/total*100:.1f}%)" if total > 0 else "0"]: the
    percentage shown beside a count, if any. *)
Definition share (n total : nat) : result (option F) :=
  if (0 <? Z.of_nat total)%Z
  then do p <- percentage n (Z.of_nat total); ret (Some p)
  else ret None.

Record heatmap_display : Type := HeatmapDisplay {
  cells : list (list (N * string));
  shown_detections : nat;
  shown_left : nat * option F;
  shown_right : nat * option F;
  coverage : F;
}.

(** [None] is the early return on an empty [csv_data]. *)
Definition create_ascii_heatmap (csv_data : list (detection F))
    : outcome (option heatmap_display) :=
  match csv_data with
  | [] => mret None
  | _ =>
    let heatmap := np_zeros grid_height grid_width in
    let left_data := filter (λ d, hand d = "Left") csv_data in
    let right_data := filter (λ d, hand d = "Right") csv_data in
    heatmap ← heatmap_loop csv_data heatmap;
    heatmap ← lift (normalize heatmap);
    rows ← for_each (for_each cell_style) heatmap;
    let total_detections := length csv_data in
    let left_detections := length left_data in
    let right_detections := length right_data in
    coverage ← lift (percentage (count_nonzero heatmap)
                                (Z.of_nat (length (concat heatmap))));
    left_share ← lift (share left_detections total_detections);
    right_share ← lift (share right_detections total_detections);
    mret (Some {| cells := rows;
                  shown_detections := total_detections;
                  shown_left := (left_detections, left_share);
                  shown_right := (right_detections, right_share);
                  coverage := coverage |})
  end.

(** The grid has [grid_height] rows of [grid_width] cells. *)
Definition grid_shaped {A} (heatmap : list (list A)) : Prop :=
  length heatmap = Z.to_nat grid_height
  ∧ Forall (λ row, length row = Z.to_nat grid_width) heatmap.

End Heatmap.

Arguments heatmap_display F : clear implicits.

(** The cells of a grid of reals are not negative; one of them is
    positive. *)
Definition nonneg_grid (g : list (list R)) : Prop :=
  Forall (Forall (λ x, 0 <= x)%R) g.

Definition positive_cell (g : list (list R)) : Prop :=
  ∃ row x, row ∈ g ∧ x ∈ row ∧ (0 < x)%R.

(** * The URL cache

    [url_cache.txt] holds one line [url|||filename] per downloaded
    video.  Its text is a string of 8-bit characters, line ends being
    line feeds, as the text layer hands them over; the white space of
    [str.strip] is that of ASCII. *)

Definition bar : ascii := "|"%char.

(** [c.isspace()]: tab to carriage return, the four separators, and the
    space. *)
Definition py_isspace (c : ascii) : bool :=
  let n := Ascii.nat_of_ascii c in
  ((9 <=? n) && (n <=? 13) || (28 <=? n) && (n <=? 32))%nat.

Fixpoint py_lstrip (s : string) : string :=
  match s with
  | EmptyString => EmptyString
  | String c s' => if py_isspace c then py_lstrip s' else s
  end.

Fixpoint py_rstrip (s : string) : string :=
  match s with
  | EmptyString => EmptyString
  | String c s' =>
      match py_rstrip s' with
      | EmptyString => if py_isspace c then EmptyString else String c EmptyString
      | r => String c r
      end
  end.

(** [s.strip()] *)
Definition py_strip (s : string) : string := py_rstrip (py_lstrip s).

(** [s.split("|||")]: cut at each occurrence of the separator, found
    from the left. *)
Fixpoint split_bars (s : string) : list string :=
  match s with
  | EmptyString => [EmptyString]
  | String c s' =>
      let keep :=
        match split_bars s' with
        | part :: parts => String c part :: parts
        | [] => [String c EmptyString]
        end in
      match s' with
      | String c2 (String c3 rest) =>
          if Ascii.eqb c bar && Ascii.eqb c2 bar && Ascii.eqb c3 bar
          then EmptyString :: split_bars rest
          else keep
      | _ => keep
      end
  end.

(** [for line in f]: the lines of the text, each with its line feed,
    the last one possibly without. *)
Fixpoint file_lines (text : string) : list string :=
  match text with
  | EmptyString => []
  | String c text' =>
      if Ascii.eqb c line_feed then String c EmptyString :: file_lines text'
      else match file_lines text' with
           | line :: lines => String c line :: lines
           | [] => [String c EmptyString]
           end
  end.

(** The body of the loop that fills [url_cache]; the unpacking of
    [line.split("|||")] into two names raises [ValueError] unless there
    are two parts. *)
Definition load_line (url_cache : gmap string string) (line : string)
    : result (gmap string string) :=
  let line := py_strip line in
  if decide (line = EmptyString) then ret url_cache
  else match split_bars line with
       | [url; filename] => ret (<[url := filename]> url_cache)
       | _ => raise ValueError
       end.

Definition load_cache (text : string) : result (gmap string string) :=
  foldM load_line (file_lines text) ∅.

(** [f.write(f"{url}|||{output_name}\n")] *)
Definition cache_line (url output_name : string) : string :=
  url +:+ "|||" +:+ output_name +:+ String line_feed EmptyString.

(** No character of the text is a bar or ends a line. *)
Fixpoint no_bar_or_break (s : string) : bool :=
  match s with
  | EmptyString => true
  | String c s' =>
      negb (Ascii.eqb c bar) && negb (Ascii.eqb c line_feed)
      && negb (Ascii.eqb c carriage_return) && no_bar_or_break s'
  end.

Fixpoint no_line_feed (s : string) : bool :=
  match s with
  | EmptyString => true
  | String c s' => negb (Ascii.eqb c line_feed) && no_line_feed s'
  end.

(** The text has no white space at either end, as what [strip] returns,
    and neither a bar nor a line end. *)
Definition cache_safe (s : string) : Prop :=
  no_bar_or_break s = true ∧ py_lstrip s = s ∧ py_rstrip s = s.

(** The file is empty or its last line is ended. *)
Definition ends_lines (text : string) : Prop :=
  text = EmptyString ∨ ∃ t, text = t +:+ String line_feed EmptyString.

(** * The script, from the opening of the video to the report

    [fps] and [total_frames] are what the capture reports; the duration
    is computed before the tracking pass; the heat map, the trajectory
    and the report follow it, on the records of the pass. *)

Definition process_video {F : Type} `{Number F} `{Truncation F}
    (fps : F) (total_frames : Z) (is_opened : bool)
    (reads : list (read_result F)) : outcome (option (report F)) :=
  duration_sec ← lift (main_duration_sec total_frames fps);
  let csv_data := csv_data (tracking_pass is_opened reads) in
  _ ← create_ascii_heatmap csv_data;
  _ ← lift (create_3d_trajectory csv_data);
  generate_tracking_report csv_data fps duration_sec.

(** * Proofs *)

(** ** The sort *)

Section Sorting.
Context {F : Type}.
Implicit Types (d e : detection F) (l : list (detection F)).

Lemma insert_by_frame_perm d l : insert_by_frame d l ≡ₚ d :: l.
Proof.
  induction l as [|e l IH]; simpl; [done|].
  case_match; [done|]. rewrite IH. apply Permutation_swap.
Qed.

Lemma sort_by_frame_perm l : sort_by_frame l ≡ₚ l.
Proof.
  induction l as [|d l IH]; simpl; [done|].
  rewrite insert_by_frame_perm. by rewrite IH.
Qed.

Lemma sort_by_frame_length l : length (sort_by_frame l) = length l.
Proof. by rewrite sort_by_frame_perm. Qed.

Lemma insert_by_frame_sorted d l :
  Sorted frame_le l → Sorted frame_le (insert_by_frame d l).
Proof.
  induction 1 as [|e l Hl IH Hhd]; simpl.
  - repeat constructor.
  - destruct (Z.leb_spec (frame d) (frame e)).
    + repeat constructor; done.
    + constructor; [done|].
      destruct Hhd as [|e' l' Hee']; simpl.
      * constructor. unfold frame_le. lia.
      * case_match; constructor; unfold frame_le in *; lia.
Qed.

Lemma sort_by_frame_sorted l : Sorted frame_le (sort_by_frame l).
Proof.
  induction l; simpl; [constructor|]. by apply insert_by_frame_sorted.
Qed.

(** Stability: records of one frame keep their order. *)
Lemma insert_by_frame_stable (k : Z) d l :
  filter (λ e, frame e = k) (insert_by_frame d l)
  = filter (λ e, frame e = k) (d :: l).
Proof.
  induction l as [|e l IH]; simpl; [done|].
  destruct (Z.leb_spec (frame d) (frame e)); [done|].
  rewrite filter_cons, IH, !filter_cons.
  repeat case_decide; try done; lia.
Qed.

Lemma sort_by_frame_stable (k : Z) l :
  filter (λ e, frame e = k) (sort_by_frame l) = filter (λ e, frame e = k) l.
Proof.
  induction l as [|d l IH]; simpl; [done|].
  rewrite insert_by_frame_stable, !filter_cons, IH. done.
Qed.

Lemma sort_by_frame_nil_inv l : sort_by_frame l = [] → l = [].
Proof.
  intros Hs. apply Permutation_nil_r. rewrite <- Hs.
  symmetry. apply sort_by_frame_perm.
Qed.

End Sorting.

(** ** Sets of frame numbers *)

Section FrameSets.
Implicit Types (l : list Z).

Lemma size_frames_cons_in (x : Z) l :
  x ∈ l → size (list_to_set (x :: l) : gset Z) = size (list_to_set l : gset Z).
Proof.
  intros Hx. f_equal. rewrite list_to_set_cons.
  apply set_eq. intros y.
  rewrite elem_of_union, elem_of_singleton, !elem_of_list_to_set.
  split; [intros [->|Hy]; done | auto].
Qed.

Lemma size_frames_cons_notin (x : Z) l :
  x ∉ l → size (list_to_set (x :: l) : gset Z) = S (size (list_to_set l : gset Z)).
Proof.
  intros Hx. rewrite list_to_set_cons, size_union, size_singleton; [done|].
  apply disjoint_singleton_l. by rewrite elem_of_list_to_set.
Qed.

Lemma size_frames_le l : size (list_to_set l : gset Z) ≤ length l.
Proof.
  induction l as [|x l IH]; [done|].
  destruct (decide (x ∈ l)).
  - rewrite size_frames_cons_in by done. simpl. lia.
  - rewrite size_frames_cons_notin by done. simpl. lia.
Qed.

Lemma size_frames_eq_NoDup l :
  size (list_to_set l : gset Z) = length l ↔ NoDup l.
Proof.
  split; [|apply size_list_to_set].
  induction l as [|x l IH]; [constructor|].
  destruct (decide (x ∈ l)).
  - rewrite size_frames_cons_in by done. simpl.
    pose proof (size_frames_le l). lia.
  - rewrite size_frames_cons_notin by done. simpl. intros.
    constructor; [done|]. apply IH. lia.
Qed.

Lemma size_frames_perm l l' :
  l ≡ₚ l' → size (list_to_set l : gset Z) = size (list_to_set l' : gset Z).
Proof.
  intros Hp. f_equal. apply set_eq. intros y.
  rewrite !elem_of_list_to_set. by rewrite Hp.
Qed.

End FrameSets.

(** ** The error monad *)

Lemma bind_inr {A B} (m : result A) (k : A → result B) (b : B) :
  bind m k = inr b → ∃ a, m = inr a ∧ k a = inr b.
Proof. destruct m as [e|a]; simpl; [done|]. eauto. Qed.

Lemma bind_ret_l {A B} (a : A) (k : A → result B) : bind (ret a) k = k a.
Proof. done. Qed.

Lemma bind_inr_l {A B} (a : A) (k : A → result B) : bind (inr a) k = k a.
Proof. done. Qed.

(** Split a successful chain of binds into its successful steps. *)
Ltac inv_bind H :=
  repeat match type of H with
  | bind _ _ = inr _ =>
      let a := fresh "a" in
      let Ha := fresh "Ha" in
      apply bind_inr in H as (a & Ha & H)
  | (let '(_, _) := ?p in _) = inr _ => destruct p
  end.

(** ** The movement loop, frame by frame *)

Section MovementLoop.
Context {F : Type} `{Number F}.
Implicit Types (d p c : detection F) (l pre rest : list (detection F)).
Implicit Types (fps : F) (acc : list F * list F).

Lemma py_index_middle {A} (xs : list A) (x : A) (ys : list A) :
  py_index (xs ++ x :: ys) (length xs) = ret x.
Proof. unfold py_index. by rewrite list_lookup_middle. Qed.

Lemma foldM_movement_step fps pre p rest acc :
  foldM (movement_step (pre ++ p :: rest) fps)
        (seq (S (length pre)) (length rest)) acc
  = walk fps p rest acc.
Proof.
  revert pre p acc. induction rest as [|c rest IH]; intros pre p acc; [done|].
  simpl. unfold movement_step at 1.
  replace (S (length pre) - 1) with (length pre) by lia.
  rewrite py_index_middle, bind_ret_l.
  replace (S (length pre)) with (length (pre ++ [p]))
    by (rewrite length_app; simpl; lia).
  replace (pre ++ p :: c :: rest) with ((pre ++ [p]) ++ c :: rest)
    by (by rewrite <- app_assoc).
  rewrite py_index_middle, bind_ret_l.
  destruct (pair_step fps acc p c) as [e|acc']; simpl; [done|].
  specialize (IH (pre ++ [p]) c acc').
  exact IH.
Qed.

Lemma movement_loop_walk fps p rest :
  movement_loop (p :: rest) fps = walk fps p rest ([], []).
Proof.
  unfold movement_loop. simpl. rewrite Nat.sub_0_r.
  apply (foldM_movement_step fps [] p rest).
Qed.

Lemma movement_loop_nil fps : movement_loop [] fps = ret ([], []).
Proof. done. Qed.

(** Whatever the walk returns is the two specified series. *)
Lemma walk_inr fps p rest ds ss ds' ss' :
  walk fps p rest (ds, ss) = inr (ds', ss') →
  ds' = ds ++ consecutive_distances (p :: rest)
  ∧ ss' = ss ++ consecutive_speeds fps (p :: rest).
Proof.
  revert p ds ss. induction rest as [|c rest IH]; intros p ds ss; simpl.
  - intros [= <- <-]. unfold consecutive_distances. simpl.
    by rewrite !app_nil_r.
  - intros Hw. apply bind_inr in Hw as ([ds1 ss1] & Hstep & Hw).
    apply IH in Hw as [-> ->]. unfold pair_step in Hstep.
    unfold consecutive_distances in *. simpl.
    destruct ((0 <? frame c - frame p)%Z && ltb zero fps).
    + inv_bind Hstep. unfold py_div in Ha, Ha0.
      destruct (eqb fps zero); [done|]. injection Ha as <-.
      destruct (eqb _ zero); [done|]. injection Ha0 as <-.
      injection Hstep as <- <-. by rewrite <- !app_assoc.
    + injection Hstep as <- <-. by rewrite <- !app_assoc.
Qed.

(** Without a positive frame rate no step has a speed: nothing is
    divided and the walk returns. *)
Lemma walk_no_rate fps p rest ds ss :
  ltb zero fps = false →
  walk fps p rest (ds, ss) = inr (ds ++ consecutive_distances (p :: rest), ss).
Proof.
  intros Hfps. revert p ds. induction rest as [|c rest IH]; intros p ds; simpl.
  - unfold consecutive_distances. simpl. by rewrite app_nil_r.
  - rewrite Hfps, andb_false_r. simpl.
    rewrite IH. unfold consecutive_distances. simpl.
    by rewrite <- app_assoc.
Qed.

Lemma consecutive_speeds_no_rate fps l :
  ltb zero fps = false → consecutive_speeds fps l = [].
Proof.
  intros Hfps. induction l as [|p l IH]; [done|].
  destruct l as [|c l]; [done|].
  change (consecutive_speeds fps (p :: c :: l)) with
    (if (0 <? frame c - frame p)%Z && ltb zero fps
     then fdiv (distance3 p c) (fdiv (of_int (frame c - frame p)) fps)
            :: consecutive_speeds fps (c :: l)
     else consecutive_speeds fps (c :: l)).
  by rewrite Hfps, andb_false_r.
Qed.

Lemma movement_loop_inr fps l ds ss :
  movement_loop l fps = inr (ds, ss) →
  ds = consecutive_distances l ∧ ss = consecutive_speeds fps l.
Proof.
  destruct l as [|p rest].
  - by intros [= <- <-].
  - rewrite movement_loop_walk. intros Hw. by apply walk_inr in Hw.
Qed.

Lemma movement_loop_no_rate fps l :
  ltb zero fps = false →
  movement_loop l fps = inr (consecutive_distances l, []).
Proof.
  intros Hfps. destruct l as [|p rest]; [done|].
  rewrite movement_loop_walk. by apply walk_no_rate.
Qed.

End MovementLoop.

(** ** The statistics blocks return, and what they return *)

Section Blocks.
Context {F : Type} `{Number F}.
Implicit Types (x : F) (ds ss xs : list F) (hd : list (detection F)).

Lemma py_div_int_inr x (n : Z) :
  n ≠ 0%Z → py_div_int x n = inr (fdiv x (of_int n)).
Proof.
  intros Hn. unfold py_div_int. by destruct (Z.eqb_spec n 0).
Qed.

Lemma np_std_inr xs : xs ≠ [] → np_std xs = inr (deviation xs).
Proof.
  intros Hxs. unfold np_std.
  assert (Z.of_nat (length xs) ≠ 0%Z) by (destruct xs; [done|simpl; lia]).
  rewrite py_div_int_inr by done. simpl bind.
  by rewrite py_div_int_inr by done.
Qed.

Lemma distance_statistics_inr ds :
  distance_statistics ds = inr (distance_summary ds).
Proof.
  destruct ds as [|d ds]; [done|]. unfold distance_statistics.
  rewrite py_div_int_inr by (simpl; lia). done.
Qed.

Lemma speed_statistics_inr ss :
  speed_statistics ss = inr (speed_summary ss).
Proof.
  destruct ss as [|s ss]; [done|]. unfold speed_statistics.
  rewrite py_div_int_inr by (simpl; lia). simpl bind.
  unfold speed_summary, mean. simpl length.
  destruct (decide (1 < S (length ss))); [|done]. by rewrite np_std_inr.
Qed.

Lemma range_of_inr xs : range_of xs = inr (range_summary xs).
Proof. by destruct xs. Qed.

Lemma mean_of_inr xs : mean_of xs = inr (mean_summary xs).
Proof.
  destruct xs as [|x xs]; [done|]. unfold mean_of.
  by rewrite py_div_int_inr by (simpl; lia).
Qed.

Lemma position_statistics_inr hd :
  position_statistics hd = inr (position_summary hd).
Proof.
  unfold position_statistics.
  repeat (rewrite ?range_of_inr, ?mean_of_inr; simpl bind). done.
Qed.

Lemma hand_statistics_nil csv_data fps hand_type :
  hand_subset csv_data hand_type = [] →
  hand_statistics csv_data fps hand_type = inr None.
Proof. unfold hand_statistics, hand_subset. by intros ->. Qed.

(** Past the movement loop the body of the hand loop cannot fail. *)
Lemma hand_statistics_cons csv_data fps hand_type :
  hand_subset csv_data hand_type ≠ [] →
  hand_statistics csv_data fps hand_type
  = do acc <- movement_loop (sort_by_frame (hand_subset csv_data hand_type)) fps;
    ret (Some (hand_summary (sort_by_frame (hand_subset csv_data hand_type))
                            acc.1 acc.2)).
Proof.
  unfold hand_statistics, hand_subset, hand_body. intros Hne.
  destruct (filter _ csv_data) as [|d0 l0] eqn:Hf; [done|].
  destruct (movement_loop _ fps) as [e|[ds ss]]; [done|]. simpl bind.
  rewrite distance_statistics_inr, speed_statistics_inr,
    position_statistics_inr.
  unfold hand_summary. simpl.
  destruct (distance_summary ds) as [[[? ?] ?] ?].
  destruct (speed_summary ss) as [[[? ?] ?] ?]. done.
Qed.

(** A returned dictionary of a hand is the summary of the specified
    series. *)
Lemma hand_statistics_inr csv_data fps hand_type hs :
  hand_statistics csv_data fps hand_type = inr (Some hs) →
  hand_subset csv_data hand_type ≠ []
  ∧ hs = let hd := sort_by_frame (hand_subset csv_data hand_type) in
         hand_summary hd (consecutive_distances hd) (consecutive_speeds fps hd).
Proof.
  intros Hs. destruct (decide (hand_subset csv_data hand_type = [])) as [Hnil|Hne].
  - by rewrite hand_statistics_nil in Hs.
  - split; [done|]. rewrite hand_statistics_cons in Hs by done.
    apply bind_inr in Hs as ([ds ss] & Hloop & Hs).
    apply movement_loop_inr in Hloop as [-> ->]. by injection Hs as <-.
Qed.

Lemma hand_statistics_None csv_data fps hand_type :
  hand_statistics csv_data fps hand_type = inr None →
  hand_subset csv_data hand_type = [].
Proof.
  intros Hs. destruct (decide (hand_subset csv_data hand_type = [])) as [|Hne]; [done|].
  rewrite hand_statistics_cons in Hs by done.
  by apply bind_inr in Hs as (? & _ & ?).
Qed.

Lemma combined_statistics_inr all_data :
  combined_statistics all_data = inr (combined_summary all_data).
Proof.
  destruct all_data as [|d l]; [done|].
  unfold combined_statistics, combined_summary.
  rewrite fmap_cons. unfold py_max_int. rewrite bind_ret_l.
  destruct (Z.ltb_spec 0 (max_int_from (frame d) (frame <$> l))); [|done].
  by rewrite py_div_int_inr by lia.
Qed.

(** The whole function returns exactly when the two movement loops do. *)
Lemma calculate_movement_stats_inr csv_data fps st :
  calculate_movement_stats csv_data fps = inr (Some st) →
  csv_data ≠ []
  ∧ hand_statistics csv_data fps "Left" = inr (left st)
  ∧ hand_statistics csv_data fps "Right" = inr (right st)
  ∧ combined st = combined_summary csv_data.
Proof.
  destruct csv_data as [|d l]; [done|]. unfold calculate_movement_stats.
  intros Hs. inv_bind Hs. rewrite combined_statistics_inr in Ha1.
  injection Ha1 as <-. injection Hs as <-. done.
Qed.

Lemma calculate_movement_stats_nil fps :
  calculate_movement_stats (F:=F) [] fps = inr None.
Proof. done. Qed.

Lemma calculate_movement_stats_None csv_data fps :
  calculate_movement_stats csv_data fps = inr None → csv_data = [].
Proof.
  destruct csv_data as [|d l]; [done|]. unfold calculate_movement_stats.
  intros Hs. inv_bind Hs. done.
Qed.

Lemma hand_entry_inr csv_data fps st hand_type hs :
  calculate_movement_stats csv_data fps = inr (Some st) →
  hand_entry st hand_type = Some hs →
  hand_statistics csv_data fps hand_type = inr (Some hs).
Proof.
  intros (_ & Hl & Hr & _)%calculate_movement_stats_inr. unfold hand_entry.
  repeat case_decide; subst; try done; by intros <-.
Qed.

End Blocks.

(** ** The aggregate as a function of the records and the frame rate *)

Section Aggregate.
Context {F : Type} `{Number F}.
Implicit Types (csv_data : list (detection F)) (fps : F).

(** Whatever [hand_statistics] returns is the aggregate of the hand. *)
Lemma hand_statistics_aggregate csv_data fps hand_type r :
  hand_statistics csv_data fps hand_type = inr r →
  r = hand_aggregate csv_data fps hand_type.
Proof.
  intros Hs. unfold hand_aggregate, sorted_subset. destruct r as [hs|].
  - apply hand_statistics_inr in Hs as [Hne ->].
    by destruct (hand_subset csv_data hand_type).
  - apply hand_statistics_None in Hs. by rewrite Hs.
Qed.

(** Whatever [calculate_movement_stats] returns is the aggregate. *)
Lemma calculate_movement_stats_aggregate csv_data fps r :
  calculate_movement_stats csv_data fps = inr r → r = aggregate csv_data fps.
Proof.
  intros Hs. destruct r as [st|].
  - apply calculate_movement_stats_inr in Hs as (Hne & Hl & Hr & Hc).
    apply hand_statistics_aggregate in Hl, Hr.
    destruct csv_data; [done|]. destruct st as [l r c]. simpl in *.
    by subst.
  - apply calculate_movement_stats_None in Hs. by subst.
Qed.

(** It returns as soon as the two movement loops do. *)
Lemma hand_statistics_returns csv_data fps hand_type acc :
  movement_loop (sorted_subset csv_data hand_type) fps = inr acc →
  hand_statistics csv_data fps hand_type
  = inr (hand_aggregate csv_data fps hand_type).
Proof.
  intros Hloop.
  destruct (decide (hand_subset csv_data hand_type = [])) as [Hnil|Hne].
  - rewrite hand_statistics_nil by done. unfold hand_aggregate. by rewrite Hnil.
  - assert (∃ r, hand_statistics csv_data fps hand_type = inr r) as [r Hr].
    { rewrite hand_statistics_cons by done. unfold sorted_subset in Hloop.
      rewrite Hloop. simpl. eauto. }
    rewrite Hr. f_equal. by apply hand_statistics_aggregate.
Qed.

Lemma calculate_movement_stats_returns csv_data fps accl accr :
  movement_loop (sorted_subset csv_data "Left") fps = inr accl →
  movement_loop (sorted_subset csv_data "Right") fps = inr accr →
  calculate_movement_stats csv_data fps = inr (aggregate csv_data fps).
Proof.
  intros Hl Hr. destruct csv_data as [|d l]; [done|].
  unfold calculate_movement_stats.
  rewrite (hand_statistics_returns _ _ _ _ Hl), (hand_statistics_returns _ _ _ _ Hr).
  rewrite !bind_inr_l. by rewrite combined_statistics_inr.
Qed.

(** Without a positive frame rate nothing is divided by the rate. *)
Lemma calculate_movement_stats_no_rate csv_data fps :
  ltb zero fps = false →
  calculate_movement_stats csv_data fps = inr (aggregate csv_data fps).
Proof.
  intros Hfps.
  eapply calculate_movement_stats_returns; by apply movement_loop_no_rate.
Qed.

Lemma hand_entry_aggregate csv_data fps st hand_type :
  aggregate csv_data fps = Some st →
  hand_type = "Left" ∨ hand_type = "Right" →
  hand_entry st hand_type = hand_aggregate csv_data fps hand_type.
Proof.
  unfold aggregate. destruct csv_data; [done|]. intros [= <-].
  unfold hand_entry. intros [-> | ->]; simpl; done.
Qed.

Lemma hand_entry_Some_label (st : stats F) hand_type hs :
  hand_entry st hand_type = Some hs →
  hand_type = "Left" ∨ hand_type = "Right".
Proof. unfold hand_entry. repeat case_decide; auto; done. Qed.

End Aggregate.

(** ** The maximum frame number *)

Lemma max_int_from_ge (x : Z) (l : list Z) : (x ≤ max_int_from x l)%Z.
Proof.
  revert x. induction l as [|y l IH]; intros x; simpl; [done|].
  destruct (Z.ltb_spec x y); etrans; [|apply IH| |apply IH]; lia.
Qed.

Lemma max_int_from_upper (x : Z) (l : list Z) (y : Z) :
  y ∈ x :: l → (y ≤ max_int_from x l)%Z.
Proof.
  revert x. induction l as [|z l IH]; intros x Hy; simpl.
  - apply list_elem_of_singleton in Hy. lia.
  - apply elem_of_cons in Hy as [->|Hy].
    + etrans; [|apply max_int_from_ge]. destruct (Z.ltb_spec x z); lia.
    + apply elem_of_cons in Hy as [->|Hy].
      * etrans; [|apply max_int_from_ge]. destruct (Z.ltb_spec x z); lia.
      * apply IH. by right.
Qed.

Lemma max_int_from_elem (x : Z) (l : list Z) : max_int_from x l ∈ x :: l.
Proof.
  revert x. induction l as [|z l IH]; intros x; simpl; [by left|].
  destruct (Z.ltb_spec x z).
  - right. apply IH.
  - specialize (IH x). apply elem_of_cons in IH as [->|IH]; [by left|].
    by do 2 right.
Qed.

(** ** Claims about the statistics *)

Section Counts.
Context {F : Type} `{Number F}.
Implicit Types (csv_data : list (detection F)) (fps : F).

Lemma hand_summary_counts (hd : list (detection F)) ds ss :
  total_detections (hand_summary hd ds ss) = length hd
  ∧ frames_active (hand_summary hd ds ss)
    = size (list_to_set (frame <$> hd) : gset Z).
Proof.
  unfold hand_summary.
  destruct (distance_summary ds) as [[[? ?] ?] ?].
  destruct (speed_summary ss) as [[[? ?] ?] ?]. done.
Qed.

Lemma hand_summary_distances (hd : list (detection F)) ds ss :
  (total_distance (hand_summary hd ds ss),
   avg_distance_per_frame (hand_summary hd ds ss),
   max_distance_per_frame (hand_summary hd ds ss),
   min_distance_per_frame (hand_summary hd ds ss)) = distance_summary ds.
Proof.
  unfold hand_summary.
  destruct (distance_summary ds) as [[[? ?] ?] ?].
  destruct (speed_summary ss) as [[[? ?] ?] ?]. done.
Qed.

Lemma hand_summary_speeds (hd : list (detection F)) ds ss :
  (avg_speed (hand_summary hd ds ss), max_speed (hand_summary hd ds ss),
   min_speed (hand_summary hd ds ss), speed_std (hand_summary hd ds ss))
  = speed_summary ss.
Proof.
  unfold hand_summary.
  destruct (distance_summary ds) as [[[? ?] ?] ?].
  destruct (speed_summary ss) as [[[? ?] ?] ?]. done.
Qed.

Lemma distance_summary_total ds : (distance_summary ds).1.1.1 = py_sum ds.
Proof. by destruct ds. Qed.

(** The counts of a hand, in terms of its records in [csv_data]. *)
Lemma hand_counts csv_data fps hand_type hs :
  hand_statistics csv_data fps hand_type = inr (Some hs) →
  total_detections hs = length (hand_subset csv_data hand_type)
  ∧ frames_active hs
    = size (list_to_set (frame <$> hand_subset csv_data hand_type) : gset Z).
Proof.
  intros [_ ->]%hand_statistics_inr. cbv zeta.
  destruct (hand_summary_counts (sort_by_frame (hand_subset csv_data hand_type))
    (consecutive_distances (sort_by_frame (hand_subset csv_data hand_type)))
    (consecutive_speeds fps (sort_by_frame (hand_subset csv_data hand_type))))
    as [-> ->].
  split; [apply sort_by_frame_length|].
  apply size_frames_perm. by rewrite sort_by_frame_perm.
Qed.

Lemma hand_total_distance csv_data fps hand_type hs :
  hand_statistics csv_data fps hand_type = inr (Some hs) →
  total_distance hs
  = py_sum (consecutive_distances (sort_by_frame (hand_subset csv_data hand_type))).
Proof.
  intros [_ ->]%hand_statistics_inr. cbv zeta.
  set (hd := sort_by_frame (hand_subset csv_data hand_type)).
  pose proof (hand_summary_distances hd (consecutive_distances hd)
                (consecutive_speeds fps hd)) as Hd.
  apply (f_equal (λ t, t.1.1.1)) in Hd. simpl in Hd. rewrite Hd.
  apply distance_summary_total.
Qed.

End Counts.



(** ** Small inputs *)

Section SmallInputs.
Context {F : Type} `{Number F}.
Implicit Types (d : detection F) (fps : F).

Lemma hand_subset_cons_eq d (l : list (detection F)) hand_type :
  hand d = hand_type →
  hand_subset (d :: l) hand_type = d :: hand_subset l hand_type.
Proof. intros Hd. unfold hand_subset. by rewrite filter_cons_True. Qed.

Lemma hand_subset_cons_ne d (l : list (detection F)) hand_type :
  hand d ≠ hand_type →
  hand_subset (d :: l) hand_type = hand_subset l hand_type.
Proof. intros Hd. unfold hand_subset. by rewrite filter_cons_False. Qed.

Lemma movement_loop_single d fps : movement_loop [d] fps = inr ([], []).
Proof. done. Qed.

(** Two records of one frame: the step between them has no speed. *)
Lemma movement_loop_same_frame d e fps :
  frame d = frame e →
  movement_loop [d; e] fps = inr ([distance3 d e], []).
Proof.
  intros Hde. rewrite movement_loop_walk. simpl. unfold pair_step.
  rewrite Hde, Z.sub_diag. done.
Qed.

End SmallInputs.

(** C3.  For a hand with an entry in the result, the total-detections
    count is the number of records of the hand, the active-frame count is
    the number of distinct frame numbers among them, the latter is at most
    the former, and they are equal exactly when no frame number occurs
    twice among the records of the hand.  A hand with a record has an
    entry.  A detection of the left hand in frame 5 recorded twice gives
    1 active frame and 2 detections. *)
Theorem active_frames_le_total_detections :
  (∀ (F : Type) (N : Number F) (csv_data : list (detection F)) (fps : F)
     (st : stats F) (hand_type : string) (hs : hand_stats F),
     calculate_movement_stats csv_data fps = inr (Some st) →
     hand_entry st hand_type = Some hs →
     total_detections hs = length (hand_subset csv_data hand_type)
     ∧ frames_active hs
       = size (list_to_set (frame <$> hand_subset csv_data hand_type) : gset Z)
     ∧ frames_active hs ≤ total_detections hs
     ∧ (frames_active hs = total_detections hs
        ↔ NoDup (frame <$> hand_subset csv_data hand_type)))
  ∧ (∀ (F : Type) (N : Number F) (csv_data : list (detection F)) (fps : F)
       (st : stats F) (hand_type : string),
       calculate_movement_stats csv_data fps = inr (Some st) →
       hand_type = "Left" ∨ hand_type = "Right" →
       hand_subset csv_data hand_type ≠ [] →
       is_Some (hand_entry st hand_type))
  ∧ (∀ (F : Type) (N : Number F) (d : detection F) (fps : F),
       frame d = 5%Z → hand d = "Left" →
       ∃ (st : stats F) (hs : hand_stats F),
         calculate_movement_stats [d; d] fps = inr (Some st)
         ∧ left st = Some hs
         ∧ frames_active hs = 1
         ∧ total_detections hs = 2).
Proof.
  split; [|split].
  - intros F N csv_data fps st hand_type hs Hst Hhs.
    apply (hand_entry_inr _ _ _ _ _ Hst), hand_counts in Hhs as [-> ->].
    rewrite <- (length_fmap frame (hand_subset csv_data hand_type)).
    split; [done|]. split; [done|].
    split; [apply size_frames_le|apply size_frames_eq_NoDup].
  - intros F N csv_data fps st hand_type Hst Hlabel Hne.
    apply calculate_movement_stats_aggregate in Hst. symmetry in Hst.
    rewrite (hand_entry_aggregate csv_data fps) by done.
    unfold hand_aggregate. by destruct (hand_subset csv_data hand_type).
  - intros F N d fps Hframe Hhand.
    assert (hand_subset [d; d] "Left" = [d; d]) as Hl.
    { rewrite !hand_subset_cons_eq by done. done. }
    assert (hand_subset [d; d] "Right" = []) as Hr.
    { rewrite !hand_subset_cons_ne by (rewrite Hhand; done). done. }
    assert (sort_by_frame [d; d] = [d; d]) as Hsort.
    { simpl. by rewrite Z.leb_refl. }
    assert (calculate_movement_stats [d; d] fps = inr (aggregate [d; d] fps)) as Hret.
    { eapply calculate_movement_stats_returns; unfold sorted_subset.
      - rewrite Hl, Hsort. by apply movement_loop_same_frame.
      - rewrite Hr. apply movement_loop_nil. }
    rewrite Hret. simpl. eexists _, _. split; [done|].
    unfold hand_aggregate at 1, sorted_subset. rewrite Hl, Hsort.
    split; [done|].
    match goal with |- context [hand_summary ?hd ?ds ?ss] =>
      destruct (hand_summary_counts hd ds ss) as [-> ->] end.
    simpl. rewrite Hframe. split; reflexivity.
Qed.

Lemma active_frames_le_total_detections_witness :
  ∃ hs : hand_stats float,
    scenario_345_result = inr (Some {| left := Some hs; right := None;
                                       combined := combined_summary scenario_345 |})
    ∧ frames_active hs ≤ total_detections hs.
Proof.
  eexists. split; [vm_compute; reflexivity|].
  refine (proj1 (proj2 (proj2
    (proj1 active_frames_le_total_detections float _ scenario_345 30%float
       _ "Left" _ _ _)))).
  - vm_compute. reflexivity.
  - reflexivity.
Defined.

(** ** Empty inputs *)

Section Fields.
Context {F : Type} `{Number F}.

Lemma no_rate_no_speed_run csv_data fps :
  ltb zero fps = false → no_speed_run csv_data fps.
Proof.
  intros Hfps. split; [|intros; by apply movement_loop_no_rate].
  exists (aggregate csv_data fps).
  split; [by apply calculate_movement_stats_no_rate|].
  intros st hand_type hs Hst Hhs.
  rewrite (hand_entry_aggregate csv_data fps) in Hhs
    by eauto using hand_entry_Some_label.
  unfold hand_aggregate in Hhs.
  destruct (hand_subset csv_data hand_type); [done|].
  injection Hhs as <-. rewrite consecutive_speeds_no_rate by done.
  match goal with |- context [hand_summary ?hd ?ds ?ss] =>
    pose proof (hand_summary_speeds hd ds ss) as Hs end.
  simpl in Hs. unfold speed_fields_zero. by injection Hs as -> -> -> ->.
Qed.

End Fields.





(** ** The combined block *)

Section Combined.
Context {F : Type} `{Number F}.
Implicit Types (csv_data : list (detection F)) (fps : F).

Lemma size_frames_single (f : Z) : size (list_to_set [f] : gset Z) = 1.
Proof. by rewrite size_frames_cons_notin by apply not_elem_of_nil. Qed.

Lemma size_frames_twice (f : Z) : size (list_to_set [f; f] : gset Z) = 1.
Proof.
  rewrite size_frames_cons_in by apply list_elem_of_singleton, eq_refl.
  apply size_frames_single.
Qed.

(** Records labelled [Left] or [Right] are split between the two hands. *)
Lemma length_hand_subsets csv_data :
  (∀ d, d ∈ csv_data → hand d = "Left" ∨ hand d = "Right") →
  length csv_data
  = length (hand_subset csv_data "Left") + length (hand_subset csv_data "Right").
Proof.
  induction csv_data as [|d l IH]; intros Hl; [done|].
  assert (length l = length (hand_subset l "Left") + length (hand_subset l "Right")) as IH'.
  { apply IH. intros e He. apply Hl. by right. }
  destruct (Hl d) as [Hd|Hd]; [by left| |].
  - rewrite hand_subset_cons_eq, hand_subset_cons_ne by (rewrite ?Hd; done).
    simpl. lia.
  - rewrite hand_subset_cons_ne, hand_subset_cons_eq by (rewrite ?Hd; done).
    simpl. lia.
Qed.

(** The combined dictionary of a returned result. *)
Lemma combined_inr csv_data fps st :
  calculate_movement_stats csv_data fps = inr (Some st) →
  ∃ (c : combined_stats F) (m : Z),
    combined st = Some c
    ∧ combined_total_detections c = length csv_data
    ∧ unique_frames c = size (list_to_set (frame <$> csv_data) : gset Z)
    ∧ m ∈ frame <$> csv_data
    ∧ (∀ f, f ∈ frame <$> csv_data → (f ≤ m)%Z)
    ∧ detection_rate c
      = if (0 <? m)%Z
        then mul (fdiv (of_int (Z.of_nat (unique_frames c))) (of_int m)) (of_int 100)
        else zero.
Proof.
  intros (Hne & _ & _ & Hc)%calculate_movement_stats_inr.
  destruct csv_data as [|d l]; [done|]. unfold combined_summary in Hc.
  eexists _, (max_int_from (frame d) (frame <$> l)).
  split; [exact Hc|]. simpl.
  split; [done|]. split; [done|].
  split; [apply max_int_from_elem|].
  split; [apply max_int_from_upper|done].
Qed.

End Combined.

(** C6, as stated, fails: with both hands once in frame 1 the reported
    rate is [100], not the quotient [1 / 1]. *)
Lemma rate_is_not_plain_quotient :
  ¬ rate_is_plain_quotient scenario_two_hands 30%float.
Proof.
  intros Hq.
  assert (∃ st c, calculate_movement_stats scenario_two_hands 30%float = inr (Some st)
                  ∧ combined st = Some c
                  ∧ detection_rate c = 100%float ∧ unique_frames c = 1)
    as (st & c & Hst & Hc & Hrate & Hu)
    by (vm_compute; eexists _, _; repeat split).
  specialize (Hq st c 1%Z Hst Hc). rewrite Hrate, Hu in Hq.
  assert (100%float = fdiv (of_int 1) (of_int 1)) as Habs.
  { apply Hq.
    - by left.
    - intros f Hf.
      apply elem_of_cons in Hf as [->|Hf]; [done|].
      apply elem_of_cons in Hf as [->|Hf]; [done|].
      by apply not_elem_of_nil in Hf. }
  apply (f_equal (λ x, PrimFloat.eqb x 100)) in Habs.
  vm_compute in Habs. discriminate.
Qed.

(** C6, amended.  The combined dictionary of a returned result reports
    the number of records, the number of distinct frame numbers, and the
    rate [distinct / max_frame * 100], a percentage, where [max_frame] is
    the largest frame number; the rate is [0] when that number is not
    positive, and nothing is divided on the empty sequence, for which the
    empty dictionary is returned.  When every record is labelled [Left] or
    [Right] the number of records is the sum over the two hands.  For one
    detection of each hand in the same frame the combined active-frame
    count is 1, each hand's active-frame count is 1 and the combined
    total is 2. *)
Theorem combined_statistics_percentage :
  (∀ (F : Type) (N : Number F) (csv_data : list (detection F)) (fps : F)
     (st : stats F),
     calculate_movement_stats csv_data fps = inr (Some st) →
     ∃ (c : combined_stats F) (m : Z),
       combined st = Some c
       ∧ combined_total_detections c = length csv_data
       ∧ unique_frames c = size (list_to_set (frame <$> csv_data) : gset Z)
       ∧ m ∈ frame <$> csv_data
       ∧ (∀ f, f ∈ frame <$> csv_data → (f ≤ m)%Z)
       ∧ detection_rate c
         = (if (0 <? m)%Z
            then mul (fdiv (of_int (Z.of_nat (unique_frames c))) (of_int m))
                     (of_int 100)
            else zero)
       ∧ ((∀ d, d ∈ csv_data → hand d = "Left" ∨ hand d = "Right") →
          combined_total_detections c
          = length (hand_subset csv_data "Left")
            + length (hand_subset csv_data "Right")))
  ∧ (∀ (F : Type) (N : Number F) (fps : F),
       calculate_movement_stats (F:=F) [] fps = inr None)
  ∧ (∀ (F : Type) (N : Number F) (dl dr : detection F) (fps : F),
       hand dl = "Left" → hand dr = "Right" → frame dl = frame dr →
       ∃ (st : stats F) (l r : hand_stats F) (c : combined_stats F),
         calculate_movement_stats [dl; dr] fps = inr (Some st)
         ∧ left st = Some l ∧ right st = Some r ∧ combined st = Some c
         ∧ unique_frames c = 1
         ∧ frames_active l = 1 ∧ frames_active r = 1
         ∧ combined_total_detections c = 2).
Proof.
  split; [|split].
  - intros F N csv_data fps st Hst.
    destruct (combined_inr _ _ _ Hst) as (c & m & Hc & Hn & Hu & Hm & Hmax & Hrate).
    exists c, m. repeat (split; [done|]).
    intros Hlabels. rewrite Hn. by apply length_hand_subsets.
  - intros F N fps. reflexivity.
  - intros F N dl dr fps Hl Hr Hframe.
    assert (hand_subset [dl; dr] "Left" = [dl]) as Hsl.
    { rewrite hand_subset_cons_eq, hand_subset_cons_ne by (rewrite ?Hr; done). done. }
    assert (hand_subset [dl; dr] "Right" = [dr]) as Hsr.
    { rewrite hand_subset_cons_ne, hand_subset_cons_eq by (rewrite ?Hl; done). done. }
    assert (calculate_movement_stats [dl; dr] fps = inr (aggregate [dl; dr] fps)) as Hret.
    { eapply calculate_movement_stats_returns; unfold sorted_subset.
      - rewrite Hsl. apply movement_loop_single.
      - rewrite Hsr. apply movement_loop_single. }
    rewrite Hret. unfold aggregate. eexists _, _, _, _. split; [done|].
    cbn [left right combined].
    unfold hand_aggregate, sorted_subset. rewrite Hsl, Hsr.
    unfold combined_summary.
    split; [done|]. split; [done|]. split; [done|].
    cbn [unique_frames combined_total_detections].
    repeat match goal with |- context [hand_summary ?hd ?ds ?ss] =>
      destruct (hand_summary_counts hd ds ss) as [_ ->] end.
    change (frame <$> [dl; dr]) with [frame dl; frame dr].
    change (frame <$> sort_by_frame [dl]) with [frame dl].
    change (frame <$> sort_by_frame [dr]) with [frame dr].
    by rewrite Hframe, size_frames_twice, !size_frames_single.
Qed.

Lemma combined_statistics_percentage_witness :
  ∃ (c : combined_stats float) (m : Z),
    combined_summary scenario_two_hands = Some c
    ∧ combined_total_detections c = 2 ∧ unique_frames c = 1
    ∧ detection_rate c = 100%float.
Proof.
  destruct (proj1 combined_statistics_percentage float _ scenario_two_hands
              30%float _ eq_refl) as (c & m & Hc & Hn & Hu & _ & _ & _).
  exists c, m. simpl in Hc. injection Hc as <-.
  vm_compute. repeat split.
Defined.

(** ** The tracking pass *)

Section TrackerFacts.
Context {F : Type}.
Implicit Types (st : tracker F) (hands : list (hand_landmarks F)).
Implicit Types (reads rest : list (read_result F)).
Implicit Types (frames : list (list (hand_landmarks F))).

Lemma fold_left_append idx hands (acc : list (detection F)) :
  fold_left (λ acc h, acc ++ [record_of idx h]) hands acc
  = acc ++ (record_of idx <$> hands).
Proof.
  revert acc. induction hands as [|h hands IH]; intros acc; simpl.
  - by rewrite app_nil_r.
  - rewrite IH. by rewrite <- app_assoc.
Qed.

Lemma track_frame_csv_data st hands :
  csv_data (track_frame st hands)
  = csv_data st ++ (record_of (frame_idx st + 1) <$> hands).
Proof. apply fold_left_append. Qed.

Lemma records_from_app k frames frames' :
  records_from k (frames ++ frames')
  = records_from k frames ++ records_from (k + Z.of_nat (length frames)) frames'.
Proof.
  revert k. induction frames as [|hands frames IH]; intros k; simpl.
  - by rewrite Z.add_0_r.
  - rewrite IH, <- app_assoc. do 3 f_equal. lia.
Qed.

(** The frames of the records lie in [(k, k + length frames]], in order. *)
Lemma records_from_bounds k frames (d : detection F) :
  d ∈ records_from k frames →
  (k < frame d ≤ k + Z.of_nat (length frames))%Z.
Proof.
  revert k. induction frames as [|hands frames IH]; intros k; simpl.
  - by intros ?%not_elem_of_nil.
  - intros [Hd|Hd]%elem_of_app.
    + apply list_elem_of_fmap in Hd as (h & -> & _). simpl. lia.
    + apply IH in Hd. lia.
Qed.

Lemma records_from_sorted k frames :
  Sorted Z.le (frame <$> records_from k frames).
Proof.
  apply StronglySorted_Sorted.
  revert k. induction frames as [|hands frames IH]; intros k; simpl.
  - constructor.
  - rewrite fmap_app. apply StronglySorted_app. split_and!; [| |apply IH].
    + intros x y (d & -> & (h & -> & _)%list_elem_of_fmap)%list_elem_of_fmap
        (e & -> & He%records_from_bounds)%list_elem_of_fmap.
      simpl. lia.
    + rewrite <- list_fmap_compose.
      induction hands as [|h hands IHh]; simpl; constructor; [done|].
      apply Forall_forall. by intros x (h' & -> & _)%list_elem_of_fmap.
Qed.

Lemma filter_all {A} (P : A → Prop) `{∀ x, Decision (P x)} (l : list A) :
  Forall P l → filter P l = l.
Proof.
  induction 1 as [|x l Hx Hl IH]; [done|].
  by rewrite filter_cons_True, IH.
Qed.

Lemma filter_none {A} (P : A → Prop) `{∀ x, Decision (P x)} (l : list A) :
  Forall (λ x, ¬ P x) l → filter P l = [].
Proof.
  induction 1 as [|x l Hx Hl IH]; [done|].
  by rewrite filter_cons_False.
Qed.

(** The records of frame [k + j + 1] are those of the [j]-th frame. *)
Lemma records_from_frame k frames (j : nat) hands :
  frames !! j = Some hands →
  filter (λ d, frame d = (k + Z.of_nat (S j))%Z) (records_from k frames)
  = record_of (k + Z.of_nat (S j)) <$> hands.
Proof.
  revert k j. induction frames as [|hands0 frames IH]; intros k j; [done|].
  simpl records_from. rewrite filter_app. destruct j as [|j]; simpl lookup.
  - intros [= ->].
    replace (k + Z.of_nat 1)%Z with (k + 1)%Z by lia.
    rewrite filter_all, filter_none, app_nil_r; [done| |].
    + apply Forall_forall. intros d Hd%records_from_bounds. lia.
    + apply Forall_forall. by intros d (h & -> & _)%list_elem_of_fmap.
  - intros Hj. rewrite filter_none.
    + replace (k + Z.of_nat (S (S j)))%Z with (k + 1 + Z.of_nat (S j))%Z by lia.
      by apply IH.
    + apply Forall_forall. intros d (h & -> & _)%list_elem_of_fmap. simpl. lia.
Qed.

(** No record bears the number of a frame that was not read. *)
Lemma records_from_no_frame k frames (j : Z) :
  (j ≤ k ∨ k + Z.of_nat (length frames) < j)%Z →
  filter (λ d, frame d = j) (records_from k frames) = [].
Proof.
  intros Hj. apply filter_none, Forall_forall.
  intros d Hd%records_from_bounds. lia.
Qed.

(** What the loop computes: the records of the frames read before the
    first failed read. *)
Lemma tracking_loop_frames frames rest st :
  (rest = [] ∨ ∃ rest', rest = ReadFailed :: rest') →
  tracking_loop ((ReadFrame <$> frames) ++ rest) st
  = {| frame_idx := frame_idx st + Z.of_nat (length frames);
       csv_data := csv_data st ++ records_from (frame_idx st) frames;
       frames_written := frames_written st + length frames |}.
Proof.
  intros Hrest. revert st. induction frames as [|hands frames IH]; intros st.
  - simpl. rewrite Z.add_0_r, app_nil_r, Nat.add_0_r.
    destruct st. by destruct Hrest as [->|[rest' ->]].
  - simpl. rewrite IH, track_frame_csv_data. simpl.
    rewrite <- app_assoc. f_equal; lia.
Qed.

(** Every list of reads is a run of frames, then a failure or the end. *)
Lemma reads_split reads :
  ∃ frames rest,
    reads = (ReadFrame <$> frames) ++ rest
    ∧ (rest = [] ∨ ∃ rest', rest = ReadFailed :: rest').
Proof.
  induction reads as [|[|hands] reads (frames & rest & -> & Hrest)].
  - exists [], []. auto.
  - exists [], (ReadFailed :: (ReadFrame <$> frames) ++ rest). eauto.
  - exists (hands :: frames), rest. auto.
Qed.

End TrackerFacts.

Section TrackerRuns.
Context {F : Type}.
Implicit Types (st : tracker F) (hands : list (hand_landmarks F)).
Implicit Types (reads rest : list (read_result F)).
Implicit Types (c : list (read_result F) * tracker F).

(** A run of iterations has read a run of frames and appended their
    records. *)
Lemma tracking_steps_frames c c' :
  rtc tracking_step c c' →
  ∃ frames : list (list (hand_landmarks F)),
    c.1 = (ReadFrame <$> frames) ++ c'.1
    ∧ frame_idx c'.2 = (frame_idx c.2 + Z.of_nat (length frames))%Z
    ∧ csv_data c'.2 = csv_data c.2 ++ records_from (frame_idx c.2) frames.
Proof.
  induction 1 as [c|c1 c2 c3 Hstep _ (frames & Hreads & Hidx & Hcsv)].
  - exists []. simpl. by rewrite Z.add_0_r, app_nil_r.
  - destruct Hstep as [hands rest st]. cbn [fst snd] in *.
    exists (hands :: frames). rewrite Hreads, Hidx, Hcsv.
    rewrite track_frame_csv_data, <- app_assoc.
    split; [done|]. split; [simpl; lia|done].
Qed.

(** The loop runs the iterations to the first failed read or the end,
    where no iteration is left. *)
Lemma tracking_loop_steps reads st :
  ∃ rest, rtc tracking_step (reads, st) (rest, tracking_loop reads st)
          ∧ ∀ c, ¬ tracking_step (rest, tracking_loop reads st) c.
Proof.
  revert st. induction reads as [|[|hands] reads IH]; intros st; simpl.
  - exists []. split; [done|]. intros c Hc. inversion Hc.
  - exists (ReadFailed :: reads). split; [done|]. intros c Hc. inversion Hc.
  - destruct (IH (track_frame st hands)) as (rest & Hrun & Hend).
    exists rest. split; [|done].
    eapply rtc_l; [constructor|done].
Qed.

End TrackerRuns.

(** C9.  At every point of the tracking pass, for a detector that
    returns at most [max_num_hands] hands per frame: the frame numbers of
    the records are in non-decreasing order; each is a positive number,
    at most the counter; the records numbered [j + 1] are exactly those of
    the hands found in the [j]-th frame read (counting from 0), so at
    most [max_num_hands], possibly none; and an iteration only appends, at
    the end of the sequence, records numbered with the new value of the
    counter.  The loop ends in the state these iterations lead to. *)
Theorem tracking_pass_append_only_monotone :
  ∀ (F : Type) (reads rest : list (read_result F)) (st : tracker F),
    Forall within_max_hands reads →
    rtc tracking_step (reads, tracker_start) (rest, st) →
    Sorted Z.le (frame <$> csv_data st)
    ∧ Forall (λ d, (1 ≤ frame d ≤ frame_idx st)%Z) (csv_data st)
    ∧ (∀ (j : nat) hands,
         reads !! j = Some (ReadFrame hands) → (Z.of_nat j < frame_idx st)%Z →
         filter (λ d, frame d = Z.of_nat (S j)) (csv_data st)
         = record_of (Z.of_nat (S j)) <$> hands)
    ∧ (∀ k : Z, length (filter (λ d, frame d = k) (csv_data st)) ≤ max_num_hands)
    ∧ (∀ rest' st',
         tracking_step (rest, st) (rest', st') →
         ∃ new, csv_data st' = csv_data st ++ new
                ∧ length new ≤ max_num_hands
                ∧ Forall (λ d, frame d = frame_idx st') new
                ∧ frame_idx st' = (frame_idx st + 1)%Z)
    ∧ (∃ rest_end,
         rtc tracking_step (reads, tracker_start)
             (rest_end, tracking_loop reads tracker_start)
         ∧ ∀ c, ¬ tracking_step (rest_end, tracking_loop reads tracker_start) c).
Proof.
  intros F reads rest st Hmax Hrun.
  destruct (tracking_steps_frames _ _ Hrun) as (frames & Hreads & Hidx & Hcsv).
  simpl in Hreads, Hidx, Hcsv. subst reads.
  apply Forall_app in Hmax as [Hframes Hrest].
  assert (∀ (j : nat) hands, frames !! j = Some hands →
            length hands ≤ max_num_hands) as Hbound.
  { intros j hands Hj.
    apply (Forall_lookup_1 _ _ j (ReadFrame hands)) in Hframes; [done|].
    by rewrite list_lookup_fmap, Hj. }
  split; [rewrite Hcsv; apply records_from_sorted|].
  split.
  { rewrite Hcsv. apply Forall_forall. intros d Hd%records_from_bounds. lia. }
  split.
  { intros j hands Hj Hlt. rewrite Hcsv.
    rewrite lookup_app_l in Hj by (rewrite length_fmap; lia).
    rewrite list_lookup_fmap in Hj.
    destruct (frames !! j) as [hands'|] eqn:Hj'; [|done].
    injection Hj as ->.
    apply (records_from_frame 0 frames j hands Hj'). }
  split.
  { intros k. rewrite Hcsv. simpl.
    destruct (decide (1 ≤ k ≤ Z.of_nat (length frames))%Z) as [Hk|Hk].
    - destruct (lookup_lt_is_Some_2 frames (Z.to_nat (k - 1))) as [hands Hj]; [lia|].
      pose proof (records_from_frame 0 frames _ hands Hj) as Hf.
      replace (0 + Z.of_nat (S (Z.to_nat (k - 1))))%Z with k in Hf by lia.
      rewrite Hf, length_fmap. by eapply Hbound.
    - rewrite records_from_no_frame by lia. simpl. lia. }
  split.
  { intros rest' st' Hstep. inversion Hstep as [hands rest0 st0]; subst.
    exists (record_of (frame_idx st + 1) <$> hands).
    split; [apply track_frame_csv_data|].
    split; [rewrite length_fmap; by apply Forall_cons in Hrest as [? _]|].
    split; [|done].
    apply Forall_forall. by intros d (h & -> & _)%list_elem_of_fmap. }
  apply tracking_loop_steps.
Qed.

Lemma tracking_pass_append_only_monotone_witness :
  Forall within_max_hands sample_reads
  ∧ Sorted Z.le
      (frame <$> csv_data (track_frame tracker_start [sample_hand "Left"])).
Proof.
  assert (Forall within_max_hands sample_reads) as Hmax.
  { repeat constructor; unfold max_num_hands; simpl; lia. }
  split; [exact Hmax|].
  refine (proj1 (tracking_pass_append_only_monotone float sample_reads
            _ (track_frame tracker_start [sample_hand "Left"]) Hmax _)).
  apply rtc_once. constructor.
Defined.

(** C1, as stated, fails: when the second of three reads fails, the pass
    stops with the counter at 1 and the record of the first frame; the
    third frame is never read. *)
Lemma failed_read_is_not_skipped : ¬ failed_read_is_skipped sample_reads.
Proof.
  unfold failed_read_is_skipped. intros Heq.
  apply (f_equal frame_idx) in Heq. vm_compute in Heq. discriminate.
Qed.

Lemma skipping_loop_frames {F : Type} (frames : list (list (hand_landmarks F)))
    (st : tracker F) :
  skipping_loop (ReadFrame <$> frames) st = tracking_loop (ReadFrame <$> frames) st.
Proof.
  revert st. induction frames as [|hands frames IH]; intros st; [done|].
  simpl. apply IH.
Qed.

(** C1, amended.  A failed read ends the pass: the result is that of the
    frames read before it, whatever follows; the counter is the number of
    those frames (it is not advanced for the failed read), as is the
    number of frames written; the records are those of these frames, so
    none bears a later frame number.  While no read fails, the pass is
    the one that would skip failed reads. *)
Theorem failed_read_ends_the_pass :
  ∀ (F : Type) (frames : list (list (hand_landmarks F)))
    (rest : list (read_result F)),
    let st := tracking_loop ((ReadFrame <$> frames) ++ ReadFailed :: rest)
                            tracker_start in
    st = tracking_loop (ReadFrame <$> frames) tracker_start
    ∧ frame_idx st = Z.of_nat (length frames)
    ∧ frames_written st = length frames
    ∧ csv_data st = records_from 0 frames
    ∧ Forall (λ d, (1 ≤ frame d ≤ Z.of_nat (length frames))%Z) (csv_data st)
    ∧ tracking_loop (ReadFrame <$> frames) tracker_start
      = skipping_loop (ReadFrame <$> frames) tracker_start.
Proof.
  intros F frames rest st. subst st.
  rewrite (tracking_loop_frames frames (ReadFailed :: rest)) by eauto.
  pose proof (tracking_loop_frames frames [] tracker_start) as Hend.
  rewrite app_nil_r in Hend. rewrite Hend by auto. simpl.
  split; [done|]. split; [done|]. split; [done|]. split; [done|].
  split.
  - apply Forall_forall. intros d Hd%records_from_bounds. lia.
  - by rewrite skipping_loop_frames, Hend by auto.
Qed.

(** * The statistics over the reals *)

Section RealLists.
Implicit Types (x y a b : R) (l : list R).
Local Open Scope R_scope.

Lemma R_fold_sum l a : fold_left Rplus l a = a + fold_left Rplus l 0.
Proof.
  revert a. induction l as [|x l IH]; intros a; simpl; [lra|].
  rewrite (IH (a + x)), (IH (0 + x)). lra.
Qed.

Lemma R_py_sum_nil : py_sum (F:=R) [] = 0.
Proof. done. Qed.

Lemma R_py_sum_cons x l : py_sum (x :: l) = x + py_sum l.
Proof.
  unfold py_sum. simpl. rewrite R_fold_sum. lra.
Qed.

Lemma R_max_from_spec x l :
  max_from x l ∈ x :: l ∧ ∀ y, y ∈ x :: l → y <= max_from x l.
Proof.
  revert x. induction l as [|z l IH]; intros x.
  - split; [by left|]. intros y ->%list_elem_of_singleton. simpl. lra.
  - change (max_from x (z :: l))
      with (max_from (if bool_decide (x < z) then z else x) l).
    destruct (IH (if bool_decide (x < z) then z else x)) as [Hin Hub].
    split.
    + case_bool_decide.
      * by right.
      * apply elem_of_cons in Hin as [->|Hin]; [by left|by do 2 right].
    + assert (x <= max_from (if bool_decide (x < z) then z else x) l
              ∧ z <= max_from (if bool_decide (x < z) then z else x) l) as [Hx Hz].
      { pose proof (Hub _ (list_elem_of_here _ _)) as Hm.
        case_bool_decide; lra. }
      intros y [->|[->|Hy]%elem_of_cons]%elem_of_cons; [done|done|].
      apply Hub. by right.
Qed.

Lemma R_min_from_spec x l :
  min_from x l ∈ x :: l ∧ ∀ y, y ∈ x :: l → min_from x l <= y.
Proof.
  revert x. induction l as [|z l IH]; intros x.
  - split; [by left|]. intros y ->%list_elem_of_singleton. simpl. lra.
  - change (min_from x (z :: l))
      with (min_from (if bool_decide (z < x) then z else x) l).
    destruct (IH (if bool_decide (z < x) then z else x)) as [Hin Hlb].
    split.
    + case_bool_decide.
      * by right.
      * apply elem_of_cons in Hin as [->|Hin]; [by left|by do 2 right].
    + assert (min_from (if bool_decide (z < x) then z else x) l <= x
              ∧ min_from (if bool_decide (z < x) then z else x) l <= z) as [Hx Hz].
      { pose proof (Hlb _ (list_elem_of_here _ _)) as Hm.
        case_bool_decide; lra. }
      intros y [->|[->|Hy]%elem_of_cons]%elem_of_cons; [done|done|].
      apply Hlb. by right.
Qed.

Lemma R_sum_bounds l a b :
  Forall (λ y, a <= y <= b) l →
  INR (length l) * a <= py_sum l <= INR (length l) * b.
Proof.
  induction 1 as [|x l Hx Hl IH].
  - rewrite R_py_sum_nil. simpl. lra.
  - rewrite R_py_sum_cons. change (length (x :: l)) with (S (length l)).
    rewrite S_INR. lra.
Qed.

Lemma R_sum_nonneg l : Forall (λ y, 0 <= y) l → 0 <= py_sum l.
Proof.
  induction 1 as [|x l Hx Hl IH].
  - rewrite R_py_sum_nil. lra.
  - rewrite R_py_sum_cons. lra.
Qed.

Lemma R_elem_le_sum l y : Forall (λ y, 0 <= y) l → y ∈ l → y <= py_sum l.
Proof.
  induction 1 as [|x l Hx Hl IH]; [by intros ?%not_elem_of_nil|].
  rewrite R_py_sum_cons. pose proof (R_sum_nonneg l Hl).
  intros [->|Hy]%elem_of_cons; [lra|]. apply IH in Hy. lra.
Qed.

Lemma R_mean_bounds l a b :
  l ≠ [] → Forall (λ y, a <= y <= b) l → a <= mean l <= b.
Proof.
  intros Hne Hl. apply R_sum_bounds in Hl. unfold mean. simpl.
  rewrite <- INR_IZR_INZ.
  assert (0 < INR (length l)) as Hn.
  { apply lt_0_INR. destruct l; [done|simpl; lia]. }
  assert (py_sum l = INR (length l) * (py_sum l / INR (length l))) as Hq
    by (field; lra).
  split; apply Rmult_le_reg_l with (INR (length l)); lra.
Qed.

(** The order of the four distance fields, and of the speed fields. *)
Lemma R_distance_summary_ordered (ds : list R) :
  Forall (λ y, 0 <= y) ds →
  let '(total, avg, hi, lo) := distance_summary ds in
  0 <= lo ∧ lo <= avg ∧ avg <= hi ∧ hi <= total.
Proof.
  intros Hds. destruct ds as [|d ds]; simpl distance_summary; [lra|].
  destruct (R_max_from_spec d ds) as [Hmax_in Hmax].
  destruct (R_min_from_spec d ds) as [Hmin_in Hmin].
  assert (min_from d ds <= mean (d :: ds) <= max_from d ds) as [? ?].
  { apply R_mean_bounds; [done|]. apply Forall_forall. intros y Hy. auto. }
  split; [by apply (proj1 (Forall_forall _ _) Hds)|].
  split; [done|]. split; [done|].
  by apply R_elem_le_sum.
Qed.

Lemma R_speed_summary_ordered (ss : list R) :
  Forall (λ y, 0 <= y) ss →
  let '(avg, hi, lo, sd) := speed_summary ss in
  0 <= lo ∧ lo <= avg ∧ avg <= hi.
Proof.
  intros Hss. destruct ss as [|s ss]; simpl speed_summary; [lra|].
  destruct (R_max_from_spec s ss) as [Hmax_in Hmax].
  destruct (R_min_from_spec s ss) as [Hmin_in Hmin].
  assert (min_from s ss <= mean (s :: ss) <= max_from s ss) as [? ?].
  { apply R_mean_bounds; [done|]. apply Forall_forall. intros y Hy. auto. }
  split; [by apply (proj1 (Forall_forall _ _) Hss)|]. done.
Qed.

End RealLists.

Section RealEngine.
Implicit Types (d p c : detection R) (l rest : list (detection R)) (fps : R).
Local Open Scope R_scope.

Lemma R_distance3_nonneg p c : 0 <= distance3 p c.
Proof. unfold distance3. simpl. apply sqrt_pos. Qed.

Lemma R_consecutive_distances_nonneg l :
  Forall (λ y, 0 <= y) (consecutive_distances l).
Proof.
  unfold consecutive_distances. apply Forall_forall.
  intros y (p & c & -> & _)%elem_of_zip_with. apply R_distance3_nonneg.
Qed.

Lemma R_consecutive_speeds_nonneg fps l :
  Forall (λ y, 0 <= y) (consecutive_speeds fps l).
Proof.
  induction l as [|p l IH]; [constructor|].
  destruct l as [|c l]; [constructor|].
  change (consecutive_speeds fps (p :: c :: l)) with
    (if (0 <? frame c - frame p)%Z && bool_decide (0 < fps)
     then distance3 p c / (IZR (frame c - frame p) / fps)
            :: consecutive_speeds fps (c :: l)
     else consecutive_speeds fps (c :: l)).
  destruct (Z.ltb_spec 0 (frame c - frame p)); [|done].
  case_bool_decide; [|done]. simpl. constructor; [|done].
  apply Rle_mult_inv_pos; [apply R_distance3_nonneg|].
  apply Rdiv_lt_0_compat; [by apply IZR_lt|done].
Qed.

(** Over the reals both divisions of the speed computation are safe: the
    guard gives a positive gap and a positive rate. *)
Lemma R_pair_step_returns fps (acc : list R * list R) p c :
  ∃ acc', pair_step fps acc p c = inr acc'.
Proof.
  unfold pair_step. destruct acc as [ds ss].
  destruct (Z.ltb_spec 0 (frame c - frame p)); [|simpl; eauto].
  simpl ltb. case_bool_decide as Hfps; [|simpl; eauto]. simpl andb.
  unfold py_div. simpl eqb. simpl zero.
  rewrite bool_decide_eq_false_2 by lra. rewrite bind_ret_l.
  rewrite bool_decide_eq_false_2; [simpl; eauto|].
  assert (0 < IZR (frame c - frame p) / fps); [|simpl; lra].
  apply Rdiv_lt_0_compat; [by apply IZR_lt|done].
Qed.

Lemma R_walk_returns fps p rest (acc : list R * list R) :
  ∃ acc', walk fps p rest acc = inr acc'.
Proof.
  revert p acc. induction rest as [|c rest IH]; intros p acc; simpl; [eauto|].
  destruct (R_pair_step_returns fps acc p c) as [acc' ->]. simpl. apply IH.
Qed.

Lemma R_movement_loop_returns fps l : ∃ acc, movement_loop l fps = inr acc.
Proof.
  destruct l as [|p rest]; [by eexists|].
  rewrite movement_loop_walk. apply R_walk_returns.
Qed.

(** So the function is total over the reals. *)
Lemma R_calculate_movement_stats_returns (csv_data : list (detection R)) fps :
  calculate_movement_stats csv_data fps = inr (aggregate csv_data fps).
Proof.
  destruct (R_movement_loop_returns fps (sorted_subset csv_data "Left")) as [accl Hl].
  destruct (R_movement_loop_returns fps (sorted_subset csv_data "Right")) as [accr Hr].
  by eapply calculate_movement_stats_returns.
Qed.

End RealEngine.

(** ** The number of distinct frames and the largest frame number *)

Lemma size_frames_le_max (l : list Z) (m : Z) :
  (∀ x, x ∈ l → (1 ≤ x ≤ m)%Z) →
  size (list_to_set l : gset Z) ≤ Z.to_nat m.
Proof.
  intros Hl.
  trans (size (list_to_set (Z.of_nat <$> seq 1 (Z.to_nat m)) : gset Z)).
  - apply subseteq_size. intros x. rewrite !elem_of_list_to_set.
    intros Hx%Hl. apply list_elem_of_fmap. exists (Z.to_nat x).
    split; [lia|]. apply elem_of_seq. lia.
  - etrans; [apply size_frames_le|]. by rewrite length_fmap, length_seq.
Qed.

Section RealRate.
Local Open Scope R_scope.

Lemma R_detection_rate_bounds (csv_data : list (detection R)) (c : combined_stats R) :
  Forall (λ d, (1 ≤ frame d)%Z) csv_data →
  combined_summary csv_data = Some c →
  0 <= detection_rate c <= 100.
Proof.
  intros Hpos Hc. destruct csv_data as [|d l]; [done|].
  unfold combined_summary in Hc. apply (inj Some) in Hc. subst c.
  cbn [detection_rate].
  set (m := max_int_from (frame d) (frame <$> l)).
  set (u := size (list_to_set (frame <$> d :: l) : gset Z)).
  destruct (Z.ltb_spec 0 m) as [Hm|Hm]; [|simpl; lra].
  cbn [mul fdiv of_int zero R_Number].
  assert (u ≤ Z.to_nat m)%nat as Hu.
  { apply size_frames_le_max. intros x Hx. split.
    - apply list_elem_of_fmap in Hx as (e & -> & He).
      by apply (proj1 (Forall_forall _ _) Hpos).
    - by apply max_int_from_upper. }
  assert (0 < IZR m) as Hm' by (by apply IZR_lt).
  assert (0 <= IZR (Z.of_nat u) <= IZR m) as [Hu0 Hu1].
  { split; apply IZR_le; lia. }
  assert (IZR (Z.of_nat u) = IZR m * (IZR (Z.of_nat u) / IZR m)) as Hq
    by (field; lra).
  assert (0 <= IZR (Z.of_nat u) / IZR m <= 1) as [? ?]; [|lra].
  split; apply Rmult_le_reg_l with (IZR m); lra.
Qed.

End RealRate.

(** ** Claims about the order of the aggregates *)




(** ** The store *)

Section StoreFacts.
Context {F : Type} `{Number F}.
Implicit Types (h : gmap positive (object F)) (items kept : list positive).
Implicit Types (records : list (detection F)) (d : detection F).

Lemma store_bind_inr {A B} (m : storeM F A) (k : A → storeM F B) h a h' :
  m h = inr (a, h') → store_bind m k h = k a h'.
Proof. unfold store_bind. by intros ->. Qed.

Lemma store_bind_inl {A B} (m : storeM F A) (k : A → storeM F B) h e :
  m h = inl e → store_bind m k h = inl e.
Proof. unfold store_bind. by intros ->. Qed.

Lemma refers_to_weaken h h' items records :
  h ⊆ h' → Forall2 (refers_to h) items records →
  Forall2 (refers_to h') items records.
Proof.
  intros Hsub Hitems. eapply Forall2_impl; [exact Hitems|].
  intros i d Hi. by eapply lookup_weaken.
Qed.

Lemma holds_records_weaken h h' csv_data records :
  h ⊆ h' → holds_records h csv_data records → holds_records h' csv_data records.
Proof.
  intros Hsub (items & Hcsv & Hitems). exists items.
  split; [by eapply lookup_weaken|by eapply refers_to_weaken].
Qed.

Lemma get_list_inr h l items :
  h !! l = Some (ListObj items) → get_list l h = inr (items, h).
Proof. unfold get_list. by intros ->. Qed.

Lemma store_map_get_dict h items records :
  Forall2 (refers_to h) items records →
  store_map get_dict items h = inr (records, h).
Proof.
  induction 1 as [|i d items records Hi _ IH]; [done|]. simpl.
  erewrite store_bind_inr; [|unfold get_dict; by rewrite Hi].
  by erewrite store_bind_inr.
Qed.

Lemma store_map_keys h items records :
  Forall2 (refers_to h) items records →
  ∃ keyed,
    store_map (λ i, store_bind (get_dict i) (λ d, store_ret (frame d, i))) items h
    = inr (keyed, h)
    ∧ Forall2 (keyed_refers_to h) keyed records.
Proof.
  induction 1 as [|i d items records Hi _ (keyed & IH & Hkeyed)].
  - exists []. split; [done|constructor].
  - exists ((frame d, i) :: keyed). split; [|by constructor]. simpl.
    erewrite store_bind_inr.
    2:{ erewrite store_bind_inr; [done|]. unfold get_dict. by rewrite Hi. }
    by erewrite store_bind_inr.
Qed.

Lemma store_filter_hand h items records (hand_type : string) :
  Forall2 (refers_to h) items records →
  ∃ kept,
    store_filter (λ i, store_bind (get_dict i) (λ d,
                       store_ret (bool_decide (hand d = hand_type)))) items h
    = inr (kept, h)
    ∧ Forall2 (refers_to h) kept (filter (λ d, hand d = hand_type) records).
Proof.
  induction 1 as [|i d items records Hi _ (kept & IH & Hkept)].
  - exists []. split; [done|constructor].
  - exists (if bool_decide (hand d = hand_type) then i :: kept else kept).
    split.
    + simpl. erewrite store_bind_inr.
      2:{ erewrite store_bind_inr; [done|]. unfold get_dict. by rewrite Hi. }
      by erewrite store_bind_inr.
    + rewrite filter_cons. case_bool_decide.
      * rewrite decide_True by done. by constructor.
      * by rewrite decide_False by done.
Qed.

Lemma insert_keyed_refers_to h k i keyed d records :
  keyed_refers_to h (k, i) d →
  Forall2 (keyed_refers_to h) keyed records →
  Forall2 (keyed_refers_to h) (insert_keyed k i keyed) (insert_by_frame d records).
Proof.
  intros Hki. induction 1 as [|[k' i'] d' keyed records Hki' Hrest IH]; simpl.
  - constructor; [done|constructor].
  - assert (k = frame d ∧ k' = frame d') as [-> ->].
    { split; [apply Hki|apply Hki']. }
    destruct (frame d <=? frame d')%Z.
    + constructor; [done|]. by constructor.
    + by constructor.
Qed.

Lemma sort_keyed_refers_to h keyed records :
  Forall2 (keyed_refers_to h) keyed records →
  Forall2 (refers_to h) (sort_keyed keyed).*2 (sort_by_frame records).
Proof.
  intros Hkeyed.
  assert (Forall2 (keyed_refers_to h) (sort_keyed keyed) (sort_by_frame records)) as Hs.
  { induction Hkeyed as [|[k i] d keyed records Hki _ IH]; simpl; [constructor|].
    by apply insert_keyed_refers_to. }
  clear Hkeyed. induction Hs as [|ki d l l' [_ Hi] _ IH]; simpl; constructor; done.
Qed.

End StoreFacts.

Section StoreRuns.
Context {F : Type} `{Number F}.
Implicit Types (h : gmap positive (object F)) (items kept : list positive).
Implicit Types (records : list (detection F)) (d : detection F).

Lemma fresh_insert_subseteq h (o : object F) : h ⊆ <[fresh (dom h) := o]> h.
Proof.
  apply insert_subseteq, not_elem_of_dom, is_fresh.
Qed.

Lemma preserves_bind {A B} (m : storeM F A) (k : A → storeM F B)
    (p : result A) (kp : A → result B) h :
  preserves m h p →
  (∀ a h', h ⊆ h' → preserves (k a) h' (kp a)) →
  preserves (store_bind m k) h (bind p kp).
Proof.
  intros Hm Hk. unfold preserves in *. destruct p as [e|a]; simpl bind.
  - by apply store_bind_inl.
  - destruct Hm as (h' & Hm & Hsub). specialize (Hk a h' Hsub).
    destruct (kp a) as [e|b].
    + by rewrite (store_bind_inr _ _ _ _ _ Hm).
    + destruct Hk as (h'' & Hk & Hsub'). exists h''.
      split; [by rewrite (store_bind_inr _ _ _ _ _ Hm)|by etrans].
Qed.

Lemma preserves_lift {A} (p : result A) h : preserves (store_lift p) h p.
Proof. destruct p as [e|a]; simpl; [done|]. by exists h. Qed.

Lemma read_records_preserves h csv_data records :
  holds_records h csv_data records →
  preserves (read_records csv_data) h (ret records).
Proof.
  intros (items & Hcsv & Hitems). exists h. split; [|done].
  unfold read_records. rewrite (store_bind_inr _ _ _ _ _ (get_list_inr _ _ _ Hcsv)).
  by apply store_map_get_dict.
Qed.

(** The body of the hand loop on the store: the new list object is the
    only object written. *)
Lemma hand_statistics_store_run h csv_data records fps hand_type :
  holds_records h csv_data records →
  ∃ h', h ⊆ h'
        ∧ hand_statistics_store csv_data fps hand_type h
          = match hand_statistics records fps hand_type with
            | inl e => inl e
            | inr o => inr (o, h')
            end.
Proof.
  intros (items & Hcsv & Hitems).
  destruct (store_filter_hand h items records hand_type Hitems)
    as (kept & Hfilter & Hkept).
  set (l := fresh (dom h)).
  assert (comprehension csv_data hand_type h
          = inr (l, <[l := ListObj kept]> h)) as Hcomp.
  { unfold comprehension.
    rewrite (store_bind_inr _ _ _ _ _ (get_list_inr _ _ _ Hcsv)).
    by rewrite (store_bind_inr _ _ _ _ _ Hfilter). }
  unfold hand_statistics_store.
  rewrite (store_bind_inr _ _ _ _ _ Hcomp).
  erewrite store_bind_inr; [|apply get_list_inr, lookup_insert_eq].
  unfold hand_statistics.
  destruct Hkept as [|i d kept subset Hi Hkept].
  { exists (<[l := ListObj []]> h). split; [apply fresh_insert_subseteq|done]. }
  set (h1 := <[l := ListObj (i :: kept)]> h).
  assert (h ⊆ h1) as Hsub1 by apply fresh_insert_subseteq.
  assert (Forall2 (refers_to h1) (i :: kept) (d :: subset)) as Hkept1.
  { eapply refers_to_weaken; [exact Hsub1|]. by constructor. }
  destruct (store_map_keys h1 _ _ Hkept1) as (keyed & Hkeys & Hkeyed).
  set (sorted := (sort_keyed keyed).*2).
  set (h2 := <[l := ListObj sorted]> h).
  assert (sort_in_place l h1 = inr ((), h2)) as Hsort.
  { unfold sort_in_place.
    erewrite store_bind_inr; [|apply get_list_inr, lookup_insert_eq].
    rewrite (store_bind_inr _ _ _ _ _ Hkeys).
    unfold set_list, h2, h1. by rewrite insert_insert_eq. }
  assert (h ⊆ h2) as Hsub2 by apply fresh_insert_subseteq.
  assert (read_records l h2 = inr (sort_by_frame (d :: subset), h2)) as Hread.
  { unfold read_records.
    erewrite store_bind_inr; [|apply get_list_inr, lookup_insert_eq].
    apply store_map_get_dict.
    apply (sort_keyed_refers_to h2 keyed (d :: subset)).
    eapply Forall2_impl; [exact Hkeyed|].
    intros ki e [Hk Hki]. split; [done|].
    unfold refers_to in *. unfold h1 in Hki.
    destruct (decide (l = ki.2)) as [Heq|Hne].
    - rewrite <- Heq, lookup_insert_eq in Hki. done.
    - rewrite lookup_insert_ne in Hki by done.
      by eapply lookup_weaken. }
  exists h2. split; [done|].
  rewrite (store_bind_inr _ _ _ _ _ Hsort).
  rewrite (store_bind_inr _ _ _ _ _ Hread).
  unfold store_lift. by destruct (hand_body _ fps).
Qed.

Lemma hand_statistics_store_preserves h csv_data records fps hand_type :
  holds_records h csv_data records →
  preserves (hand_statistics_store csv_data fps hand_type) h
            (hand_statistics records fps hand_type).
Proof.
  intros Hholds.
  destruct (hand_statistics_store_run h csv_data records fps hand_type Hholds)
    as (h' & Hsub & Hrun).
  unfold preserves. destruct (hand_statistics records fps hand_type); [done|].
  by exists h'.
Qed.

(** The whole function on the store. *)
Lemma calculate_movement_stats_store_preserves h csv_data records fps :
  holds_records h csv_data records →
  preserves (calculate_movement_stats_store csv_data fps) h
            (calculate_movement_stats records fps).
Proof.
  intros Hholds. pose proof Hholds as (items & Hcsv & Hitems).
  destruct Hitems as [|i d items records Hi Hitems].
  { exists h. split; [|done]. unfold calculate_movement_stats_store.
    by rewrite (store_bind_inr _ _ _ _ _ (get_list_inr _ _ _ Hcsv)). }
  assert (∀ k kp,
    preserves (k : storeM F (option (stats F))) h kp →
    calculate_movement_stats_store csv_data fps h = k h →
    calculate_movement_stats (d :: records) fps = kp →
    preserves (calculate_movement_stats_store csv_data fps) h
              (calculate_movement_stats (d :: records) fps)) as Hstep.
  { intros k kp Hk Hs Hp. unfold preserves in *. rewrite Hs, Hp. exact Hk. }
  eapply Hstep; [|
    unfold calculate_movement_stats_store;
    by rewrite (store_bind_inr _ _ _ _ _ (get_list_inr _ _ _ Hcsv))|
    reflexivity].
  apply preserves_bind; [by apply hand_statistics_store_preserves|].
  intros l h1 Hsub1.
  apply preserves_bind.
  { apply hand_statistics_store_preserves. by eapply holds_records_weaken. }
  intros r h2 Hsub2.
  apply (preserves_bind _ _ (ret (d :: records))
           (λ all_data, do c <- combined_statistics all_data;
                        ret (Some {| left := l; right := r; combined := c |}))).
  { apply read_records_preserves.
    eapply holds_records_weaken; [|exact Hholds]. by etrans. }
  intros all_data h3 Hsub3.
  apply preserves_bind; [apply preserves_lift|].
  intros c h4 Hsub4. by exists h4.
Qed.

End StoreRuns.

(** C7.  Run on a store that holds the record sequence at [csv_data],
    the function returns what the function of the sequence and the frame
    rate returns (or raises what it raises), and when it returns every
    object of the store it started from is as it was: the list object
    [csv_data] refers to the same dictionaries in the same order and each
    dictionary has the same fields, although the subsets of the hands
    were sorted in place (in list objects of their own). *)
Theorem statistics_leave_input_unchanged :
  ∀ (F : Type) (N : Number F) (h : gmap positive (object F))
    (csv_data : positive) (records : list (detection F)) (fps : F),
    holds_records h csv_data records →
    match calculate_movement_stats records fps with
    | inl e => calculate_movement_stats_store csv_data fps h = inl e
    | inr r =>
        ∃ h', calculate_movement_stats_store csv_data fps h = inr (r, h')
              ∧ (∀ l o, h !! l = Some o → h' !! l = Some o)
              ∧ holds_records h' csv_data records
    end.
Proof.
  intros F N h csv_data records fps Hholds.
  pose proof (calculate_movement_stats_store_preserves h csv_data records fps Hholds)
    as Hrun.
  unfold preserves in Hrun.
  destruct (calculate_movement_stats records fps) as [e|r]; [done|].
  destruct Hrun as (h' & Hrun & Hsub). exists h'.
  split; [done|]. split.
  - intros l o Hl. by eapply lookup_weaken.
  - by eapply holds_records_weaken.
Qed.

Lemma statistics_leave_input_unchanged_witness :
  holds_records sample_store 1%positive sample_records
  ∧ ∃ r h', calculate_movement_stats_store 1%positive 30%float sample_store
            = inr (r, h')
            ∧ holds_records h' 1%positive sample_records.
Proof.
  assert (holds_records sample_store 1%positive sample_records) as Hholds.
  { exists [2%positive; 3%positive]. split; [reflexivity|].
    repeat constructor. }
  split; [exact Hholds|].
  pose proof (statistics_leave_input_unchanged float _ sample_store 1%positive
                sample_records 30%float Hholds) as Hrun.
  destruct (calculate_movement_stats sample_records 30%float) as [e|r] eqn:Hpure.
  - vm_compute in Hpure. discriminate.
  - destruct Hrun as (h' & Hrun & _ & Hholds'). by exists r, h'.
Defined.

(** ** The tabular file *)

Section CsvText.
Implicit Types (s r : string) (c : ascii) (fs : list string).

Lemma string_app_nil s : EmptyString +:+ s = s.
Proof. done. Qed.

Lemma string_app_cons c s1 s2 : String c s1 +:+ s2 = String c (s1 +:+ s2).
Proof. done. Qed.

Lemma string_app_assoc s1 s2 s3 : (s1 +:+ s2) +:+ s3 = s1 +:+ (s2 +:+ s3).
Proof.
  induction s1 as [|c s1 IH]; [done|]. rewrite !string_app_cons. by f_equal.
Qed.

Lemma is_special_comma c : is_special c = false → Ascii.eqb c comma = false.
Proof.
  unfold is_special.
  by intros [[[? ?]%orb_false_elim ?]%orb_false_elim ?]%orb_false_elim.
Qed.

Lemma is_special_break c :
  is_special c = false → Ascii.eqb c carriage_return = false.
Proof.
  unfold is_special.
  by intros [[[? ?]%orb_false_elim ?]%orb_false_elim ?]%orb_false_elim.
Qed.

Lemma plain_cons c s :
  plain (String c s) = true ↔ is_special c = false ∧ plain s = true.
Proof.
  simpl. rewrite andb_true_iff, negb_true_iff. done.
Qed.

Lemma csv_field_plain s : plain s = true → csv_field s = s.
Proof. unfold csv_field. by intros ->. Qed.

Lemma no_break_cons c s :
  no_break (String c s) = true
  ↔ Ascii.eqb c carriage_return = false ∧ no_break s = true.
Proof.
  change (no_break (String c s))
    with (negb (Ascii.eqb c carriage_return) && no_break s).
  rewrite andb_true_iff, negb_true_iff. done.
Qed.

Lemma plain_no_break s : plain s = true → no_break s = true.
Proof.
  induction s as [|c s IH]; [done|]. intros [Hc Hs]%plain_cons.
  apply no_break_cons. split; [by apply is_special_break|by apply IH].
Qed.

Lemma no_break_app s1 s2 :
  no_break s1 = true → no_break s2 = true → no_break (s1 +:+ s2) = true.
Proof.
  intros H1 H2. induction s1 as [|c s1 IH]; [done|].
  apply no_break_cons in H1 as [Hc H1]. rewrite string_app_cons.
  apply no_break_cons. split; [done|by apply IH].
Qed.

Lemma split_fields_plain s : plain s = true → split_fields s = [s].
Proof.
  induction s as [|c s IH]; [done|]. intros [Hc Hs]%plain_cons. simpl.
  rewrite (is_special_comma c Hc), (IH Hs). done.
Qed.

Lemma split_fields_app s rest :
  plain s = true →
  split_fields (s +:+ String comma rest) = s :: split_fields rest.
Proof.
  induction s as [|c s IH]; intros Hs.
  - rewrite string_app_nil. done.
  - apply plain_cons in Hs as [Hc Hs]. rewrite string_app_cons.
    cbn [split_fields]. rewrite (is_special_comma c Hc), (IH Hs). done.
Qed.

Lemma split_fields_join fs :
  fs ≠ [] → Forall (λ f, plain f = true) fs →
  split_fields (join_fields fs) = fs.
Proof.
  intros Hne Hfs. induction Hfs as [|f fs Hf Hfs IH]; [done|].
  destruct fs as [|g fs]; [by apply split_fields_plain|].
  change (join_fields (f :: g :: fs))
    with (f +:+ String comma (join_fields (g :: fs))).
  rewrite split_fields_app by done. by rewrite IH.
Qed.

Lemma no_break_join fs :
  Forall (λ f, plain f = true) fs → no_break (join_fields fs) = true.
Proof.
  induction 1 as [|f fs Hf Hfs IH]; [done|].
  destruct fs as [|g fs]; [by apply plain_no_break|].
  change (join_fields (f :: g :: fs))
    with (f +:+ String comma (join_fields (g :: fs))).
  apply no_break_app; [by apply plain_no_break|].
  apply no_break_cons. done.
Qed.

Lemma split_rows_cons c s :
  Ascii.eqb c carriage_return = false → s ≠ EmptyString →
  split_rows (String c s)
  = match split_rows s with
    | r :: rs => String c r :: rs
    | [] => [String c EmptyString]
    end.
Proof.
  intros Hc Hs. destruct s as [|c' s']; [done|].
  cbn [split_rows]. by rewrite Hc.
Qed.

Lemma split_rows_line s rest :
  no_break s = true →
  split_rows (s +:+ line_end +:+ rest) = s :: split_rows rest.
Proof.
  induction s as [|c s IH]; [done|]. intros [Hc Hs]%no_break_cons.
  rewrite string_app_cons, split_rows_cons, (IH Hs); [done|done|].
  by destruct s.
Qed.

End CsvText.

Section CsvNumbers.

Lemma plain_string_of_uint (d : Decimal.uint) :
  plain (DecimalString.NilEmpty.string_of_uint d) = true.
Proof. induction d; simpl; done. Qed.

Lemma plain_py_str_int (z : Z) : plain (py_str_int z) = true.
Proof.
  unfold py_str_int, DecimalString.NilZero.string_of_int,
    DecimalString.NilZero.string_of_uint.
  destruct (Z.to_int z) as [d|d]; destruct d; simpl;
    try done; apply plain_string_of_uint.
Qed.

Lemma py_int_str (z : Z) : py_int (py_str_int z) = Some z.
Proof.
  unfold py_int, py_str_int.
  rewrite DecimalString.NilZero.isi.
  - simpl. by rewrite DecimalZ.of_to.
  - destruct z as [|p|p]; simpl; try done.
    intros [= Hp]. by apply DecimalPos.Unsigned.to_uint_nonnil in Hp.
  - destruct z as [|p|p]; simpl; try done.
    intros [= Hp]. by apply DecimalPos.Unsigned.to_uint_nonnil in Hp.
Qed.

End CsvNumbers.

Section CsvRoundTrip.
Context {F : Type}.
Variable float_repr : F → string.
Variable float_of_string : string → option F.
Hypothesis float_round_trip : ∀ x, float_of_string (float_repr x) = Some x.
Hypothesis float_repr_plain : ∀ x, plain (float_repr x) = true.

Lemma row_of_plain (d : detection F) :
  valid_record d → Forall (λ f, plain f = true) (row_of float_repr d).
Proof.
  intros Hd. unfold row_of.
  repeat (constructor; [first [apply plain_py_str_int|apply float_repr_plain|idtac]|]);
    [|constructor].
  by destruct Hd as [-> | ->].
Qed.

Lemma csv_fields_plain (fs : list string) :
  Forall (λ f, plain f = true) fs → csv_field <$> fs = fs.
Proof.
  induction 1 as [|f fs Hf _ IH]; [done|].
  by rewrite fmap_cons, IH, csv_field_plain.
Qed.

Lemma read_row_of (d : detection F) :
  valid_record d →
  read_row float_of_string
    (split_fields (join_fields (csv_field <$> row_of float_repr d)))
  = Some d.
Proof.
  intros Hd. pose proof (row_of_plain d Hd) as Hplain.
  rewrite csv_fields_plain, split_fields_join by done.
  unfold row_of, read_row. rewrite !py_int_str, !float_round_trip. simpl.
  unfold read_hand. rewrite decide_True by done. simpl. by destruct d.
Qed.

Lemma split_rows_nonempty (s : string) : split_rows s ≠ [].
Proof.
  induction s as [|c s IH]; [done|]. simpl.
  destruct s as [|c' s']; [done|].
  destruct (Ascii.eqb c carriage_return && Ascii.eqb c' line_feed); [done|].
  by destruct (split_rows (String c' s')).
Qed.

Lemma read_rows_written (csv_data : list (detection F)) :
  Forall valid_record csv_data →
  read_rows float_of_string
    (split_rows (concat_strings (csv_row ∘ row_of float_repr <$> csv_data)))
  = Some csv_data.
Proof.
  induction 1 as [|d csv_data Hd _ IH]; [reflexivity|].
  rewrite fmap_cons. cbn [concat_strings]. unfold compose at 1, csv_row at 1.
  rewrite string_app_assoc, split_rows_line.
  2:{ apply no_break_join. rewrite csv_fields_plain by (by apply row_of_plain).
      by apply row_of_plain. }
  pose proof (split_rows_nonempty
    (concat_strings (csv_row ∘ row_of float_repr <$> csv_data))) as Hne.
  destruct (split_rows _) as [|r rows]; [done|].
  cbn [read_rows]. rewrite read_row_of by done. simpl.
  cbn [read_rows] in IH. by rewrite IH.
Qed.

End CsvRoundTrip.

(** C8.  For every sequence of records labelled [Left] or [Right], the
    file written by the script (the header row, then one row per record
    with the columns frame, hand, x, y, z, landmark count in this order)
    is read back as the same sequence: same records, same field values,
    same order.  [repr] and [float] are taken with their guarantee that a
    float written by [repr] is read back as the same float, in characters
    that need no quoting. *)
Theorem csv_round_trip :
  ∀ (F : Type) (float_repr : F → string)
    (float_of_string : string → option F),
    (∀ x, float_of_string (float_repr x) = Some x) →
    (∀ x, plain (float_repr x) = true) →
    ∀ csv_data : list (detection F),
      Forall valid_record csv_data →
      read_csv float_of_string (write_csv float_repr csv_data) = Some csv_data.
Proof.
  intros F float_repr float_of_string Hround Hplain csv_data Hvalid.
  unfold read_csv, write_csv. unfold csv_row at 1.
  rewrite string_app_assoc, split_rows_line by done.
  rewrite decide_True by done.
  by apply read_rows_written.
Qed.

Lemma coded_float_repr (x : float) : coded_float (coded_repr x) = Some x.
Proof.
  unfold coded_float, coded_repr. rewrite py_int_str. simpl.
  rewrite decode_encode. simpl. by rewrite FloatAxioms.SF2Prim_Prim2SF.
Qed.

Lemma coded_repr_plain (x : float) : plain (coded_repr x) = true.
Proof. apply plain_py_str_int. Qed.

Lemma csv_round_trip_witness :
  Forall valid_record scenario_two_hands
  ∧ read_csv coded_float (write_csv coded_repr scenario_two_hands)
    = Some scenario_two_hands.
Proof.
  assert (Forall valid_record scenario_two_hands) as Hvalid.
  { unfold scenario_two_hands.
    apply Forall_cons; split; [by left|].
    apply Forall_cons; split; [by right|constructor]. }
  split; [exact Hvalid|].
  exact (csv_round_trip float coded_repr coded_float
           coded_float_repr coded_repr_plain scenario_two_hands Hvalid).
Defined.

(** * Further properties of the statistics *)

Section RecordOrder.
Context {F : Type} `{Number F}.
Implicit Types (d e : detection F) (l : list (detection F)).

#[local] Instance frame_le_transitive : Transitive (frame_le (F:=F)).
Proof. intros d1 d2 d3. unfold frame_le. lia. Qed.

Lemma NoDup_fmap_eq {A B} (f : A → B) (xs : list A) (x y : A) :
  NoDup (f <$> xs) → x ∈ xs → y ∈ xs → f x = f y → x = y.
Proof.
  induction xs as [|z xs IH]; [by intros _ ?%not_elem_of_nil|].
  rewrite fmap_cons, NoDup_cons.
  intros [Hz Hxs] [->|Hx]%elem_of_cons [->|Hy]%elem_of_cons Hf; try done.
  - destruct Hz. rewrite Hf. by apply list_elem_of_fmap_2.
  - destruct Hz. rewrite <- Hf. by apply list_elem_of_fmap_2.
  - by apply IH.
Qed.

(** With one record per frame the sort does not depend on the order the
    records come in. *)
Lemma sort_by_frame_permutation l l' :
  l ≡ₚ l' → NoDup (frame <$> l) → sort_by_frame l = sort_by_frame l'.
Proof.
  intros Hperm Hnodup.
  apply (Sorted_unique_strong frame_le); try apply sort_by_frame_sorted.
  - intros d e Hd He Hde Hed. unfold frame_le in *.
    rewrite sort_by_frame_perm in Hd. rewrite sort_by_frame_perm, <- Hperm in He.
    apply (NoDup_fmap_eq frame l); [done..|lia].
  - by rewrite !sort_by_frame_perm.
Qed.

Lemma max_int_from_permutation (x y : Z) (xs ys : list Z) :
  x :: xs ≡ₚ y :: ys → max_int_from x xs = max_int_from y ys.
Proof.
  intros Hperm. apply Z.le_antisymm.
  - apply max_int_from_upper. rewrite <- Hperm. apply max_int_from_elem.
  - apply max_int_from_upper. rewrite Hperm. apply max_int_from_elem.
Qed.

Lemma combined_summary_permutation (csv_data csv_data' : list (detection F)) :
  csv_data ≡ₚ csv_data' →
  combined_summary csv_data = combined_summary csv_data'.
Proof.
  intros Hperm. destruct csv_data as [|d l], csv_data' as [|d' l'].
  - done.
  - by apply Permutation_nil_cons in Hperm.
  - symmetry in Hperm. by apply Permutation_nil_cons in Hperm.
  - unfold combined_summary.
    assert (frame <$> d :: l ≡ₚ frame <$> d' :: l') as Hframes by (by rewrite Hperm).
    rewrite (size_frames_perm _ _ Hframes).
    rewrite (max_int_from_permutation (frame d) (frame d') (frame <$> l) (frame <$> l'))
      by exact Hframes.
    by rewrite (Permutation_length Hperm).
Qed.

End RecordOrder.

(** X1.  When no hand has two records in one frame, the result of
    [calculate_movement_stats] does not depend on the order of the records
    in [csv_data]: the sort by frame number makes the order of each
    hand's records canonical, and the combined counts are those of a
    set. *)
Theorem statistics_ignore_record_order :
  ∀ (F : Type) (N : Number F) (csv_data csv_data' : list (detection F)) (fps : F),
    csv_data ≡ₚ csv_data' →
    NoDup (frame <$> hand_subset csv_data "Left") →
    NoDup (frame <$> hand_subset csv_data "Right") →
    calculate_movement_stats csv_data fps = calculate_movement_stats csv_data' fps.
Proof.
  intros F N csv_data csv_data' fps Hperm Hleft Hright.
  assert (∀ hand_type,
            NoDup (frame <$> hand_subset csv_data hand_type) →
            hand_statistics csv_data fps hand_type
            = hand_statistics csv_data' fps hand_type) as Hhand.
  { intros hand_type Hnodup. unfold hand_statistics.
    fold (hand_subset csv_data hand_type) (hand_subset csv_data' hand_type).
    assert (hand_subset csv_data hand_type ≡ₚ hand_subset csv_data' hand_type)
      as Hsub by (unfold hand_subset; by rewrite Hperm).
    rewrite (sort_by_frame_permutation _ _ Hsub Hnodup).
    destruct (hand_subset csv_data hand_type) as [|d l],
      (hand_subset csv_data' hand_type) as [|d' l']; try done.
    - by apply Permutation_nil_cons in Hsub.
    - symmetry in Hsub. by apply Permutation_nil_cons in Hsub. }
  unfold calculate_movement_stats.
  rewrite (Hhand "Left" Hleft), (Hhand "Right" Hright), !combined_statistics_inr,
    (combined_summary_permutation _ _ Hperm).
  destruct csv_data as [|d l], csv_data' as [|d' l']; try done.
  - by apply Permutation_nil_cons in Hperm.
  - symmetry in Hperm. by apply Permutation_nil_cons in Hperm.
Qed.

Lemma statistics_ignore_record_order_witness :
  calculate_movement_stats scenario_345 30%float
  = calculate_movement_stats (reverse scenario_345) 30%float.
Proof.
  apply (statistics_ignore_record_order float _ scenario_345
           (reverse scenario_345) 30%float).
  - symmetry. apply reverse_Permutation.
  - refine (bool_decide_unpack _ _). vm_compute. exact I.
  - refine (bool_decide_unpack _ _). vm_compute. exact I.
Defined.

Section FrameCounts.
Context {F : Type} `{Number F}.
Implicit Types (csv_data : list (detection F)) (fps : F).

Lemma frames_hand_subset csv_data (hand_type : string) :
  (list_to_set (frame <$> hand_subset csv_data hand_type) : gset Z)
  ⊆ list_to_set (frame <$> csv_data).
Proof.
  intros f. rewrite !elem_of_list_to_set, !list_elem_of_fmap.
  intros (d & -> & Hd). exists d. split; [done|].
  unfold hand_subset in Hd. by apply list_elem_of_filter in Hd as [_ ?].
Qed.

Lemma frames_two_hands csv_data :
  (∀ d, d ∈ csv_data → hand d = "Left" ∨ hand d = "Right") →
  (list_to_set (frame <$> csv_data) : gset Z)
  ⊆ list_to_set (frame <$> hand_subset csv_data "Left")
    ∪ list_to_set (frame <$> hand_subset csv_data "Right").
Proof.
  intros Hl f. rewrite elem_of_union, !elem_of_list_to_set, !list_elem_of_fmap.
  intros (d & -> & Hd). destruct (Hl d Hd) as [Hh|Hh]; [left|right];
    (exists d; split; [done|]; unfold hand_subset; by apply list_elem_of_filter).
Qed.

Lemma size_union_le (X Y : gset Z) : size (X ∪ Y) ≤ size X + size Y.
Proof.
  rewrite size_union_alt.
  assert (size (Y ∖ X) ≤ size Y); [|lia].
  apply subseteq_size. by intros x [? _]%elem_of_difference.
Qed.

(** The active frames of a hand's entry, [0] when the entry is [{}]. *)
Lemma hand_active_frames csv_data fps hand_type o :
  hand_statistics csv_data fps hand_type = inr o →
  default 0 (frames_active <$> o)
  = size (list_to_set (frame <$> hand_subset csv_data hand_type) : gset Z).
Proof.
  destruct o as [hs|]; simpl.
  - by intros [_ ->]%hand_counts.
  - by intros ->%hand_statistics_None.
Qed.

End FrameCounts.

(** X2.  In a returned result the active-frame count of each hand is at
    most the combined count of distinct frames, and when every record is
    labelled [Left] or [Right] the combined count is at most the sum of
    the two hands' counts (an entry that is [{}] counting for [0]). *)
Theorem unique_frames_between_hands :
  ∀ (F : Type) (N : Number F) (csv_data : list (detection F)) (fps : F)
    (st : stats F) (c : combined_stats F),
    calculate_movement_stats csv_data fps = inr (Some st) →
    combined st = Some c →
    (∀ hand_type hs, hand_entry st hand_type = Some hs →
                     frames_active hs ≤ unique_frames c)
    ∧ (Forall valid_record csv_data →
       unique_frames c ≤ default 0 (frames_active <$> left st)
                         + default 0 (frames_active <$> right st)).
Proof.
  intros F N csv_data fps st c Hs Hc.
  destruct (combined_inr _ _ _ Hs) as (c' & _ & Hc' & _ & Hu & _).
  rewrite Hc in Hc'. apply (inj Some) in Hc'. subst c'.
  split.
  - intros hand_type hs Hhs.
    apply (hand_entry_inr _ _ _ _ _ Hs), hand_counts in Hhs as [_ ->].
    rewrite Hu. apply subseteq_size, frames_hand_subset.
  - intros Hvalid.
    apply calculate_movement_stats_inr in Hs as (_ & Hl & Hr & _).
    rewrite (hand_active_frames _ _ _ _ Hl), (hand_active_frames _ _ _ _ Hr), Hu.
    etrans; [|apply size_union_le].
    apply subseteq_size, frames_two_hands.
    intros d Hd. by apply (proj1 (Forall_forall _ _) Hvalid).
Qed.

Lemma unique_frames_between_hands_witness :
  ∃ st c,
    calculate_movement_stats scenario_two_hands 30%float = inr (Some st)
    ∧ combined st = Some c
    ∧ (∀ hand_type hs, hand_entry st hand_type = Some hs →
                       frames_active hs ≤ unique_frames c)
    ∧ unique_frames c ≤ default 0 (frames_active <$> left st)
                        + default 0 (frames_active <$> right st).
Proof.
  destruct (calculate_movement_stats scenario_two_hands 30%float)
    as [e|[st|]] eqn:Hs; [by vm_compute in Hs| |by vm_compute in Hs].
  destruct (combined st) as [c|] eqn:Hc.
  - exists st, c. split; [done|]. split; [done|].
    destruct (unique_frames_between_hands float _ scenario_two_hands 30%float
                st c Hs Hc) as [Hle Hsum].
    split; [exact Hle|]. apply Hsum.
    apply Forall_cons; split; [by left|].
    apply Forall_cons; split; [by right|constructor].
  - exfalso. vm_compute in Hs. injection Hs as <-. discriminate Hc.
Defined.

Section Positions.
Context {F : Type} `{Number F}.

Lemma hand_summary_positions (hd : list (detection F)) ds ss :
  (ranges (hand_summary hd ds ss), center (hand_summary hd ds ss))
  = position_summary hd.
Proof.
  unfold hand_summary.
  destruct (distance_summary ds) as [[[? ?] ?] ?].
  destruct (speed_summary ss) as [[[? ?] ?] ?]. done.
Qed.

(** The position fields of a hand, in terms of its sorted records. *)
Lemma hand_positions (csv_data : list (detection F)) fps hand_type hs :
  hand_statistics csv_data fps hand_type = inr (Some hs) →
  (ranges hs, center hs)
  = position_summary (sort_by_frame (hand_subset csv_data hand_type)).
Proof.
  intros [_ ->]%hand_statistics_inr. cbv zeta. apply hand_summary_positions.
Qed.

End Positions.

Section RealPositions.
Local Open Scope R_scope.

(** On one axis: the range is not negative and no coordinate is farther
    from the mean than the range. *)
Lemma R_axis_summary (xs : list R) (x : R) :
  x ∈ xs →
  0 <= range_summary xs ∧ Rabs (x - mean_summary xs) <= range_summary xs.
Proof.
  destruct xs as [|x0 xs]; [by intros ?%not_elem_of_nil|]. intros Hx.
  unfold range_summary, mean_summary. simpl sub.
  destruct (R_max_from_spec x0 xs) as [_ Hmax].
  destruct (R_min_from_spec x0 xs) as [_ Hmin].
  assert (min_from x0 xs <= mean (x0 :: xs) <= max_from x0 xs) as [? ?].
  { apply R_mean_bounds; [done|]. apply Forall_forall. intros y Hy. auto. }
  pose proof (Hmax x Hx). pose proof (Hmin x Hx).
  split; [lra|]. apply Rabs_le. lra.
Qed.

End RealPositions.



Section SingleRecord.
Context {F : Type} `{Number F}.

Lemma hand_body_single (d : detection F) fps :
  hand_body [d] fps
  = inr (Some {|
      total_detections := 1;
      frames_active := 1;
      total_distance := zero;
      avg_distance_per_frame := zero;
      max_distance_per_frame := zero;
      min_distance_per_frame := zero;
      avg_speed := zero;
      max_speed := zero;
      min_speed := zero;
      speed_std := zero;
      ranges := {| x_range := sub (wrist_x d) (wrist_x d);
                   y_range := sub (wrist_y d) (wrist_y d);
                   z_range := sub (wrist_z d) (wrist_z d) |};
      center := {| com_x := fdiv (add zero (wrist_x d)) (of_int 1);
                   com_y := fdiv (add zero (wrist_y d)) (of_int 1);
                   com_z := fdiv (add zero (wrist_z d)) (of_int 1) |} |}).
Proof.
  unfold hand_body. rewrite movement_loop_single, bind_inr_l.
  cbn [distance_statistics speed_statistics bind ret].
  rewrite position_statistics_inr, bind_inr_l.
  change (frame <$> [d]) with [frame d]. rewrite size_frames_single.
  done.
Qed.

End SingleRecord.

(** X4.  A hand with a single record in [csv_data]: whatever the frame
    rate, nothing is raised, both counts are [1], every distance and
    speed field is [0], each range is the coordinate minus itself and
    the centre of mass is the record's position summed from [0] and
    divided by [1]. *)
Theorem single_record_statistics :
  ∀ (F : Type) (N : Number F) (csv_data : list (detection F)) (fps : F)
    (hand_type : string) (d : detection F),
    hand_subset csv_data hand_type = [d] →
    hand_statistics csv_data fps hand_type
    = inr (Some {|
        total_detections := 1;
        frames_active := 1;
        total_distance := zero;
        avg_distance_per_frame := zero;
        max_distance_per_frame := zero;
        min_distance_per_frame := zero;
        avg_speed := zero;
        max_speed := zero;
        min_speed := zero;
        speed_std := zero;
        ranges := {| x_range := sub (wrist_x d) (wrist_x d);
                     y_range := sub (wrist_y d) (wrist_y d);
                     z_range := sub (wrist_z d) (wrist_z d) |};
        center := {| com_x := fdiv (add zero (wrist_x d)) (of_int 1);
                     com_y := fdiv (add zero (wrist_y d)) (of_int 1);
                     com_z := fdiv (add zero (wrist_z d)) (of_int 1) |} |}).
Proof.
  intros F N csv_data fps hand_type d Hd. unfold hand_statistics.
  fold (hand_subset csv_data hand_type). rewrite Hd.
  apply hand_body_single.
Qed.

Lemma single_record_statistics_witness :
  ∃ hs : hand_stats float,
    hand_statistics scenario_two_hands 0%float "Right" = inr (Some hs)
    ∧ total_distance hs = 0%float ∧ com_x (center hs) = 0.75%float.
Proof.
  eexists. split.
  - exact (single_record_statistics float _ scenario_two_hands 0%float "Right"
             (Detection 1 "Right" 0.75 0.5 0 21)%float eq_refl).
  - split; [reflexivity|]. vm_compute. reflexivity.
Defined.

(** * The statistics of a tracking pass *)

Section SortedInput.
Context {F : Type}.
Implicit Types (d e : detection F) (l : list (detection F)).

Lemma insert_by_frame_head d l :
  HdRel frame_le d l → insert_by_frame d l = d :: l.
Proof.
  destruct 1 as [|e l Hde]; [done|]. simpl.
  unfold frame_le in Hde. by rewrite (proj2 (Z.leb_le _ _) Hde).
Qed.

(** Records already in the order of their frames are left where they
    are by the sort. *)
Lemma sort_by_frame_sorted_id l : Sorted frame_le l → sort_by_frame l = l.
Proof.
  induction 1 as [|d l Hl IH Hd]; [done|].
  change (sort_by_frame (d :: l)) with (insert_by_frame d (sort_by_frame l)).
  rewrite IH. by apply insert_by_frame_head.
Qed.

Lemma StronglySorted_frames l :
  StronglySorted Z.le (frame <$> l) → StronglySorted frame_le l.
Proof.
  induction l as [|d l IH]; [constructor|].
  rewrite fmap_cons. intros [Hl Hd]%StronglySorted_inv.
  constructor; [by apply IH|].
  by rewrite Forall_fmap in Hd.
Qed.

Lemma StronglySorted_filter {A} (R : relation A) (P : A → Prop)
    `{∀ x, Decision (P x)} (xs : list A) :
  StronglySorted R xs → StronglySorted R (filter P xs).
Proof.
  induction 1 as [|x xs Hxs IH Hx]; [constructor|].
  destruct (decide (P x)).
  - rewrite filter_cons_True by done. constructor; [done|].
    apply Forall_forall. intros y [_ Hy]%list_elem_of_filter.
    by apply (proj1 (Forall_forall _ _) Hx).
  - by rewrite filter_cons_False.
Qed.

Lemma sort_by_frame_subset_id l (hand_type : string) :
  Sorted Z.le (frame <$> l) →
  sort_by_frame (hand_subset l hand_type) = hand_subset l hand_type.
Proof.
  intros Hl. apply sort_by_frame_sorted_id, StronglySorted_Sorted.
  apply StronglySorted_filter, StronglySorted_frames.
  apply Sorted_StronglySorted; [|done]. intros x y z. lia.
Qed.

End SortedInput.

Section PassRecords.
Context {F : Type}.
Implicit Types (st : tracker F) (reads : list (read_result F)).
Implicit Types (frames : list (list (hand_landmarks F))).

(** What the loop leaves, in terms of the frames it reads. *)
Lemma tracking_loop_frames_read reads st :
  tracking_loop reads st
  = {| frame_idx := frame_idx st + Z.of_nat (length (frames_read reads));
       csv_data := csv_data st ++ records_from (frame_idx st) (frames_read reads);
       frames_written := frames_written st + length (frames_read reads) |}.
Proof.
  revert st. induction reads as [|[|hands] reads IH]; intros st; simpl.
  - rewrite Z.add_0_r, app_nil_r, Nat.add_0_r. by destruct st.
  - rewrite Z.add_0_r, app_nil_r, Nat.add_0_r. by destruct st.
  - rewrite IH, track_frame_csv_data. simpl.
    rewrite <- app_assoc. f_equal; lia.
Qed.

Lemma tracking_pass_csv_data (is_opened : bool) reads :
  ∃ frames, csv_data (tracking_pass is_opened reads) = records_from 0 frames.
Proof.
  destruct is_opened; simpl.
  - exists (frames_read reads). by rewrite tracking_loop_frames_read.
  - by exists [].
Qed.

Lemma length_records_from k frames :
  length (records_from k frames) = length (concat frames).
Proof.
  revert k. induction frames as [|hands frames IH]; intros k; [done|].
  simpl. by rewrite !length_app, length_fmap, IH.
Qed.

Lemma frames_of_hands (k : Z) (hands : list (hand_landmarks F)) :
  (list_to_set (frame <$> (record_of k <$> hands)) : gset Z)
  = if decide (hands = []) then ∅ else {[ k ]}.
Proof.
  destruct hands as [|h hands]; [done|]. rewrite decide_False by done.
  apply set_eq. intros x.
  rewrite elem_of_list_to_set, elem_of_singleton, list_elem_of_fmap. split.
  - by intros (d & -> & (h' & -> & _)%list_elem_of_fmap).
  - intros ->. exists (record_of k h). split; [done|]. apply list_elem_of_here.
Qed.

(** The distinct frame numbers of the records are as many as the frames
    in which a hand was found. *)
Lemma size_frames_records_from k frames :
  size (list_to_set (frame <$> records_from k frames) : gset Z)
  = length (filter (λ hands, hands ≠ []) frames).
Proof.
  revert k. induction frames as [|hands frames IH]; intros k; [done|].
  simpl records_from. rewrite fmap_app, list_to_set_app_L, frames_of_hands.
  destruct (decide (hands = [])) as [->|Hne].
  - rewrite (left_id_L ∅ (∪)), IH. by rewrite filter_cons_False by (by intros ?).
  - rewrite filter_cons_True by done. simpl. rewrite size_union, size_singleton, IH.
    + done.
    + apply disjoint_singleton_l. rewrite elem_of_list_to_set.
      intros (d & Hk & Hd%records_from_bounds)%list_elem_of_fmap. lia.
Qed.

End PassRecords.

(** X5.  The records of a tracking pass reach [calculate_movement_stats]
    in the order of their frames, so the sort of each hand's records
    leaves them in place and the entry of the hand is computed on the
    records in the order the pass appended them. *)
Theorem tracked_records_need_no_sort :
  ∀ (F : Type) (N : Number F) (is_opened : bool) (reads : list (read_result F))
    (fps : F) (hand_type : string),
    let records := csv_data (tracking_pass is_opened reads) in
    sort_by_frame (hand_subset records hand_type) = hand_subset records hand_type
    ∧ hand_statistics records fps hand_type
      = match hand_subset records hand_type with
        | [] => ret None
        | _ => hand_body (hand_subset records hand_type) fps
        end.
Proof.
  intros F N is_opened reads fps hand_type records.
  assert (sort_by_frame (hand_subset records hand_type)
          = hand_subset records hand_type) as Hsort.
  { destruct (tracking_pass_csv_data is_opened reads) as [frames Hframes].
    apply sort_by_frame_subset_id. unfold records. rewrite Hframes.
    apply records_from_sorted. }
  split; [exact Hsort|].
  unfold hand_statistics. fold (hand_subset records hand_type).
  by rewrite Hsort.
Qed.

(** X6.  The combined entry of the statistics of a tracking pass counts
    what the pass read: the total is the number of hands found in the
    frames read before the first failed read, the distinct frames are
    the frames in which at least one hand was found, and they are no
    more than the frames counted by the pass. *)
Theorem tracked_statistics_count_frames :
  ∀ (F : Type) (N : Number F) (reads : list (read_result F)) (fps : F)
    (st : stats F) (c : combined_stats F),
    calculate_movement_stats (csv_data (tracking_pass true reads)) fps
    = inr (Some st) →
    combined st = Some c →
    combined_total_detections c = length (concat (frames_read reads))
    ∧ unique_frames c = length (filter (λ hands, hands ≠ []) (frames_read reads))
    ∧ (Z.of_nat (unique_frames c) ≤ frame_idx (tracking_pass true reads))%Z.
Proof.
  intros F N reads fps st c Hs Hc.
  destruct (combined_inr _ _ _ Hs) as (c' & _ & Hc' & Hn & Hu & _).
  rewrite Hc in Hc'. apply (inj Some) in Hc'. subst c'.
  unfold tracking_pass in *. rewrite tracking_loop_frames_read in *.
  simpl in *. rewrite Hn, Hu, length_records_from, size_frames_records_from.
  split; [done|]. split; [done|].
  pose proof (length_filter (λ hands : list (hand_landmarks F), hands ≠ [])
                (frames_read reads)). lia.
Qed.

Lemma tracked_statistics_count_frames_witness :
  ∃ (st : stats float) (c : combined_stats float),
    calculate_movement_stats (csv_data (tracking_pass true sample_reads)) 30%float
    = inr (Some st)
    ∧ combined st = Some c
    ∧ combined_total_detections c = 1 ∧ unique_frames c = 1.
Proof.
  eexists _, _.
  assert (calculate_movement_stats (csv_data (tracking_pass true sample_reads))
            30%float
          = inr (Some {| left := hand_aggregate
                                   (csv_data (tracking_pass true sample_reads))
                                   30%float "Left";
                         right := None;
                         combined := combined_summary
                                       (csv_data (tracking_pass true sample_reads)) |}))
    as Hs by (vm_compute; reflexivity).
  split; [exact Hs|]. split; [reflexivity|].
  destruct (tracked_statistics_count_frames float _ sample_reads 30%float _ _
              Hs eq_refl) as (Hn & Hu & _).
  split; [exact Hn|exact Hu].
Defined.

(** * The menu *)

Section Menu.
Implicit Types (videos : list string) (n i : Z) (v : string).

Lemma py_index_inr {A} (l : list A) (k : nat) (x : A) :
  py_index l k = inr x ↔ l !! k = Some x.
Proof.
  unfold py_index. destruct (l !! k) as [y|]; simpl.
  - split; [by intros [= ->]|by intros [= ->]].
  - split; [done|done].
Qed.

Lemma elem_of_menu_rows videos n v :
  (n, v) ∈ menu_rows videos
  ↔ (1 ≤ n)%Z ∧ videos !! Z.to_nat (n - 1) = Some v.
Proof.
  unfold menu_rows. rewrite elem_of_lookup_imap. split.
  - intros (k & x & [= -> ->] & Hk). split; [lia|].
    by replace (Z.to_nat (Z.of_nat k + 1 - 1)) with k by lia.
  - intros [Hn Hv]. exists (Z.to_nat (n - 1)), v. split; [|done].
    f_equal. lia.
Qed.

(** A subscript that is not negative reads the list from the front, a
    negative one from the end; outside [[-len, len)] it raises. *)
Lemma py_getitem_inr {A} (l : list A) i (x : A) :
  py_getitem l i = inr x
  ↔ (0 ≤ i ∧ l !! Z.to_nat i = Some x)%Z
    ∨ (i < 0 ∧ - Z.of_nat (length l) ≤ i
       ∧ l !! Z.to_nat (Z.of_nat (length l) + i) = Some x)%Z.
Proof.
  unfold py_getitem.
  destruct (Z.leb_spec 0 i) as [Hi|Hi].
  - rewrite py_index_inr. split; [auto|]. intros [[_ ?]|[? _]]; [done|lia].
  - destruct (Z.leb_spec (- Z.of_nat (length l)) i) as [Hl|Hl].
    + rewrite py_index_inr. split; [auto|]. intros [[? _]|(_ & _ & ?)]; [lia|done].
    + split; [done|]. intros [[? _]|(_ & ? & _)]; lia.
Qed.

End Menu.

(** X7.  The number shown beside a video in the menu selects that
    video: choosing a number returns exactly the video of the row with
    that number, falls through to the next branch when no row has it,
    and its subscript never raises. *)
Theorem video_by_number_selects_its_row :
  ∀ (existing_videos : list string) (n : Z),
    (∀ v, (n, v) ∈ menu_rows existing_videos
          ↔ video_by_number n existing_videos = Some (inr v))
    ∧ (∀ e, video_by_number n existing_videos ≠ Some (inl e))
    ∧ (video_by_number n existing_videos = None
       ↔ ∀ v, (n, v) ∉ menu_rows existing_videos).
Proof.
  intros videos n. unfold video_by_number.
  destruct (Z.leb_spec 1 n) as [H1|H1];
    [destruct (Z.leb_spec n (Z.of_nat (length videos))) as [H2|H2]|]; simpl.
  - destruct (lookup_lt_is_Some_2 videos (Z.to_nat (n - 1))) as [v0 Hv0]; [lia|].
    assert (py_getitem videos (n - 1) = inr v0) as Hget.
    { apply py_getitem_inr. left. split; [lia|done]. }
    rewrite Hget. split_and!.
    + intros v. rewrite elem_of_menu_rows. split.
      * intros [_ Hv]. rewrite Hv0 in Hv. by injection Hv as ->.
      * intros [= ->]. done.
    + done.
    + split; [done|]. intros Hno. destruct (Hno v0).
      by apply elem_of_menu_rows.
  - split_and!.
    + intros v. rewrite elem_of_menu_rows. split; [|done].
      intros [_ Hv%lookup_lt_Some]. lia.
    + done.
    + split; [|done]. intros _ v [_ Hv%lookup_lt_Some]%elem_of_menu_rows. lia.
  - split_and!.
    + intros v. rewrite elem_of_menu_rows. split; [|done]. intros [? _]. lia.
    + done.
    + split; [|done]. intros _ v [? _]%elem_of_menu_rows. lia.
Qed.

(** X8.  [delete n] removes the video of row [n], and, the subscript
    [n - 1] being negative for [n <= 0], also the video of row
    [n + len(existing_videos)]: [delete 0] removes the last video of the
    list.  Every other number raises [IndexError], which the command
    answers as invalid. *)
Theorem delete_counts_from_the_end :
  ∀ (existing_videos : list string) (n : Z),
    (∀ v, vid_to_delete n existing_videos = inr v
          ↔ (n, v) ∈ menu_rows existing_videos
            ∨ (n + Z.of_nat (length existing_videos), v)%Z
              ∈ menu_rows existing_videos)
    ∧ (∀ e, vid_to_delete n existing_videos = inl e → e = IndexError)
    ∧ (vid_to_delete 0 existing_videos
       = match last existing_videos with
         | Some v => inr v
         | None => inl IndexError
         end).
Proof.
  intros videos n. unfold vid_to_delete. split_and!.
  - intros v. rewrite py_getitem_inr, !elem_of_menu_rows. split.
    + intros [[Hn Hv]|(Hn & Hl & Hv)].
      * left. split; [lia|done].
      * right. split; [lia|].
        by replace (n + Z.of_nat (length videos) - 1)%Z
          with (Z.of_nat (length videos) + (n - 1))%Z by lia.
    + intros [[Hn Hv]|[Hn Hv]].
      * left. split; [lia|done].
      * destruct (Z.le_gt_cases 1 n) as [H1|H1].
        { apply lookup_lt_Some in Hv. lia. }
        right. split; [lia|]. split; [lia|].
        by replace (Z.of_nat (length videos) + (n - 1))%Z
          with (n + Z.of_nat (length videos) - 1)%Z by lia.
  - intros e. unfold py_getitem, py_index.
    repeat case_match; simplify_eq; try done; by intros [= <-].
  - rewrite last_lookup. unfold py_getitem.
    destruct videos as [|v0 videos]; [done|].
    change (0 <=? 0 - 1)%Z with false. cbv iota.
    assert (1 ≤ Z.of_nat (length (v0 :: videos)))%Z as Hlen by (simpl; lia).
    rewrite (proj2 (Z.leb_le _ _)) by lia.
    replace (Z.to_nat (Z.of_nat (length (v0 :: videos)) + (0 - 1)))
      with (pred (length (v0 :: videos))) by lia.
    unfold py_index. by destruct (_ !! _).
Qed.

(** * The playback windows *)

(** X9.  The two windows of the side-by-side playback: for a width that
    is not negative the left window starts on the screen, the right one
    starts exactly where the left one ends, at the same height; when
    both fit in the 1920 columns of the screen they are centred, the
    margin on the right being the margin on the left or one column
    more; when they do not fit, the left window starts at column 0 and
    the right one runs off the screen. *)
Theorem windows_side_by_side :
  ∀ width : Z,
    (0 ≤ width)%Z →
    let w := window_positions width in
    (0 ≤ left_x w
     ∧ right_x w = left_x w + width
     ∧ left_y w = right_y w
     ∧ (2 * width ≤ screen_width →
        right_x w + width ≤ screen_width
        ∧ 0 ≤ (screen_width - (right_x w + width)) - left_x w ≤ 1)
     ∧ (screen_width < 2 * width →
        left_x w = 0 ∧ screen_width < right_x w + width))%Z.
Proof.
  intros width Hwidth. unfold window_positions, screen_width. simpl.
  pose proof (Z.div_mod (1920 - width * 2) 2 ltac:(lia)) as Hdiv.
  pose proof (Z.mod_pos_bound (1920 - width * 2) 2 ltac:(lia)) as Hmod.
  split; [lia|]. split; [done|]. split; [done|]. split.
  - intros Hfit. lia.
  - intros Hwide. lia.
Qed.

Lemma windows_side_by_side_witness :
  window_positions 640 = {| left_x := 320; left_y := 100;
                            right_x := 960; right_y := 100 |}
  ∧ (right_x (window_positions 640) + 640 ≤ screen_width)%Z.
Proof.
  split; [reflexivity|].
  refine (proj1 (proj1 (proj2 (proj2 (proj2
    (windows_side_by_side 640 _)))) _)); unfold screen_width; lia.
Defined.

(** * The 3-D trajectory *)

Section TrajectoryFacts.
Context {F : Type}.
Implicit Types (d e : detection F) (l hand_data : list (detection F)).

Lemma start_of_path_of hand_data :
  start_of (path_of hand_data)
  = inr (match sort_by_frame hand_data with
         | [] => None
         | d :: _ => Some {| marker_x := wrist_x d; marker_y := wrist_y d;
                             marker_z := wrist_z d; marker_text := frame d |}
         end).
Proof.
  destruct hand_data as [|d0 l0]; [done|]. unfold path_of.
  destruct (sort_by_frame (d0 :: l0)) as [|d l] eqn:Hsort; [|done].
  by apply sort_by_frame_nil_inv in Hsort.
Qed.

Lemma sorted_head_earliest d l hand_data :
  sort_by_frame hand_data = d :: l → earliest_record d hand_data.
Proof.
  intros Hsort. split.
  - intros e He. rewrite <- sort_by_frame_perm, Hsort in He.
    pose proof (sort_by_frame_sorted hand_data) as Hs. rewrite Hsort in Hs.
    apply Sorted_StronglySorted in Hs;
      [|intros x y z; unfold frame_le; lia].
    apply StronglySorted_inv in Hs as [_ Hd].
    apply elem_of_cons in He as [->|He]; [done|].
    by apply (proj1 (Forall_forall _ _) Hd).
  - rewrite <- sort_by_frame_stable, Hsort. by rewrite filter_cons_True.
Qed.

Lemma start_of_earliest hand_data start :
  start_of (path_of hand_data) = inr start →
  starts_at_earliest start hand_data.
Proof.
  rewrite start_of_path_of. intros [= <-].
  destruct (sort_by_frame hand_data) as [|d l] eqn:Hsort.
  - apply sort_by_frame_nil_inv in Hsort. subst. by split.
  - split.
    + split; [done|]. intros ->. done.
    + intros m [= <-]. exists d. split; [by eapply sorted_head_earliest|done].
Qed.

(** The function, step by step, when [csv_data] is not empty. *)
Lemma create_3d_trajectory_inr (csv_data : list (detection F)) :
  csv_data ≠ [] →
  ∃ fig, create_3d_trajectory csv_data = inr (Some fig)
         ∧ left_path fig = path_of (hand_subset csv_data "Left")
         ∧ right_path fig = path_of (hand_subset csv_data "Right")
         ∧ start_of (left_path fig) = inr (left_start fig)
         ∧ start_of (right_path fig) = inr (right_start fig)
         ∧ left_count fig = length (hand_subset csv_data "Left")
         ∧ right_count fig = length (hand_subset csv_data "Right")
         ∧ py_max_int (frame <$> csv_data) = inr (total_frames fig).
Proof.
  destruct csv_data as [|d l]; [done|]. intros _.
  unfold create_3d_trajectory. fold (hand_subset (d :: l) "Left").
  fold (hand_subset (d :: l) "Right").
  rewrite !start_of_path_of, !bind_inr_l. rewrite fmap_cons.
  unfold py_max_int. rewrite bind_ret_l.
  eexists. split; [reflexivity|]. simpl.
  by rewrite !start_of_path_of.
Qed.

End TrajectoryFacts.

(** X10.  [create_3d_trajectory] never raises: the subscripts [[0]] of
    the start markers are reached only for a hand that has records.  The
    start marker of a hand carries the position and the frame of the
    hand's earliest record, the first one in [csv_data] among those of
    the smallest frame number; and the frame count of the title is the
    largest frame number of the records. *)
Theorem trajectory_starts_at_earliest_record :
  ∀ (F : Type) (csv_data : list (detection F)),
    ∃ r, create_3d_trajectory csv_data = inr r
         ∧ (r = None ↔ csv_data = [])
         ∧ ∀ fig, r = Some fig →
             starts_at_earliest (left_start fig) (hand_subset csv_data "Left")
             ∧ starts_at_earliest (right_start fig) (hand_subset csv_data "Right")
             ∧ total_frames fig ∈ frame <$> csv_data
             ∧ ∀ d, d ∈ csv_data → (frame d ≤ total_frames fig)%Z.
Proof.
  intros F csv_data. destruct (decide (csv_data = [])) as [->|Hne].
  - exists None. by split.
  - destruct (create_3d_trajectory_inr csv_data Hne)
      as (fig & Hfig & Hl & Hr & Hls & Hrs & _ & _ & Hmax).
    exists (Some fig). split; [done|]. split; [done|].
    intros ? [= <-]. rewrite Hl in Hls. rewrite Hr in Hrs.
    split; [by apply start_of_earliest|].
    split; [by apply start_of_earliest|].
    destruct csv_data as [|d0 l0]; [done|]. rewrite fmap_cons in Hmax |- *.
    injection Hmax as <-.
    split; [apply max_int_from_elem|].
    intros d Hd. apply max_int_from_upper. rewrite <- fmap_cons.
    by apply list_elem_of_fmap_2.
Qed.

Section TrajectoryStatistics.
Context {F : Type} `{Number F}.

Lemma path_of_matches (csv_data : list (detection F)) fps hand_type o :
  hand_statistics csv_data fps hand_type = inr o →
  path_matches (path_of (hand_subset csv_data hand_type)) o.
Proof.
  intros Hs. destruct o as [hs|].
  - pose proof (hand_counts _ _ _ _ Hs) as [Hn Ha].
    apply hand_statistics_inr in Hs as [Hne _].
    unfold path_of. destruct (hand_subset csv_data hand_type) as [|d l] eqn:Hd;
      [done|]. unfold path_matches. cbn [path_x path_y path_z path_frames].
    rewrite !length_fmap, sort_by_frame_length, Hn, Ha.
    split_and!; try done.
    + apply size_frames_perm. by rewrite sort_by_frame_perm.
    + eapply Sorted_fmap; [|apply sort_by_frame_sorted]. done.
  - apply hand_statistics_None in Hs. by rewrite Hs.
Qed.

End TrajectoryStatistics.

(** X11.  The trajectory and the statistics of the same records agree:
    whenever the statistics are returned the figure is built, a hand has
    a path exactly when it has an entry, the entry's detections and
    active frames count the points and the distinct frames of the path,
    whose frames are in non-decreasing order, and the frame count of the
    title is the number the detection rate divides by. *)
Theorem trajectory_agrees_with_statistics :
  ∀ (F : Type) (N : Number F) (csv_data : list (detection F)) (fps : F)
    (st : stats F),
    calculate_movement_stats csv_data fps = inr (Some st) →
    ∃ fig, create_3d_trajectory csv_data = inr (Some fig)
           ∧ path_matches (left_path fig) (left st)
           ∧ path_matches (right_path fig) (right st)
           ∧ left_count fig = default 0 (total_detections <$> left st)
           ∧ right_count fig = default 0 (total_detections <$> right st)
           ∧ ∀ c, combined st = Some c →
               detection_rate c
               = if (0 <? total_frames fig)%Z
                 then mul (fdiv (of_int (Z.of_nat (unique_frames c)))
                                (of_int (total_frames fig)))
                          (of_int 100)
                 else zero.
Proof.
  intros F N csv_data fps st Hs.
  apply calculate_movement_stats_inr in Hs as (Hne & Hleft & Hright & Hc).
  destruct (create_3d_trajectory_inr csv_data Hne)
    as (fig & Hfig & Hl & Hr & _ & _ & Hlc & Hrc & Hmax).
  exists fig. split; [done|]. rewrite Hl, Hr, Hlc, Hrc.
  split; [by eapply path_of_matches|]. split; [by eapply path_of_matches|].
  assert (∀ hand_type o,
            hand_statistics csv_data fps hand_type = inr o →
            length (hand_subset csv_data hand_type)
            = default 0 (total_detections <$> o)) as Hlen.
  { intros hand_type [hs|] Ho; simpl.
    - by apply hand_counts in Ho as [-> _].
    - by apply hand_statistics_None in Ho as ->. }
  split; [by apply Hlen|]. split; [by apply Hlen|].
  intros c Hcc. rewrite Hc in Hcc.
  destruct csv_data as [|d l]; [done|]. unfold combined_summary in Hcc.
  rewrite fmap_cons in Hmax. injection Hmax as <-.
  by injection Hcc as <-.
Qed.

Lemma trajectory_agrees_with_statistics_witness :
  ∃ fig : figure float,
    create_3d_trajectory scenario_345 = inr (Some fig)
    ∧ left_count fig = 3 ∧ right_count fig = 0 ∧ total_frames fig = 3%Z.
Proof.
  destruct (trajectory_agrees_with_statistics float _ scenario_345 30%float
              {| left := hand_aggregate scenario_345 30%float "Left";
                 right := None;
                 combined := combined_summary scenario_345 |})
    as (fig & Hfig & _ & _ & Hl & Hr & _).
  { vm_compute. reflexivity. }
  exists fig. split; [exact Hfig|]. split; [exact Hl|]. split; [exact Hr|].
  vm_compute in Hfig. by injection Hfig as <-.
Defined.

(** * The old files of a video *)

Section FileNames.
Implicit Types (s p t : string).

Lemma string_length_app s t :
  String.length (s +:+ t) = String.length s + String.length t.
Proof.
  induction s as [|c s IH]; [done|].
  rewrite string_app_cons. simpl. by rewrite IH.
Qed.

Lemma substring_all t : String.substring 0 (String.length t) t = t.
Proof. induction t as [|c t IH]; [done|]. simpl. by rewrite IH. Qed.

Lemma substring_app_r s t :
  String.substring (String.length s) (String.length t) (s +:+ t) = t.
Proof.
  induction s as [|c s IH].
  - rewrite string_app_nil. apply substring_all.
  - rewrite string_app_cons. simpl. exact IH.
Qed.

Lemma endswith_app s p : endswith (s +:+ p) p = true.
Proof.
  unfold endswith. rewrite string_length_app.
  rewrite (proj2 (Nat.leb_le _ _)) by lia.
  replace (String.length s + String.length p - String.length p)
    with (String.length s) by lia.
  rewrite substring_app_r. simpl. apply String.eqb_refl.
Qed.

Lemma startswith_app s p t : startswith s p = true → startswith (s +:+ t) p = true.
Proof.
  unfold startswith. revert s. induction p as [|a p IH]; intros s.
  - by destruct (s +:+ t).
  - destruct s as [|b s]; [done|]. rewrite string_app_cons. simpl.
    destruct (ascii_dec a b); [apply IH|done].
Qed.

End FileNames.

Section CleaningFacts.
Variable removable : string → bool.
Implicit Types (found folder : list string) (f : string).

(** Nothing appears in the folder, and what was not found stays. *)
Lemma remove_files_subset found folder count f :
  f ∈ (remove_files removable found folder count).2 → f ∈ folder.
Proof.
  revert folder count. induction found as [|file found IH]; intros folder count;
    simpl; [done|].
  destruct (bool_decide (file ∈ folder) && removable file).
  - intros Hf%IH. by apply list_elem_of_filter in Hf as [_ ?].
  - apply IH.
Qed.

Lemma remove_files_keeps found folder count f :
  f ∈ folder → f ∉ found →
  f ∈ (remove_files removable found folder count).2.
Proof.
  revert folder count. induction found as [|file found IH]; intros folder count;
    simpl; [done|].
  intros Hf [Hne Hnot]%not_elem_of_cons.
  destruct (bool_decide (file ∈ folder) && removable file).
  - apply IH; [|done]. by apply list_elem_of_filter.
  - by apply IH.
Qed.

Lemma length_filter_ne folder f :
  NoDup folder → f ∈ folder →
  S (length (filter (λ g, g ≠ f) folder)) = length folder.
Proof.
  induction 1 as [|g folder Hg Hnd IH]; [by intros ?%not_elem_of_nil|].
  intros [->|Hf]%elem_of_cons.
  - rewrite filter_cons_False by (by intros ?). simpl. f_equal.
    f_equal. apply filter_all, Forall_forall. intros h Hh ->. done.
  - rewrite filter_cons_True by (by intros ->). simpl. by rewrite IH.
Qed.

(** Each deletion counted is one name less in the folder. *)
Lemma remove_files_count found folder count :
  NoDup folder →
  length (remove_files removable found folder count).2
  + (remove_files removable found folder count).1
  = length folder + count.
Proof.
  revert folder count. induction found as [|file found IH]; intros folder count Hnd;
    simpl; [done|].
  destruct (bool_decide_reflect (file ∈ folder)) as [Hin|Hout]; simpl.
  - destruct (removable file); [|by apply IH].
    rewrite IH by (by apply NoDup_filter).
    pose proof (length_filter_ne folder file Hnd Hin). lia.
  - by apply IH.
Qed.

(** When every deletion succeeds nothing that was found is left. *)
Lemma remove_files_all found folder count f :
  (∀ g, g ∈ found → removable g = true) →
  f ∈ found → f ∉ (remove_files removable found folder count).2.
Proof.
  revert folder count. induction found as [|file found IH]; intros folder count;
    simpl; [by intros _ ?%not_elem_of_nil|].
  intros Hrem Hf.
  assert (∀ g, g ∈ found → removable g = true) as Hrem'
    by (intros g Hg; apply Hrem; by right).
  rewrite (Hrem file) by (by left). rewrite andb_true_r.
  destruct (decide (f = file)) as [->|Hne].
  - destruct (bool_decide_reflect (file ∈ folder)) as [Hin|Hout].
    + intros Hfile%remove_files_subset.
      by apply list_elem_of_filter in Hfile as [? _].
    + intros Hfile%remove_files_subset. done.
  - apply elem_of_cons in Hf as [->|Hf]; [done|].
    destruct (bool_decide (file ∈ folder)); by apply IH.
Qed.

End CleaningFacts.

(** X12.  [clean_old_csv_files] on a folder: no name appears; every name
    that does not both start with [base_name] and end with
    [_hand_data.csv] is kept; the count returned is the number of names
    that went; and when no deletion fails no matching name is left. *)
Theorem clean_old_csv_files_removes_the_matches :
  ∀ (removable : string → bool) (base_name : string) (csv_folder : list string),
    NoDup csv_folder →
    let cleaned := clean_old_csv_files removable base_name csv_folder in
    let matches f :=
      startswith f base_name && endswith f "_hand_data.csv" = true in
    (∀ f, f ∈ cleaned.2 → f ∈ csv_folder)
    ∧ (∀ f, f ∈ csv_folder → ¬ matches f → f ∈ cleaned.2)
    ∧ length cleaned.2 + cleaned.1 = length csv_folder
    ∧ ((∀ f, removable f = true) → ∀ f, f ∈ cleaned.2 → ¬ matches f).
Proof.
  intros removable base_name csv_folder Hnd cleaned matches.
  unfold cleaned, clean_old_csv_files. split_and!.
  - intros f. apply remove_files_subset.
  - intros f Hf Hno. apply remove_files_keeps; [done|].
    intros [Hm _]%list_elem_of_filter. apply Hno. unfold matches.
    by apply Is_true_true.
  - rewrite remove_files_count by done. lia.
  - intros Hrem f Hf Hm.
    assert (f ∈ csv_folder) as Hin by (by eapply remove_files_subset).
    revert Hf. apply remove_files_all; [auto|].
    apply list_elem_of_filter. split; [|done]. by apply Is_true_true.
Qed.

Lemma clean_old_csv_files_removes_the_matches_witness :
  clean_old_csv_files (λ _, true) "clip"
    ["clip_hand_data.csv"; "other_hand_data.csv"; "clip.txt"]
  = (1, ["other_hand_data.csv"; "clip.txt"])
  ∧ length (clean_old_csv_files (λ _, true) "clip"
              ["clip_hand_data.csv"; "other_hand_data.csv"; "clip.txt"]).2
    + (clean_old_csv_files (λ _, true) "clip"
         ["clip_hand_data.csv"; "other_hand_data.csv"; "clip.txt"]).1 = 3.
Proof.
  split; [vm_compute; reflexivity|].
  refine (proj1 (proj2 (proj2
    (clean_old_csv_files_removes_the_matches (λ _, true) "clip"
       ["clip_hand_data.csv"; "other_hand_data.csv"; "clip.txt"] _)))).
  refine (bool_decide_unpack _ _). vm_compute. exact I.
Defined.

(** X13.  The match of [clean_old_csv_files] is by prefix: preparing the
    video [base_name] deletes its own file of records and also the file
    of records of every other video whose name starts with
    [base_name]. *)
Theorem clean_old_csv_files_deletes_by_prefix :
  ∀ (removable : string → bool) (base_name video : string)
    (csv_folder : list string),
    (∀ f, removable f = true) →
    startswith video base_name = true →
    csv_file video ∉ (clean_old_csv_files removable base_name csv_folder).2.
Proof.
  intros removable base_name video csv_folder Hrem Hstart Hin.
  assert (csv_file video ∈ csv_folder) as Hfolder
    by (by eapply remove_files_subset).
  revert Hin. apply remove_files_all; [auto|].
  apply list_elem_of_filter. split; [|done].
  apply Is_true_true, andb_true_iff. unfold csv_file. split.
  - by apply startswith_app.
  - apply endswith_app.
Qed.

Lemma clean_old_csv_files_deletes_by_prefix_witness :
  clean_old_csv_files (λ _, true) "clip"
    ["clip_hand_data.csv"; "clip2_hand_data.csv"; "other_hand_data.csv"]
  = (2, ["other_hand_data.csv"])
  ∧ csv_file "clip2"
    ∉ (clean_old_csv_files (λ _, true) "clip"
         ["clip_hand_data.csv"; "clip2_hand_data.csv"; "other_hand_data.csv"]).2.
Proof.
  split; [vm_compute; reflexivity|].
  apply (clean_old_csv_files_deletes_by_prefix (λ _, true) "clip" "clip2").
  - reflexivity.
  - reflexivity.
Defined.

(** X14.  [clean_old_report_files] matches by equality: only the
    trajectory and the report of [base_name] itself can go, every other
    name of the folder is kept, and the count returned is at most 2. *)
Theorem clean_old_report_files_removes_two_names :
  ∀ (removable : string → bool) (base_name : string)
    (reports_folder : list string),
    NoDup reports_folder →
    let cleaned := clean_old_report_files removable base_name reports_folder in
    (∀ f, f ∈ cleaned.2 → f ∈ reports_folder)
    ∧ (∀ f, f ∈ reports_folder →
            f ≠ base_name +:+ "_3d_trajectory.html" →
            f ≠ base_name +:+ "_tracking_report.txt" →
            f ∈ cleaned.2)
    ∧ length cleaned.2 + cleaned.1 = length reports_folder
    ∧ cleaned.1 ≤ 2
    ∧ ((∀ f, removable f = true) →
       ∀ f, f ∈ report_patterns base_name → f ∉ cleaned.2).
Proof.
  intros removable base_name reports_folder Hnd cleaned.
  unfold cleaned, clean_old_report_files.
  set (found := filter (λ f, f ∈ report_patterns base_name) reports_folder).
  assert (length reports_folder
          ≤ length (remove_files removable found reports_folder 0).2 + 2) as Hkept.
  { set (rest := (remove_files removable found reports_folder 0).2).
    assert (filter (λ f, f ∉ report_patterns base_name) reports_folder ⊆ rest)
      as Hsub.
    { intros f [Hf Hin]%list_elem_of_filter.
      apply remove_files_keeps; [done|].
      by intros [? _]%list_elem_of_filter. }
    assert (NoDup found) as Hfound by (by apply NoDup_filter).
    assert (length found ≤ 2) as Hfew.
    { change 2 with (length (report_patterns base_name)).
      apply submseteq_length, NoDup_submseteq; [done|].
      by intros f [? _]%list_elem_of_filter. }
    assert (length (filter (λ f, f ∉ report_patterns base_name) reports_folder)
            ≤ length rest) as Hle.
    { apply submseteq_length, NoDup_submseteq; [by apply NoDup_filter|done]. }
    pose proof (Permutation_length
                  (filter_app_complement (λ f, f ∈ report_patterns base_name)
                     reports_folder)) as Hsplit.
    rewrite length_app in Hsplit. fold found in Hsplit. lia. }
  pose proof (remove_files_count removable found reports_folder 0 Hnd) as Hcount.
  split_and!.
  - intros f. apply remove_files_subset.
  - intros f Hf H1 H2. apply remove_files_keeps; [done|].
    intros [Hm _]%list_elem_of_filter. unfold report_patterns in Hm.
    apply elem_of_cons in Hm as [->|Hm]; [done|].
    apply list_elem_of_singleton in Hm. done.
  - lia.
  - lia.
  - intros Hrem f Hf Hin.
    assert (f ∈ reports_folder) as Hfolder by (by eapply remove_files_subset).
    revert Hin. apply remove_files_all; [auto|].
    by apply list_elem_of_filter.
Qed.

Lemma clean_old_report_files_removes_two_names_witness :
  clean_old_report_files (λ _, true) "clip"
    ["clip_tracking_report.txt"; "clip2_tracking_report.txt"]
  = (1, ["clip2_tracking_report.txt"])
  ∧ (clean_old_report_files (λ _, true) "clip"
       ["clip_tracking_report.txt"; "clip2_tracking_report.txt"]).1 ≤ 2.
Proof.
  split; [vm_compute; reflexivity|].
  refine (proj1 (proj2 (proj2 (proj2
    (clean_old_report_files_removes_two_names (λ _, true) "clip"
       ["clip_tracking_report.txt"; "clip2_tracking_report.txt"] _))))).
  refine (bool_decide_unpack _ _). vm_compute. exact I.
Defined.

(** * The report *)

Section ReportFacts.
Context {F : Type} `{Number F} `{Truncation F}.
Implicit Types (h : string * hand_stats F) (hands : list (string * hand_stats F)).

Lemma percentage_inr (active_frames : nat) (total_frames : Z) :
  total_frames ≠ 0%Z →
  percentage active_frames total_frames
  = inr (mul (fdiv (of_int (Z.of_nat active_frames)) (of_int total_frames))
             (of_int 100)).
Proof. intros Hn. unfold percentage. by rewrite py_div_int_inr. Qed.

(** The rows of the console table are always computed. *)
Lemma table_rows_inr (total_frames : Z) hands :
  for_each (table_row total_frames) hands
  = inr (row_with (if (0 <? total_frames)%Z then rate_of total_frames
                   else λ _, zero) <$> hands).
Proof.
  induction hands as [|h hands IH]; [done|].
  cbn [for_each]. rewrite IH. unfold table_row.
  destruct (Z.ltb_spec 0 total_frames) as [Hpos|Hneg].
  - by rewrite percentage_inr by lia.
  - done.
Qed.

(** Those of the file are, for a frame total that is not zero. *)
Lemma written_rows_inr (total_frames : Z) hands :
  total_frames ≠ 0%Z →
  for_each (written_row total_frames) hands
  = inr (row_with (rate_of total_frames) <$> hands).
Proof.
  intros Hn. induction hands as [|h hands IH]; [done|].
  cbn [for_each]. rewrite IH. unfold written_row.
  by rewrite percentage_inr by done.
Qed.

Lemma written_rows_zero hands :
  hands ≠ [] →
  for_each (written_row 0) hands = inl (Exn ZeroDivisionError).
Proof. by destruct hands. Qed.

(** The function, once the statistics and the frame total are there. *)
Lemma generate_tracking_report_steps (csv_data : list (detection F))
    fps duration_sec r (total_frames : Z) :
  csv_data ≠ [] →
  calculate_movement_stats csv_data fps = inr r →
  py_int_of_float (mul duration_sec fps) = inr total_frames →
  generate_tracking_report csv_data fps duration_sec
  = summary ← for_each (written_row total_frames) (present_hands r);
    mret (Some {| shown_total_frames := total_frames;
                  detection_table :=
                    row_with (if (0 <? total_frames)%Z then rate_of total_frames
                              else λ _, zero) <$> present_hands r;
                  written_total_frames := total_frames;
                  written_summary := summary |}).
Proof.
  intros Hne Hs Hint. unfold generate_tracking_report.
  destruct csv_data as [|d l]; [done|].
  rewrite Hs, Hint. cbn [lift mbind outcome_bind].
  by rewrite table_rows_inr.
Qed.

End ReportFacts.

(** X15.  The detection rate of the report file is computed without the
    guard the console table has: when the frame total
    [int(duration_sec * fps)] is [0] and a hand has an entry,
    [generate_tracking_report] raises [ZeroDivisionError] while writing
    the file, after the table has been computed with a rate of [0] for
    each hand. *)
Theorem report_file_divides_by_zero_frames :
  ∀ (F : Type) (N : Number F) (T : Truncation F)
    (csv_data : list (detection F)) (fps duration_sec : F) (st : stats F),
    calculate_movement_stats csv_data fps = inr (Some st) →
    present_hands (Some st) ≠ [] →
    py_int_of_float (mul duration_sec fps) = inr 0%Z →
    generate_tracking_report csv_data fps duration_sec
    = inl (Exn ZeroDivisionError)
    ∧ for_each (table_row 0) (present_hands (Some st))
      = inr (row_with (λ _, zero) <$> present_hands (Some st)).
Proof.
  intros F N T csv_data fps duration_sec st Hs Hhands Hint. split.
  - rewrite (generate_tracking_report_steps csv_data fps duration_sec
               (Some st) 0); [|by destruct csv_data|done|done].
    by rewrite written_rows_zero.
  - exact (table_rows_inr 0 (present_hands (Some st))).
Qed.

Lemma report_file_divides_by_zero_frames_witness :
  main_duration_sec 0 30%float = inr 0%float
  ∧ generate_tracking_report scenario_345 30%float 0%float
    = inl (Exn ZeroDivisionError).
Proof.
  split; [vm_compute; reflexivity|].
  refine (proj1 (report_file_divides_by_zero_frames float _ _ scenario_345
                   30%float 0%float
                   {| left := hand_aggregate scenario_345 30%float "Left";
                      right := None;
                      combined := combined_summary scenario_345 |} _ _ _)).
  - vm_compute. reflexivity.
  - discriminate.
  - vm_compute. reflexivity.
Defined.

(** X16.  With a frame total [int(duration_sec * fps)] that is not [0]
    the report is produced whenever the statistics are: one row per hand
    that has an entry, in the table and in the file, with the entry's
    detections and active frames; the file's rate is the active frames
    divided by the frame total, times 100, and so is the table's when
    the total is positive, while for a negative total the table shows
    [0]. *)
Theorem report_rates_over_frame_total :
  ∀ (F : Type) (N : Number F) (T : Truncation F)
    (csv_data : list (detection F)) (fps duration_sec : F)
    (r : option (stats F)) (total_frames : Z),
    csv_data ≠ [] →
    calculate_movement_stats csv_data fps = inr r →
    py_int_of_float (mul duration_sec fps) = inr total_frames →
    total_frames ≠ 0%Z →
    generate_tracking_report csv_data fps duration_sec
    = inr (Some {| shown_total_frames := total_frames;
                   detection_table :=
                     row_with (if (0 <? total_frames)%Z
                               then rate_of total_frames else λ _, zero)
                       <$> present_hands r;
                   written_total_frames := total_frames;
                   written_summary :=
                     row_with (rate_of total_frames) <$> present_hands r |}).
Proof.
  intros F N T csv_data fps duration_sec r total_frames Hne Hs Hint Hn.
  rewrite (generate_tracking_report_steps csv_data fps duration_sec r
             total_frames) by done.
  by rewrite written_rows_inr by done.
Qed.

Lemma report_rates_over_frame_total_witness :
  ∃ rep : report float,
    generate_tracking_report scenario_345 30%float 0.1%float = inr (Some rep)
    ∧ shown_total_frames rep = 3%Z
    ∧ row_rate <$> written_summary rep = [100%float].
Proof.
  eexists. split.
  - refine (report_rates_over_frame_total float _ _ scenario_345 30%float
              0.1%float (Some {| left := hand_aggregate scenario_345 30%float "Left";
                                 right := None;
                                 combined := combined_summary scenario_345 |})
              3 _ _ _ _).
    + discriminate.
    + vm_compute. reflexivity.
    + vm_compute. reflexivity.
    + discriminate.
  - split; [reflexivity|]. vm_compute. reflexivity.
Defined.

(** * The heat map *)

Section HeatmapFacts.
Context {F : Type} `{Number F} `{Truncation F}.
Implicit Types (heatmap a : list (list F)) (entry : detection F).
Implicit Types (csv_data : list (detection F)).

Lemma np_subscript_inr (n : nat) (i : Z) :
  (0 ≤ i < Z.of_nat n)%Z → np_subscript n i = inr (Z.to_nat i).
Proof.
  intros Hi. unfold np_subscript.
  by rewrite (proj2 (Z.leb_le _ _)), (proj2 (Z.ltb_lt _ _)) by lia.
Qed.

Lemma grid_shaped_zeros : grid_shaped (np_zeros (F:=F) grid_height grid_width).
Proof.
  unfold grid_shaped, np_zeros. rewrite length_replicate. split; [done|].
  apply Forall_replicate, length_replicate.
Qed.

(** Inside the grid the addition finds its cell and changes it alone. *)
Lemma np_add_at_inr a (i j : Z) (w : F) :
  grid_shaped a →
  (0 ≤ i < grid_height)%Z → (0 ≤ j < grid_width)%Z →
  ∃ row x,
    a !! Z.to_nat i = Some row ∧ row !! Z.to_nat j = Some x
    ∧ np_add_at a i j w
      = inr (<[Z.to_nat i := <[Z.to_nat j := add x w]> row]> a).
Proof.
  intros [Hrows Hcols] Hi Hj. unfold grid_height, grid_width in *.
  destruct (lookup_lt_is_Some_2 a (Z.to_nat i)) as [row Hrow]; [lia|].
  assert (length row = Z.to_nat 80) as Hlen
    by (by eapply (proj1 (Forall_lookup _ _) Hcols)).
  destruct (lookup_lt_is_Some_2 row (Z.to_nat j)) as [x Hx]; [lia|].
  exists row, x. split; [done|]. split; [done|].
  unfold np_add_at. rewrite np_subscript_inr, bind_inr_l by lia.
  unfold py_index. rewrite Hrow, bind_ret_l.
  rewrite np_subscript_inr, bind_inr_l by lia.
  by rewrite Hx, bind_ret_l.
Qed.

Lemma grid_shaped_insert a (i j : nat) row (y : F) :
  grid_shaped a → a !! i = Some row →
  grid_shaped (<[i := <[j := y]> row]> a).
Proof.
  intros [Hrows Hcols] Hrow. split.
  - by rewrite length_insert.
  - apply Forall_insert; [done|]. rewrite length_insert.
    by eapply (proj1 (Forall_lookup _ _) Hcols).
Qed.

(** One entry: the conversions may raise; past them the addition is
    inside the grid. *)
Lemma heatmap_step_inr heatmap entry (grid_x grid_y : Z) :
  grid_shaped heatmap →
  py_int_of_float (mul (wrist_x entry) (of_int (grid_width - 1))) = inr grid_x →
  py_int_of_float (mul (wrist_y entry) (of_int (grid_height - 1))) = inr grid_y →
  ∃ row x,
    let i := Z.to_nat (Z.max 0 (Z.min (grid_height - 1) grid_y)) in
    let j := Z.to_nat (Z.max 0 (Z.min (grid_width - 1) grid_x)) in
    heatmap !! i = Some row ∧ row !! j = Some x
    ∧ heatmap_step heatmap entry
      = inr (<[i := <[j := add x (weight_of entry)]> row]> heatmap).
Proof.
  intros Hshape Hx Hy. unfold heatmap_step. rewrite Hx, Hy.
  cbn [mbind outcome_bind].
  destruct (np_add_at_inr heatmap
              (Z.max 0 (Z.min (grid_height - 1) grid_y))
              (Z.max 0 (Z.min (grid_width - 1) grid_x))
              (weight_of entry) Hshape)
    as (row & x & Hrow & Hcell & ->);
    [unfold grid_height; lia|unfold grid_width; lia|].
  by exists row, x.
Qed.

Lemma heatmap_step_cases heatmap entry :
  grid_shaped heatmap →
  (∃ e, heatmap_step heatmap entry = inl e
        ∧ (py_int_of_float (mul (wrist_x entry) (of_int (grid_width - 1))) = inl e
           ∨ py_int_of_float (mul (wrist_y entry) (of_int (grid_height - 1)))
             = inl e))
  ∨ (∃ heatmap', heatmap_step heatmap entry = inr heatmap'
                 ∧ grid_shaped heatmap').
Proof.
  intros Hshape.
  destruct (py_int_of_float (mul (wrist_x entry) (of_int (grid_width - 1))))
    as [e|grid_x] eqn:Hx.
  { left. exists e. split; [|by left]. unfold heatmap_step. by rewrite Hx. }
  destruct (py_int_of_float (mul (wrist_y entry) (of_int (grid_height - 1))))
    as [e|grid_y] eqn:Hy.
  { left. exists e. split; [|by right]. unfold heatmap_step. by rewrite Hx, Hy. }
  right. destruct (heatmap_step_inr heatmap entry grid_x grid_y Hshape Hx Hy)
    as (row & x & Hrow & _ & Hstep).
  eexists. split; [exact Hstep|]. by apply grid_shaped_insert.
Qed.

Lemma heatmap_loop_cases csv_data heatmap :
  grid_shaped heatmap →
  (∃ e entry,
     heatmap_loop csv_data heatmap = inl e ∧ entry ∈ csv_data
     ∧ (py_int_of_float (mul (wrist_x entry) (of_int (grid_width - 1))) = inl e
        ∨ py_int_of_float (mul (wrist_y entry) (of_int (grid_height - 1)))
          = inl e))
  ∨ (∃ heatmap', heatmap_loop csv_data heatmap = inr heatmap'
                 ∧ grid_shaped heatmap').
Proof.
  revert heatmap. induction csv_data as [|entry csv_data IH]; intros heatmap Hshape.
  - right. by exists heatmap.
  - cbn [heatmap_loop].
    destruct (heatmap_step_cases heatmap entry Hshape)
      as [(e & -> & He)|(heatmap' & -> & Hshape')].
    + left. exists e, entry. split; [done|]. split; [by left|done].
    + cbn [mbind outcome_bind].
      destruct (IH heatmap' Hshape')
        as [(e & entry' & Hloop & Hin & He)|(heatmap'' & Hloop & Hshape'')].
      * left. exists e, entry'. split; [done|]. split; [by right|done].
      * right. by exists heatmap''.
Qed.

End HeatmapFacts.

(** X17.  The loop that fills the heat map never raises [IndexError]:
    the clamp puts every entry in a cell of the grid.  The only
    exceptions are those of the conversion [int] of an entry's scaled
    coordinate; when every conversion succeeds the loop returns, and the
    grid it returns keeps its [grid_height] rows of [grid_width]
    cells. *)
Theorem heatmap_loop_stays_in_the_grid :
  ∀ (F : Type) (N : Number F) (T : Truncation F) (csv_data : list (detection F)),
    let scaled_x entry := mul (wrist_x entry) (of_int (grid_width - 1)) in
    let scaled_y entry := mul (wrist_y entry) (of_int (grid_height - 1)) in
    let filled := heatmap_loop csv_data (np_zeros grid_height grid_width) in
    (∀ e, filled = inl e →
          ∃ entry, entry ∈ csv_data
                   ∧ (py_int_of_float (scaled_x entry) = inl e
                      ∨ py_int_of_float (scaled_y entry) = inl e))
    ∧ (∀ heatmap, filled = inr heatmap → grid_shaped heatmap)
    ∧ ((∀ entry, entry ∈ csv_data →
                 ∃ grid_x grid_y,
                   py_int_of_float (scaled_x entry) = inr grid_x
                   ∧ py_int_of_float (scaled_y entry) = inr grid_y) →
       ∃ heatmap, filled = inr heatmap).
Proof.
  intros F N T csv_data scaled_x scaled_y filled.
  destruct (heatmap_loop_cases csv_data (np_zeros grid_height grid_width)
              grid_shaped_zeros)
    as [(e & entry & Hloop & Hin & He)|(heatmap & Hloop & Hshape)];
    fold filled in Hloop; rewrite Hloop.
  - split_and!.
    + intros ? [= <-]. by exists entry.
    + done.
    + intros Hall. destruct (Hall entry Hin) as (gx & gy & Hx & Hy).
      unfold scaled_x, scaled_y in *. rewrite Hx, Hy in He.
      by destruct He.
  - split_and!; [done| |by eexists]. by intros ? [= <-].
Qed.

(** ** The heat map without rounding *)

Section Grids.
Context {A : Type}.
Implicit Types (g : list (list A)) (row : list A).

Lemma elem_of_concat (x : A) g : x ∈ concat g ↔ ∃ row, row ∈ g ∧ x ∈ row.
Proof.
  induction g as [|row g IH]; simpl.
  - split; [by intros ?%not_elem_of_nil|by intros (? & ?%not_elem_of_nil & _)].
  - rewrite elem_of_app, IH. split.
    + intros [Hx|(row' & Hrow & Hx)].
      * exists row. split; [by left|done].
      * exists row'. split; [by right|done].
    + intros (row' & [->|Hrow]%elem_of_cons & Hx); [by left|].
      right. by exists row'.
Qed.

Lemma length_concat_shaped g (n m : nat) :
  length g = n → Forall (λ row, length row = m) g → length (concat g) = n * m.
Proof.
  intros <- Hcols. induction Hcols as [|row g Hrow _ IH]; [done|].
  simpl. rewrite length_app, IH, Hrow. lia.
Qed.

Lemma grid_shaped_fmap {B} (f : A → B) g :
  grid_shaped g → grid_shaped ((λ row, f <$> row) <$> g).
Proof.
  intros [Hrows Hcols]. split; [by rewrite length_fmap|].
  apply Forall_fmap. eapply Forall_impl; [exact Hcols|].
  intros row Hrow. simpl. by rewrite length_fmap.
Qed.

(** A loop over a list whose every step returns. *)
Lemma for_each_inr {B} (f : A → outcome B) (Q : A → B → Prop) (l : list A) :
  (∀ x, x ∈ l → ∃ y, f x = inr y ∧ Q x y) →
  ∃ ys, for_each f l = inr ys ∧ Forall2 Q l ys.
Proof.
  induction l as [|x l IH]; intros Hl.
  - exists []. by split.
  - destruct (Hl x) as (y & Hy & HQ); [by left|].
    destruct IH as (ys & Hys & HQs); [intros z Hz; apply Hl; by right|].
    exists (y :: ys). cbn [for_each]. rewrite Hy, Hys. split; [done|].
    by constructor.
Qed.

End Grids.

Section RealHeatmap.
Local Open Scope R_scope.
Implicit Types (g heatmap : list (list R)) (entry : detection R).
Implicit Types (csv_data : list (detection R)).

Lemma R_weight_pos entry : 0 < weight_of entry.
Proof. unfold weight_of. case_decide; simpl; lra. Qed.

Lemma R_heatmap_step heatmap entry :
  grid_shaped heatmap → nonneg_grid heatmap →
  ∃ heatmap', heatmap_step heatmap entry = inr heatmap'
              ∧ grid_shaped heatmap' ∧ nonneg_grid heatmap'
              ∧ positive_cell heatmap'.
Proof.
  intros Hshape Hnn.
  assert (py_int_of_float (mul (wrist_x entry) (of_int (grid_width - 1)))
          = inr (R_trunc (mul (wrist_x entry) (of_int (grid_width - 1)))))
    as Hgx by reflexivity.
  assert (py_int_of_float (mul (wrist_y entry) (of_int (grid_height - 1)))
          = inr (R_trunc (mul (wrist_y entry) (of_int (grid_height - 1)))))
    as Hgy by reflexivity.
  destruct (heatmap_step_inr heatmap entry _ _ Hshape Hgx Hgy)
    as (row & x & Hrow & Hx & Hstep). cbv zeta in *.
  set (i := Z.to_nat (Z.max 0 (Z.min (grid_height - 1)
              (R_trunc (mul (wrist_y entry) (of_int (grid_height - 1))))))) in *.
  set (j := Z.to_nat (Z.max 0 (Z.min (grid_width - 1)
              (R_trunc (mul (wrist_x entry) (of_int (grid_width - 1))))))) in *.
  assert (Forall (λ x, 0 <= x) row) as Hrow_nn
    by (by eapply (proj1 (Forall_lookup _ _) Hnn)).
  assert (0 <= x) as Hx_nn by (by eapply (proj1 (Forall_lookup _ _) Hrow_nn)).
  pose proof (R_weight_pos entry) as Hw.
  eexists. split; [exact Hstep|]. split; [by apply grid_shaped_insert|].
  split.
  - apply Forall_insert; [done|]. apply Forall_insert; [done|]. simpl. lra.
  - exists (<[j := add x (weight_of entry)]> row), (add x (weight_of entry)).
    split; [|split].
    + apply list_elem_of_lookup. exists i. apply list_lookup_insert_eq.
      by eapply lookup_lt_Some.
    + apply list_elem_of_lookup. exists j. apply list_lookup_insert_eq.
      by eapply lookup_lt_Some.
    + simpl. lra.
Qed.

Lemma R_heatmap_loop csv_data heatmap :
  grid_shaped heatmap → nonneg_grid heatmap →
  ∃ heatmap', heatmap_loop csv_data heatmap = inr heatmap'
              ∧ grid_shaped heatmap' ∧ nonneg_grid heatmap'
              ∧ (csv_data ≠ [] ∨ positive_cell heatmap → positive_cell heatmap').
Proof.
  revert heatmap. induction csv_data as [|entry csv_data IH];
    intros heatmap Hshape Hnn.
  - exists heatmap. split; [done|]. split; [done|]. split; [done|].
    by intros [?|?].
  - destruct (R_heatmap_step heatmap entry Hshape Hnn)
      as (heatmap1 & Hstep & Hshape1 & Hnn1 & Hpos1).
    destruct (IH heatmap1 Hshape1 Hnn1) as (heatmap' & Hloop & Hshape' & Hnn' & Hpos').
    exists heatmap'. cbn [heatmap_loop]. rewrite Hstep. split; [exact Hloop|].
    split; [done|]. split; [done|]. intros _. apply Hpos'. by right.
Qed.

(** The division by the largest cell brings every cell into [[0, 1]]
    and the largest to [1]. *)
Lemma R_normalize heatmap :
  grid_shaped heatmap → nonneg_grid heatmap → positive_cell heatmap →
  ∃ heatmap', normalize heatmap = inr heatmap'
              ∧ grid_shaped heatmap'
              ∧ Forall (Forall (λ v, 0 <= v <= 1)) heatmap'
              ∧ ∃ row, row ∈ heatmap' ∧ 1 ∈ row.
Proof.
  intros Hshape Hnn (row0 & x0 & Hrow0 & Hx0 & Hpos).
  assert (x0 ∈ concat heatmap) as Hin by (apply elem_of_concat; eauto).
  unfold normalize. destruct (concat heatmap) as [|y ys] eqn:Hcat;
    [by apply not_elem_of_nil in Hin|].
  cbn [py_max]. rewrite bind_ret_l.
  destruct (R_max_from_spec y ys) as [Hmax_in Hmax]. rewrite <- Hcat in *.
  set (m := max_from y ys) in *.
  assert (0 < m) as Hm by (pose proof (Hmax x0 Hin); lra).
  simpl ltb. rewrite bool_decide_eq_true_2 by done.
  eexists. split; [reflexivity|]. split; [by apply grid_shaped_fmap|]. split.
  - apply Forall_fmap. apply Forall_forall. intros row Hrow. simpl.
    apply Forall_fmap, Forall_forall. intros x Hx. simpl.
    assert (0 <= x)
      by (eapply (proj1 (Forall_forall _ _)
                    (proj1 (Forall_forall _ _) Hnn row Hrow)); done).
    assert (x <= m) by (apply Hmax, elem_of_concat; eauto).
    split.
    + apply Rle_mult_inv_pos; done.
    + apply Rmult_le_reg_l with m; [done|].
      replace (m * (x / m)) with x by (field; lra). lra.
  - apply elem_of_concat in Hmax_in as (row & Hrow & Hm_in).
    exists ((λ x, fdiv x m) <$> row). split.
    + by apply (list_elem_of_fmap_2 (λ row : list R, (λ x, fdiv x m) <$> row)).
    + replace 1 with (fdiv m m) by (simpl; field; lra).
      by apply (list_elem_of_fmap_2 (λ x, fdiv x m)).
Qed.

Lemma R_trunc_bounds (x : R) (n : Z) :
  0 <= x <= IZR n → (0 ≤ R_trunc x ≤ n)%Z.
Proof.
  intros [H0 Hn]. unfold R_trunc. destruct (Rle_dec 0 x) as [_|?]; [|done].
  destruct (base_Int_part x) as [Hle Hgt]. split.
  - assert (-1 < IZR (Int_part x)) as Hlt by lra.
    apply (lt_IZR (-1)) in Hlt. lia.
  - apply le_IZR. lra.
Qed.

Lemma R_trunc_IZR (n : Z) : (0 ≤ n)%Z → R_trunc (IZR n) = n.
Proof.
  intros Hn. unfold R_trunc.
  destruct (Rle_dec 0 (IZR n)) as [_|Hneg]; [|destruct Hneg; by apply IZR_le].
  symmetry. apply Int_part_spec. lra.
Qed.

(** A cell in [[0, 1]] has one of the six symbols with its colour; the
    cell [1] has the last. *)
Lemma R_cell_style (val : R) :
  0 <= val <= 1 →
  ∃ c, cell_style val = inr c ∧ c ∈ zip chars colors.
Proof.
  intros Hval. unfold cell_style.
  change (py_int_of_float (mul val (of_int (Z.of_nat (length chars) - 1))))
    with (inr (R_trunc (val * 5)) : outcome Z).
  cbn [mbind outcome_bind].
  destruct (R_trunc_bounds (val * 5) 5) as [Hlo Hhi]; [lra|].
  assert (R_trunc (val * 5) ∈ [0; 1; 2; 3; 4; 5]%Z) as Hk.
  { apply list_elem_of_In. simpl. lia. }
  repeat (apply elem_of_cons in Hk as [->|Hk];
          [eexists; split; [reflexivity|];
           apply list_elem_of_In; simpl; tauto|]).
  by apply not_elem_of_nil in Hk.
Qed.

Lemma R_cell_style_one : cell_style 1%R = inr (9608%N, "red").
Proof.
  unfold cell_style.
  change (py_int_of_float (mul 1 (of_int (Z.of_nat (length chars) - 1))))
    with (inr (R_trunc (1 * 5)) : outcome Z).
  replace (1 * 5) with (IZR 5) by lra. by rewrite R_trunc_IZR by lia.
Qed.

End RealHeatmap.

Section RealDisplay.
Local Open Scope R_scope.
Implicit Types (g heatmap : list (list R)).

Lemma nonneg_grid_zeros : nonneg_grid (np_zeros grid_height grid_width).
Proof.
  unfold nonneg_grid, np_zeros. apply Forall_replicate, Forall_replicate.
  simpl. lra.
Qed.

(** Every cell of a normalized grid is drawn. *)
Lemma R_render g :
  Forall (Forall (λ v, 0 <= v <= 1)) g →
  ∃ rows,
    for_each (for_each cell_style) g = inr rows
    ∧ Forall2 (Forall2 (λ v c, cell_style v = inr c ∧ c ∈ zip chars colors))
              g rows.
Proof.
  intros Hg. apply for_each_inr. intros row Hrow.
  apply for_each_inr. intros v Hv.
  destruct (R_cell_style v) as (c & Hc & Hin); [|by exists c].
  pose proof (proj1 (Forall_forall _ _) Hg row Hrow) as Hcells.
  exact (proj1 (Forall_forall _ _) Hcells v Hv).
Qed.

Lemma rendered_shape g (rows : list (list (N * string))) (P : R → N * string → Prop) :
  grid_shaped g → Forall2 (Forall2 P) g rows → grid_shaped rows.
Proof.
  intros [Hrows Hcols] Hall. split.
  - by rewrite <- (Forall2_length _ _ _ Hall).
  - apply Forall_lookup. intros i row' Hrow'.
    destruct (Forall2_lookup_r _ _ _ _ _ Hall Hrow') as (row & Hrow & Hcells).
    rewrite <- (Forall2_length _ _ _ Hcells).
    by eapply (proj1 (Forall_lookup _ _) Hcols).
Qed.

Lemma rendered_hottest g (rows : list (list (N * string))) :
  Forall2 (Forall2 (λ v c, cell_style v = inr c ∧ c ∈ zip chars colors)) g rows →
  (∃ row, row ∈ g ∧ 1 ∈ row) →
  ∃ row', row' ∈ rows ∧ (9608%N, "red") ∈ row'.
Proof.
  intros Hall (row & [i Hrow]%list_elem_of_lookup & [j Hone]%list_elem_of_lookup).
  destruct (Forall2_lookup_l _ _ _ _ _ Hall Hrow) as (row' & Hrow' & Hcells).
  destruct (Forall2_lookup_l _ _ _ _ _ Hcells Hone) as (c & Hc & Hstyle & _).
  rewrite R_cell_style_one in Hstyle. injection Hstyle as <-.
  exists row'. split; apply list_elem_of_lookup; eauto.
Qed.

(** The coverage of a grid that has a cell [1]. *)
Lemma R_coverage g :
  grid_shaped g → (∃ row, row ∈ g ∧ 1 ∈ row) →
  ∃ cov, percentage (count_nonzero g) (Z.of_nat (length (concat g))) = inr cov
         ∧ 0 < cov <= 100.
Proof.
  intros [Hrows Hcols] (row & Hrow & Hone).
  pose proof (length_concat_shaped g _ _ Hrows Hcols) as Hsize.
  assert (1 ≤ count_nonzero g ≤ length (concat g))%nat as [Hlo Hhi].
  { unfold count_nonzero. split; [|apply length_filter].
    assert (1 ∈ filter (λ x : R, eqb x zero = false) (concat g)) as Hin.
    { apply list_elem_of_filter. split.
      - simpl. apply bool_decide_eq_false_2. lra.
      - apply elem_of_concat. eauto. }
    destruct (filter _ (concat g)); [by apply not_elem_of_nil in Hin|simpl; lia]. }
  rewrite percentage_inr by lia.
  eexists. split; [reflexivity|]. simpl.
  assert (0 < IZR (Z.of_nat (count_nonzero g))) by (apply IZR_lt; lia).
  assert (IZR (Z.of_nat (count_nonzero g)) <= IZR (Z.of_nat (length (concat g))))
    by (apply IZR_le; lia).
  set (a := IZR (Z.of_nat (count_nonzero g))) in *.
  set (b := IZR (Z.of_nat (length (concat g)))) in *.
  assert (0 < a / b) by (apply Rdiv_lt_0_compat; lra).
  assert (a / b <= 1).
  { apply Rmult_le_reg_l with b; [lra|].
    replace (b * (a / b)) with a by (field; lra). lra. }
  lra.
Qed.

Lemma share_inr (n total : nat) :
  (0 < total)%nat →
  share (F:=R) n total
  = inr (Some (IZR (Z.of_nat n) / IZR (Z.of_nat total) * 100)).
Proof.
  intros Htotal. unfold share.
  rewrite (proj2 (Z.ltb_lt _ _)) by lia.
  by rewrite percentage_inr by lia.
Qed.

End RealDisplay.



(** * The URL cache *)

Section CacheText.
Implicit Types (s t u a b line text rest : string) (c : ascii).

Lemma no_bar_or_break_cons c s :
  no_bar_or_break (String c s) = true
  ↔ Ascii.eqb c bar = false ∧ Ascii.eqb c line_feed = false
    ∧ Ascii.eqb c carriage_return = false ∧ no_bar_or_break s = true.
Proof.
  simpl. rewrite !andb_true_iff, !negb_true_iff. tauto.
Qed.

Lemma py_isspace_bar : py_isspace bar = false.
Proof. done. Qed.

Lemma py_isspace_line_feed : py_isspace line_feed = true.
Proof. done. Qed.

(** *** [strip] *)

Lemma py_rstrip_app a b :
  py_rstrip (a +:+ b)
  = match py_rstrip b with
    | EmptyString => py_rstrip a
    | String c r => a +:+ String c r
    end.
Proof.
  induction a as [|c a IH].
  - rewrite string_app_nil. destruct (py_rstrip b); [done|].
    by rewrite string_app_nil.
  - rewrite string_app_cons. cbn [py_rstrip]. rewrite IH.
    destruct (py_rstrip b) as [|c' r]; [done|].
    rewrite string_app_cons. by destruct a.
Qed.

Lemma py_lstrip_head c s :
  py_lstrip (String c s) = String c s → py_isspace c = false.
Proof.
  cbn [py_lstrip]. destruct (py_isspace c); [|done]. intros Heq.
  assert (∀ t, String.length (py_lstrip t) ≤ String.length t) as Hlen.
  { induction t as [|c' t IHt]; [done|]. cbn [py_lstrip].
    destruct (py_isspace c'); simpl; lia. }
  pose proof (Hlen s) as Hs. rewrite Heq in Hs. simpl in Hs. lia.
Qed.

Lemma string_app_nil_r s : s +:+ EmptyString = s.
Proof. induction s as [|c s IH]; [done|]. by rewrite string_app_cons, IH. Qed.

(** A line written with a separator that is not white space is what
    [strip] leaves of it. *)
Lemma py_strip_line u sep t c r :
  sep = String c r → py_isspace c = false → py_rstrip sep = sep →
  py_lstrip u = u → py_rstrip t = t →
  py_strip (u +:+ sep +:+ t +:+ String line_feed EmptyString)
  = u +:+ sep +:+ t.
Proof.
  intros Hsep Hc Hrsep Hu Ht. unfold py_strip.
  assert (py_lstrip (u +:+ sep +:+ t +:+ String line_feed EmptyString)
          = u +:+ sep +:+ t +:+ String line_feed EmptyString) as ->.
  { destruct u as [|c' u].
    - rewrite string_app_nil, Hsep, string_app_cons. cbn [py_lstrip].
      by rewrite Hc.
    - rewrite string_app_cons. cbn [py_lstrip].
      by rewrite (py_lstrip_head c' u Hu). }
  assert (py_rstrip (sep +:+ t +:+ String line_feed EmptyString) = sep +:+ t)
    as Hrest.
  { rewrite (py_rstrip_app sep), (py_rstrip_app t). cbn [py_rstrip].
    rewrite py_isspace_line_feed, Ht.
    destruct t as [|c' t]; [|done]. by rewrite Hrsep, string_app_nil_r. }
  rewrite (py_rstrip_app u), Hrest.
  by rewrite Hsep, string_app_cons.
Qed.

Lemma py_strip_cache_line u t :
  py_lstrip u = u → py_rstrip t = t →
  py_strip (cache_line u t) = u +:+ "|||" +:+ t.
Proof. intros Hu Ht. by apply (py_strip_line u "|||" t bar "||"). Qed.

(** *** [split] *)

Lemma split_bars_nonempty s : split_bars s ≠ [].
Proof.
  destruct s as [|c s]; [done|]. cbn [split_bars].
  destruct s as [|c2 [|c3 rest]];
    try (destruct (split_bars _); done).
  destruct (Ascii.eqb c bar && Ascii.eqb c2 bar && Ascii.eqb c3 bar); [done|].
  by destruct (split_bars _).
Qed.

Lemma split_bars_cons c s :
  Ascii.eqb c bar = false →
  split_bars (String c s)
  = match split_bars s with
    | part :: parts => String c part :: parts
    | [] => [String c EmptyString]
    end.
Proof.
  intros Hc. cbn [split_bars]. rewrite Hc.
  by destruct s as [|c2 [|c3 rest]].
Qed.

Lemma split_bars_free s : no_bar_or_break s = true → split_bars s = [s].
Proof.
  induction s as [|c s IH]; [done|].
  intros (Hc & _ & _ & Hs)%no_bar_or_break_cons.
  by rewrite split_bars_cons, IH.
Qed.

Lemma split_bars_app u rest :
  no_bar_or_break u = true →
  split_bars (u +:+ "|||" +:+ rest) = u :: split_bars rest.
Proof.
  induction u as [|c u IH].
  - intros _. by rewrite string_app_nil.
  - intros (Hc & _ & _ & Hu)%no_bar_or_break_cons.
    rewrite string_app_cons, split_bars_cons, IH; done.
Qed.

(** *** The lines of the file *)

Lemma file_lines_cons c text :
  Ascii.eqb c line_feed = false →
  file_lines (String c text)
  = match file_lines text with
    | line :: lines => String c line :: lines
    | [] => [String c EmptyString]
    end.
Proof. intros Hc. cbn [file_lines]. by rewrite Hc. Qed.

Lemma no_line_feed_app a b :
  no_line_feed (a +:+ b) = no_line_feed a && no_line_feed b.
Proof.
  induction a as [|c a IH]; [by rewrite string_app_nil|].
  rewrite string_app_cons. simpl. by rewrite IH, andb_assoc.
Qed.

Lemma no_bar_or_break_line_feed s :
  no_bar_or_break s = true → no_line_feed s = true.
Proof.
  induction s as [|c s IH]; [done|].
  intros (_ & Hc & _ & Hs)%no_bar_or_break_cons. simpl.
  by rewrite Hc, IH.
Qed.

Lemma file_lines_line line rest :
  no_line_feed line = true →
  file_lines (line +:+ String line_feed rest)
  = (line +:+ String line_feed EmptyString) :: file_lines rest.
Proof.
  induction line as [|c line IH].
  - intros _. by rewrite !string_app_nil.
  - intros Hl. cbn [no_line_feed] in Hl.
    apply andb_true_iff in Hl as [Hc%negb_true_iff Hline].
    by rewrite !string_app_cons, file_lines_cons, IH.
Qed.

Lemma file_lines_ended_line line rest :
  no_line_feed line = true →
  file_lines ((line +:+ String line_feed EmptyString) +:+ rest)
  = (line +:+ String line_feed EmptyString) :: file_lines rest.
Proof.
  intros Hline.
  by rewrite string_app_assoc, string_app_cons, string_app_nil, file_lines_line.
Qed.

Lemma file_lines_app t rest :
  file_lines ((t +:+ String line_feed EmptyString) +:+ rest)
  = file_lines (t +:+ String line_feed EmptyString) ++ file_lines rest.
Proof.
  induction t as [|c t IH].
  - by rewrite !string_app_nil.
  - rewrite !string_app_cons. cbn [file_lines].
    destruct (Ascii.eqb c line_feed).
    + by rewrite IH.
    + rewrite IH.
      destruct (file_lines (t +:+ String line_feed "")) as [|l ls] eqn:Hl; [|done].
      exfalso. clear -Hl. induction t as [|c' t IHt]; [done|].
      rewrite string_app_cons in Hl. cbn [file_lines] in Hl.
      destruct (Ascii.eqb c' line_feed); [done|].
      by destruct (file_lines (t +:+ String line_feed "")).
Qed.

(** After a text whose last line is ended, a new line is read on its
    own. *)
Lemma file_lines_append text line :
  ends_lines text → no_line_feed line = true →
  file_lines (text +:+ line +:+ String line_feed EmptyString)
  = file_lines text ++ [line +:+ String line_feed EmptyString].
Proof.
  intros [->|[t ->]] Hline.
  - rewrite string_app_nil. by rewrite file_lines_line.
  - rewrite file_lines_app. f_equal. by rewrite file_lines_line.
Qed.

End CacheText.

Lemma foldM_app {A B} (f : B → A → result B) (l1 l2 : list A) (b : B) :
  foldM f (l1 ++ l2) b = do b' <- foldM f l1 b; foldM f l2 b'.
Proof.
  revert b. induction l1 as [|x l1 IH]; intros b; [done|].
  simpl. destruct (f b x) as [e|b']; [done|]. simpl. apply IH.
Qed.

Section CacheLines.
Implicit Types (url output_name a b text : string).
Implicit Types (url_cache : gmap string string).

Lemma cache_line_no_line_feed url output_name :
  cache_safe url → cache_safe output_name →
  no_line_feed (url +:+ "|||" +:+ output_name) = true.
Proof.
  intros [Hu _] [Hn _]. rewrite !no_line_feed_app.
  by rewrite (no_bar_or_break_line_feed url Hu),
    (no_bar_or_break_line_feed output_name Hn).
Qed.

Lemma app_bars_nonempty a b : a +:+ "|||" +:+ b ≠ EmptyString.
Proof. destruct a; [by rewrite string_app_nil|by rewrite string_app_cons]. Qed.

(** A line of the cache is read as the pair it was written from. *)
Lemma load_line_cache_line url_cache url output_name :
  cache_safe url → cache_safe output_name →
  load_line url_cache (cache_line url output_name)
  = inr (<[url := output_name]> url_cache).
Proof.
  intros (Hu & Hlu & _) (Hn & _ & Hrn). unfold load_line.
  rewrite py_strip_cache_line by done.
  rewrite decide_False by apply app_bars_nonempty.
  by rewrite split_bars_app, split_bars_free.
Qed.

Lemma py_rstrip_bars t : py_rstrip t = t → py_rstrip ("|||" +:+ t) = "|||" +:+ t.
Proof.
  intros Ht. rewrite py_rstrip_app, Ht.
  destruct t; [by rewrite string_app_nil_r|done].
Qed.

(** A line whose URL holds the separator is read as three parts. *)
Lemma load_line_three_parts url_cache a b output_name :
  cache_safe a → cache_safe b → cache_safe output_name →
  load_line url_cache (cache_line (a +:+ "|||" +:+ b) output_name)
  = inl ValueError.
Proof.
  intros (Ha & Hla & _) (Hb & _ & _) (Hn & _ & Hrn). unfold load_line.
  assert (cache_line (a +:+ "|||" +:+ b) output_name
          = cache_line a (b +:+ "|||" +:+ output_name)) as ->.
  { unfold cache_line. by rewrite !string_app_assoc. }
  rewrite py_strip_cache_line; [|done|].
  - rewrite decide_False by apply app_bars_nonempty.
    by rewrite !split_bars_app, split_bars_free.
  - rewrite py_rstrip_app, py_rstrip_bars by done. done.
Qed.

Lemma load_cache_append text line :
  ends_lines text → no_line_feed line = true →
  load_cache (text +:+ line +:+ String line_feed EmptyString)
  = do url_cache <- load_cache text;
    load_line url_cache (line +:+ String line_feed EmptyString).
Proof.
  intros Htext Hline. unfold load_cache.
  rewrite file_lines_append, foldM_app by done.
  destruct (foldM load_line (file_lines text) ∅) as [e|url_cache]; [done|].
  simpl. by destruct (load_line url_cache _).
Qed.

(** The load raises nothing but [ValueError]. *)
Lemma load_lines_error (lines : list string) url_cache (e : exn) :
  foldM load_line lines url_cache = inl e → e = ValueError.
Proof.
  revert url_cache. induction lines as [|line lines IH]; intros url_cache; [done|].
  cbn [foldM]. destruct (load_line url_cache line) as [e'|url_cache'] eqn:Hline.
  - intros [= <-]. unfold load_line in Hline.
    destruct (decide (py_strip line = "")); [done|].
    destruct (split_bars (py_strip line)) as [|? [|? [|? ?]]];
      unfold raise, ret in Hline; by simplify_eq.
  - rewrite bind_inr_l. apply IH.
Qed.

End CacheLines.

(** X19.  The cache file restores the cache: after a file that is empty
    or whose last line is ended, the line the script appends for a
    download is read back, at the next start, as the assignment
    [url_cache[url] = output_name] on top of what the file held before,
    for a URL and a name without white space at their ends and without
    bar or line end; and the file is again one whose last line is
    ended. *)
Theorem cache_line_is_read_back :
  ∀ (text url output_name : string),
    ends_lines text → cache_safe url → cache_safe output_name →
    load_cache (text +:+ cache_line url output_name)
    = (do url_cache <- load_cache text; ret (<[url := output_name]> url_cache))
    ∧ ends_lines (text +:+ cache_line url output_name).
Proof.
  intros text url output_name Htext Hurl Hname. split.
  - assert (cache_line url output_name
            = (url +:+ "|||" +:+ output_name) +:+ String line_feed EmptyString)
      as Hline by (unfold cache_line; by rewrite !string_app_assoc).
    rewrite Hline.
    rewrite (load_cache_append text (url +:+ "|||" +:+ output_name))
      by (by try apply cache_line_no_line_feed).
    destruct (load_cache text) as [e|url_cache]; [done|]. rewrite bind_inr_l.
    rewrite <- Hline. by apply load_line_cache_line.
  - right. exists (text +:+ url +:+ "|||" +:+ output_name).
    unfold cache_line. by rewrite !string_app_assoc.
Qed.

Lemma cache_line_is_read_back_witness :
  load_cache (cache_line "https://youtu.be/abc" "clip.mp4")
  = inr {[ "https://youtu.be/abc" := "clip.mp4" ]}.
Proof.
  refine (proj1 (cache_line_is_read_back "" "https://youtu.be/abc" "clip.mp4"
                   _ _ _)).
  - by left.
  - by split.
  - by split.
Defined.

(** X20.  A URL that contains the separator [|||] spoils the cache: the
    line appended for it is split in three parts at the next start, the
    unpacking into two names raises [ValueError], and so does every
    later load of the file, whatever is appended after it. *)
Theorem separator_in_url_breaks_the_cache :
  ∀ (text a b output_name rest : string),
    ends_lines text →
    cache_safe a → cache_safe b → cache_safe output_name →
    load_cache (text +:+ cache_line (a +:+ "|||" +:+ b) output_name +:+ rest)
    = inl ValueError.
Proof.
  intros text a b output_name rest Htext Ha Hb Hname.
  set (url := a +:+ "|||" +:+ b).
  assert (cache_line url output_name
          = (url +:+ "|||" +:+ output_name) +:+ String line_feed EmptyString)
    as Hline by (unfold cache_line; by rewrite !string_app_assoc).
  assert (no_line_feed (url +:+ "|||" +:+ output_name) = true) as Hfree.
  { unfold url. destruct Ha as [Ha _], Hb as [Hb _], Hname as [Hn _].
    rewrite !no_line_feed_app.
    by rewrite (no_bar_or_break_line_feed a Ha), (no_bar_or_break_line_feed b Hb),
      (no_bar_or_break_line_feed output_name Hn). }
  unfold load_cache.
  assert (file_lines (text +:+ cache_line url output_name +:+ rest)
          = file_lines text ++ cache_line url output_name :: file_lines rest)
    as ->.
  { rewrite Hline. destruct Htext as [->|[t ->]].
    - by rewrite string_app_nil, file_lines_ended_line.
    - by rewrite file_lines_app, file_lines_ended_line. }
  rewrite foldM_app.
  destruct (foldM load_line (file_lines text) ∅) as [e|url_cache] eqn:Hload.
  - by apply load_lines_error in Hload as ->.
  - rewrite bind_inr_l. cbn [foldM]. unfold url.
    by rewrite load_line_three_parts.
Qed.

Lemma separator_in_url_breaks_the_cache_witness :
  load_cache (cache_line "a|||b" "clip.mp4" +:+ cache_line "c" "d.mp4")
  = inl ValueError.
Proof.
  refine (separator_in_url_breaks_the_cache "" "a" "b" "clip.mp4"
            (cache_line "c" "d.mp4") _ _ _ _).
  - by left.
  - by split.
  - by split.
  - by split.
Defined.

(** * The script as a whole, without rounding *)

Section RealScript.
Local Open Scope R_scope.
Implicit Types (csv_data : list (detection R)) (fps : R).

Lemma R_trunc_of_int (n : Z) : R_trunc (IZR n) = n.
Proof.
  destruct (Z.le_gt_cases 0 n) as [Hn|Hn]; [by apply R_trunc_IZR|].
  unfold R_trunc. destruct (Rle_dec 0 (IZR n)) as [Hle|_].
  - apply le_IZR in Hle. lia.
  - rewrite <- opp_IZR.
    assert (Int_part (IZR (- n)) = (- n)%Z) as ->; [|lia].
    symmetry. apply Int_part_spec. lra.
Qed.

Lemma R_create_ascii_heatmap_returns csv_data :
  ∃ r, create_ascii_heatmap csv_data = inr r.
Proof.
  destruct csv_data as [|d l]; [by eexists|].
  destruct (R_heatmap_loop (d :: l) (np_zeros grid_height grid_width)
              grid_shaped_zeros nonneg_grid_zeros)
    as (heatmap1 & Hloop & Hshape1 & Hnn1 & Hpos1).
  destruct (R_normalize heatmap1 Hshape1 Hnn1) as (heatmap2 & Hnorm & Hshape2 & Hunit & Hone);
    [apply Hpos1; by left|].
  destruct (R_render heatmap2 Hunit) as (rows & Hrender & _).
  destruct (R_coverage heatmap2 Hshape2 Hone) as (cov & Hcov & _).
  unfold create_ascii_heatmap.
  rewrite Hloop. cbn [mbind outcome_bind].
  rewrite Hnorm. cbn [lift mbind outcome_bind].
  rewrite Hrender. cbn [mbind outcome_bind].
  rewrite Hcov. cbn [lift mbind outcome_bind].
  rewrite !share_inr by (simpl; lia). cbn [lift mbind outcome_bind].
  by eexists.
Qed.

Lemma R_create_3d_trajectory_returns csv_data :
  ∃ r, create_3d_trajectory csv_data = inr r.
Proof.
  destruct (decide (csv_data = [])) as [->|Hne]; [by eexists|].
  destruct (create_3d_trajectory_inr csv_data Hne) as (fig & -> & _). by eexists.
Qed.

(** With a frame rate that is not zero the script reaches the report,
    with the duration the quotient and the frame total of the report
    the frame count again. *)
Lemma R_process_video_report fps (total_frames : Z) (is_opened : bool)
    (reads : list (read_result R)) :
  fps ≠ 0 →
  process_video fps total_frames is_opened reads
  = generate_tracking_report (csv_data (tracking_pass is_opened reads)) fps
      (IZR total_frames / fps)
  ∧ py_int_of_float (mul (IZR total_frames / fps) fps) = inr total_frames.
Proof.
  intros Hfps. split.
  - unfold process_video, main_duration_sec, py_div. simpl eqb.
    rewrite bool_decide_eq_false_2 by done. cbn [lift ret mbind outcome_bind].
    destruct (R_create_ascii_heatmap_returns
                (csv_data (tracking_pass is_opened reads))) as [r1 ->].
    destruct (R_create_3d_trajectory_returns
                (csv_data (tracking_pass is_opened reads))) as [r2 ->].
    done.
  - simpl. f_equal. replace (IZR total_frames / fps * fps) with (IZR total_frames)
      by (field; done).
    apply R_trunc_of_int.
Qed.

Lemma present_hands_valid csv_data fps (d : detection R) :
  d ∈ csv_data → valid_record d →
  present_hands (aggregate csv_data fps) ≠ [].
Proof.
  intros Hd Hvalid. unfold aggregate.
  destruct csv_data as [|d0 l0]; [by apply not_elem_of_nil in Hd|].
  unfold present_hands. cbn [left right].
  assert (∀ hand_type, hand d = hand_type →
            hand_aggregate (d0 :: l0) fps hand_type ≠ None) as Hsome.
  { intros hand_type Hh. unfold hand_aggregate.
    destruct (hand_subset (d0 :: l0) hand_type) as [|e l] eqn:Hsub; [|done].
    assert (d ∈ hand_subset (d0 :: l0) hand_type) as Hin
      by (unfold hand_subset; by apply list_elem_of_filter).
    rewrite Hsub in Hin. by apply not_elem_of_nil in Hin. }
  destruct Hvalid as [Hl|Hr].
  - destruct (hand_aggregate (d0 :: l0) fps "Left") eqn:Hagg; [done|].
    by destruct (Hsome "Left" Hl).
  - destruct (hand_aggregate (d0 :: l0) fps "Right") eqn:Hagg.
    + by destruct (hand_aggregate (d0 :: l0) fps "Left").
    + by destruct (Hsome "Right" Hr).
Qed.

End RealScript.

